(** * Session service of the rport server (server/session_service.go)

    A shallow embedding of [SessionService] and of what it touches: the
    heap cells behind the [*csr.ClientSession] and [*chshare.Remote]
    pointers it is handed, the state behind its two collaborators
    ([s.portDistributor] and [s.repo]), the wall clock, and the sequence of
    calls it makes into the packages [ports], [csr] and [chshare].

    The packages [ports], [csr], [chshare] and [ssh] lie outside this
    development.  Their types and methods are the fields of the classes
    [Opaque] and [Packages]; every theorem about the service holds for all
    of them.  Module [SpecModel] instantiates both classes from the prose
    specification, to run the service on concrete inputs. *)

From stdpp Require Import base option list gmap strings fin_maps.
From Stdlib Require Import ZArith DecimalString.
From Stdlib Require DecimalPos DecimalZ.

Open Scope Z_scope.

(** ** Go values *)

(** A pointer is a heap location or [nil]. *)
Definition loc := positive.
Definition ptr := option loc.

(** [*p], where it is defined: nil points to nothing. *)
Definition deref {A} (h : gmap loc A) (p : ptr) : option A :=
  match p with
  | Some l => h !! l
  | None => None
  end.

(** A slice is a list; [None] is the nil slice, which Go tells apart from
    the empty slice that [make] returns. *)
Definition slice (A : Type) := option (list A).

Definition elems {A} (s : slice A) : list A := default [] s.

(** [append(s, x)]: appending to the nil slice allocates. *)
Definition append {A} (s : slice A) (x : A) : slice A := Some (elems s ++ [x]).

(** [make([]T, 0)] and [make([]T, 0, n)]. *)
Definition make0 {A} : slice A := Some [].

(** [strconv.Itoa]: the decimal digits, with a leading minus sign for a
    negative number. *)
Definition Itoa (i : Z) : string := NilZero.string_of_int (Z.to_int i).

(** [time.Time] as far as the service reads it: an instant (nanoseconds
    since the epoch) and the location it is presented in. *)
Inductive Location := Local | UTC.

Record Time := mkTime { instant : Z; location : Location }.

(** [t.UTC()]: the same instant, presented in UTC. *)
Definition Time_UTC (t : Time) : Time := mkTime (instant t) UTC.

(** ** Types of the other packages *)

(** Types the service stores and forwards without looking inside. *)
Class Opaque := {
  (** the dynamic value of a non-nil [error] *)
  Err : Type;
  (** [*csr.Tunnel], nil included *)
  Tunnel : Type;
  (** [ssh.Conn] *)
  ssh_Conn : Type;
  (** [context.Context] *)
  context_Context : Type;
  (** [*chshare.User] *)
  chshare_User : Type;
  (** [*chshare.Logger] *)
  chshare_Logger : Type;
  (** the state behind [*ports.PortDistributor] *)
  PortDistributor : Type;
  (** the state behind [*csr.ClientSessionRepository] *)
  ClientSessionRepository : Type;
}.

(** A Go [error]: [None] is nil. *)
Definition error `{Opaque} := option Err.

(** [chshare.Remote]: the two endpoints of a forward, as strings. *)
Record Remote := mkRemote {
  LocalHost : string;
  LocalPort : string;
  RemoteHost : string;
  RemotePort : string;
}.

Definition Remote_set_LocalPort (v : string) (r : Remote) : Remote :=
  mkRemote (LocalHost r) v (RemoteHost r) (RemotePort r).

Definition Remote_set_LocalHost (v : string) (r : Remote) : Remote :=
  mkRemote v (LocalPort r) (RemoteHost r) (RemotePort r).

(** Modelled from the spec: [csr.TunnelACL] is declared outside this
    development; the specification describes it as the list of permitted caller
    network ranges attached to a tunnel, the empty list meaning no
    restriction.  A range is kept as its CIDR text. *)
Record TunnelACL := mkTunnelACL { AllowedIPs : slice string }.

(** [csr.TunnelACL{}]: every field at its zero value. *)
Definition TunnelACL_zero : TunnelACL := mkTunnelACL None.

Section Types.
Context `{Opaque}.

(** [chshare.ConnectionRequest], the fields [StartClientSession] reads. *)
Record ConnectionRequest := mkConnectionRequest {
  req_Name : string;
  req_Tags : slice string;
  req_OS : string;
  req_Hostname : string;
  req_Version : string;
  req_IPv4 : slice string;
  req_IPv6 : slice string;
  req_Remotes : slice ptr;
}.

(** [csr.ClientSession]: the fields of the composite literal in
    [StartClientSession], and [Disconnected], which [Terminate] assigns. *)
Record ClientSession := mkClientSession {
  ID : string;
  Name : string;
  Tags : slice string;
  OS : string;
  Hostname : string;
  Version : string;
  IPv4 : slice string;
  IPv6 : slice string;
  Address : string;
  Tunnels : slice Tunnel;
  Connection : ssh_Conn;
  Context : context_Context;
  User : chshare_User;
  Logger : chshare_Logger;
  Disconnected : option Time;
}.

Definition ClientSession_set_Disconnected (v : option Time) (c : ClientSession)
  : ClientSession :=
  mkClientSession (ID c) (Name c) (Tags c) (OS c) (Hostname c) (Version c)
    (IPv4 c) (IPv6 c) (Address c) (Tunnels c) (Connection c) (Context c)
    (User c) (Logger c) v.

(** ** Calls into the other packages *)

(** One entry per call the service makes into [ports], [chshare] and [csr]:
    the arguments as the callee finds them (a pointer together with the
    value it points to at that moment) and what the callee returned. *)
Inductive Event :=
| EvRefresh (err : error)
| EvGetRandomPort (port : Z) (err : error)
| EvIsLocalSpecified (remote : ptr) (r : Remote) (b : bool)
| EvStartTunnel (session : ptr) (remote : ptr) (r : Remote) (acl : TunnelACL)
    (t : Tunnel) (err : error)
| EvCount (n : Z) (err : error)
| EvGetActiveByID (id : string) (c : ptr) (err : error)
| EvGetAll (cs : slice ptr) (err : error)
| EvSave (session : ptr) (err : error)
| EvDelete (session : ptr) (err : error).

(** ** The world a call runs in *)

Record World := mkWorld {
  (** the allocator behind [s.portDistributor] *)
  portDistributor : PortDistributor;
  (** the repository behind [s.repo] *)
  repo : ClientSessionRepository;
  (** the [csr.ClientSession] objects, by address *)
  sessions : gmap loc ClientSession;
  (** the [chshare.Remote] objects, by address *)
  remotes : gmap loc Remote;
  (** what [time.Now] reads, in nanoseconds since the epoch *)
  wallclock : Z;
  (** the calls made so far, oldest first *)
  trace : list Event;
}.

Definition set_portDistributor (v : PortDistributor) (w : World) : World :=
  mkWorld v (repo w) (sessions w) (remotes w) (wallclock w) (trace w).

Definition set_repo (v : ClientSessionRepository) (w : World) : World :=
  mkWorld (portDistributor w) v (sessions w) (remotes w) (wallclock w) (trace w).

Definition set_sessions (v : gmap loc ClientSession) (w : World) : World :=
  mkWorld (portDistributor w) (repo w) v (remotes w) (wallclock w) (trace w).

Definition set_remotes (v : gmap loc Remote) (w : World) : World :=
  mkWorld (portDistributor w) (repo w) (sessions w) v (wallclock w) (trace w).

Definition set_wallclock (v : Z) (w : World) : World :=
  mkWorld (portDistributor w) (repo w) (sessions w) (remotes w) v (trace w).

Definition emit (ev : Event) (w : World) : World :=
  mkWorld (portDistributor w) (repo w) (sessions w) (remotes w) (wallclock w)
    (trace w ++ [ev]).

(** The methods of the other packages.  Each is a function of the state it
    owns; the repository, which keeps pointers, also reads the session
    objects behind them.  A call into them returns: a collaborator that
    panics is not modelled. *)
Class Packages := {
  (** [func (d *PortDistributor) Refresh() error] *)
  PortDistributor_Refresh : PortDistributor → error * PortDistributor;
  (** [func (d *PortDistributor) GetRandomPort() (int, error)] *)
  PortDistributor_GetRandomPort : PortDistributor → (Z * error) * PortDistributor;
  (** [func (r *Remote) IsLocalSpecified() bool] *)
  Remote_IsLocalSpecified : Remote → bool;
  (** [func (c *ClientSession) StartTunnel(r *Remote, acl TunnelACL) (ptr, error)] *)
  ClientSession_StartTunnel :
    ClientSession → Remote → TunnelACL → (Tunnel * error) * ClientSession;
  (** the field [KeepLostClients *time.Duration] of the repository *)
  KeepLostClients : ClientSessionRepository → option Z;
  (** [func (r *ClientSessionRepository) Count() (int, error)] *)
  Repository_Count :
    gmap loc ClientSession → ClientSessionRepository →
    (Z * error) * ClientSessionRepository;
  (** [func (r *ClientSessionRepository) GetActiveByID(id string) (ptr, error)] *)
  Repository_GetActiveByID :
    string → gmap loc ClientSession → ClientSessionRepository →
    (ptr * error) * ClientSessionRepository;
  (** [func (r *ClientSessionRepository) GetAll() ([]*ClientSession, error)] *)
  Repository_GetAll :
    gmap loc ClientSession → ClientSessionRepository →
    (slice ptr * error) * ClientSessionRepository;
  (** [func (r *ClientSessionRepository) Save(session *ClientSession) error] *)
  Repository_Save :
    ptr → gmap loc ClientSession → ClientSessionRepository →
    error * ClientSessionRepository;
  (** [func (r *ClientSessionRepository) Delete(session *ClientSession) error] *)
  Repository_Delete :
    ptr → gmap loc ClientSession → ClientSessionRepository →
    error * ClientSessionRepository;
  (** [sshConn.RemoteAddr().String()] *)
  Conn_RemoteAddr_String : ssh_Conn → string;
}.

Context `{Packages}.

(** ** Running Go code in a world *)

(** A call either returns a value or panics (a nil pointer was
    dereferenced); both leave a world behind. *)
Inductive Res (A : Type) :=
| Done (a : A) (w : World)
| Panic (w : World).
Global Arguments Done {A} a w.
Global Arguments Panic {A} w.

Definition world_of {A} (r : Res A) : World :=
  match r with Done _ w => w | Panic w => w end.

Definition M (A : Type) : Type := World → Res A.

Global Instance M_ret : MRet M := λ A a w, Done a w.

Global Instance M_bind : MBind M := λ A B f m w,
  match m w with
  | Done a w' => f a w'
  | Panic w' => Panic w'
  end.

(** Recording a call. *)
Definition log (ev : Event) : M unit := λ w, Done () (emit ev w).

(** [*p] for a pointer to a remote, and the assignment [*p = r]. *)
Definition load_remote (p : ptr) : M Remote := λ w,
  match deref (remotes w) p with
  | Some r => Done r w
  | None => Panic w
  end.

Definition store_remote (p : ptr) (r : Remote) : M unit := λ w,
  match p with
  | Some l =>
      if decide (is_Some (remotes w !! l))
      then Done () (set_remotes (<[l:=r]> (remotes w)) w)
      else Panic w
  | None => Panic w
  end.

Definition load_session (p : ptr) : M ClientSession := λ w,
  match deref (sessions w) p with
  | Some c => Done c w
  | None => Panic w
  end.

Definition store_session (p : ptr) (c : ClientSession) : M unit := λ w,
  match p with
  | Some l =>
      if decide (is_Some (sessions w !! l))
      then Done () (set_sessions (<[l:=c]> (sessions w)) w)
      else Panic w
  | None => Panic w
  end.

(** [&csr.ClientSession{...}]: a fresh object. *)
Definition new_session (c : ClientSession) : M ptr := λ w,
  let l := fresh (dom (sessions w)) in
  Done (Some l) (set_sessions (<[l:=c]> (sessions w)) w).

(** [time.Now()]. *)
Definition time_Now : M Time := λ w, Done (mkTime (wallclock w) Local) w.

(** [s.portDistributor.Refresh()]. *)
Definition call_Refresh : M error := λ w,
  let '(err, d) := PortDistributor_Refresh (portDistributor w) in
  Done err (emit (EvRefresh err) (set_portDistributor d w)).

(** [s.portDistributor.GetRandomPort()]. *)
Definition call_GetRandomPort : M (Z * error) := λ w,
  let '((port, err), d) := PortDistributor_GetRandomPort (portDistributor w) in
  Done (port, err) (emit (EvGetRandomPort port err) (set_portDistributor d w)).

(** [remote.IsLocalSpecified()]. *)
Definition call_IsLocalSpecified (remote : ptr) : M bool :=
  r ← load_remote remote;
  let b := Remote_IsLocalSpecified r in
  log (EvIsLocalSpecified remote r b);;
  mret b.

(** [session.StartTunnel(remote, acl)]: the method reads the remote and
    works on the session it is invoked on; on a nil session it dereferences
    nil. *)
Definition call_StartTunnel (session remote : ptr) (acl : TunnelACL)
  : M (Tunnel * error) :=
  c ← load_session session;
  r ← load_remote remote;
  let '((t, err), c') := ClientSession_StartTunnel c r acl in
  store_session session c';;
  log (EvStartTunnel session remote r acl t err);;
  mret (t, err).

(** [s.repo.Count()], [s.repo.GetActiveByID(id)], [s.repo.GetAll()]. *)
Definition call_Count : M (Z * error) := λ w,
  let '((n, err), rp) := Repository_Count (sessions w) (repo w) in
  Done (n, err) (emit (EvCount n err) (set_repo rp w)).

Definition call_GetActiveByID (id : string) : M (ptr * error) := λ w,
  let '((c, err), rp) := Repository_GetActiveByID id (sessions w) (repo w) in
  Done (c, err) (emit (EvGetActiveByID id c err) (set_repo rp w)).

Definition call_GetAll : M (slice ptr * error) := λ w,
  let '((cs, err), rp) := Repository_GetAll (sessions w) (repo w) in
  Done (cs, err) (emit (EvGetAll cs err) (set_repo rp w)).

(** [s.repo.Save(session)] and [s.repo.Delete(session)]. *)
Definition call_Save (session : ptr) : M error := λ w,
  let '(err, rp) := Repository_Save session (sessions w) (repo w) in
  Done err (emit (EvSave session err) (set_repo rp w)).

Definition call_Delete (session : ptr) : M error := λ w,
  let '(err, rp) := Repository_Delete session (sessions w) (repo w) in
  Done err (emit (EvDelete session err) (set_repo rp w)).

(** [s.repo.KeepLostClients]. *)
Definition read_KeepLostClients : M (option Z) := λ w,
  Done (KeepLostClients (repo w)) w.

(** ** The service *)

(** [func (s *SessionService) Count() (int, error)] *)
Definition Count : M (Z * error) := call_Count.

(** [func (s *SessionService) GetActiveByID(id string) (ptr, error)] *)
Definition GetActiveByID (id : string) : M (ptr * error) := call_GetActiveByID id.

(** [func (s *SessionService) GetAll() ([]*csr.ClientSession, error)] *)
Definition GetAll : M (slice ptr * error) := call_GetAll.

(** Lines 85 to 92 of [StartSessionTunnels]: the local endpoint of one
    remote.  The result is the error the enclosing function returns with,
    nil when the loop body goes on. *)
Definition assign_local (remote : ptr) : M error :=
  specified ← call_IsLocalSpecified remote;
  if negb specified then
    '(port, err) ← call_GetRandomPort;
    match err with
    | Some _ => mret err
    | None =>
        r ← load_remote remote;
        store_remote remote (Remote_set_LocalPort (Itoa port) r);;
        r ← load_remote remote;
        store_remote remote (Remote_set_LocalHost "0.0.0.0" r);;
        mret None
    end
  else mret None.

(** The [for _, remote := range remotes] loop of [StartSessionTunnels],
    with the slice [tunnels] it appends to. *)
Fixpoint range_remotes (session : ptr) (acl : TunnelACL) (remotes : list ptr)
    (tunnels : slice Tunnel) : M (slice Tunnel * error) :=
  match remotes with
  | [] => mret (tunnels, None)
  | remote :: rest =>
      err ← assign_local remote;
      match err with
      | Some _ => mret (None, err)
      | None =>
          '(t, err) ← call_StartTunnel session remote acl;
          match err with
          | Some _ => mret (None, err)
          | None => range_remotes session acl rest (append tunnels t)
          end
      end
  end.

(** [func (s *SessionService) StartSessionTunnels(session *csr.ClientSession,
    remotes []*chshare.Remote, acl csr.TunnelACL) ([]*csr.Tunnel, error)] *)
Definition StartSessionTunnels (session : ptr) (remotes : slice ptr)
    (acl : TunnelACL) : M (slice Tunnel * error) :=
  err ← call_Refresh;
  match err with
  | Some _ => mret (None, err)
  | None => range_remotes session acl (elems remotes) make0
  end.

(** The composite literal of [StartClientSession]. *)
Definition ClientSession_literal (ctx : context_Context) (sid : string)
    (sshConn : ssh_Conn) (req : ConnectionRequest) (user : chshare_User)
    (clog : chshare_Logger) : ClientSession :=
  {| ID := sid;
     Name := req_Name req;
     Tags := req_Tags req;
     OS := req_OS req;
     Hostname := req_Hostname req;
     Version := req_Version req;
     IPv4 := req_IPv4 req;
     IPv6 := req_IPv6 req;
     Address := Conn_RemoteAddr_String sshConn;
     Tunnels := make0;
     Connection := sshConn;
     Context := ctx;
     User := user;
     Logger := clog;
     Disconnected := None |}.

(** [func (s *SessionService) StartClientSession(ctx context.Context,
    sid string, sshConn ssh.Conn, req *chshare.ConnectionRequest,
    user *chshare.User, clog *chshare.Logger) (ptr, error)].
    The request and the connection are taken as present (not nil), as the
    transport layer hands them over. *)
Definition StartClientSession (ctx : context_Context) (sid : string)
    (sshConn : ssh_Conn) (req : ConnectionRequest) (user : chshare_User)
    (clog : chshare_Logger) : M (ptr * error) :=
  session ← new_session (ClientSession_literal ctx sid sshConn req user clog);
  '(_, err) ← StartSessionTunnels session (req_Remotes req) TunnelACL_zero;
  match err with
  | Some _ => mret (None, err)
  | None =>
      err ← call_Save session;
      match err with
      | Some _ => mret (None, err)
      | None => mret (session, None)
      end
  end.

(** [func (s *SessionService) Terminate(session *csr.ClientSession) error] *)
Definition Terminate (session : ptr) : M error :=
  keep ← read_KeepLostClients;
  match keep with
  | None => call_Delete session
  | Some _ =>
      now ← (t ← time_Now; mret (Time_UTC t));
      c ← load_session session;
      store_session session (ClientSession_set_Disconnected (Some now) c);;
      call_Save session
  end.

(** ** Observations on a call *)

(** The calls into the other packages that running [m] in [w] adds. *)
Definition calls {A} (m : M A) (w : World) : list Event :=
  drop (length (trace w)) (trace (world_of (m w))).

Definition is_Refresh (ev : Event) : bool :=
  match ev with EvRefresh _ => true | _ => false end.

Definition is_Save (ev : Event) : bool :=
  match ev with EvSave _ _ => true | _ => false end.

(** The calls one turn of the loop can make. *)
Definition is_turn_call (ev : Event) : bool :=
  match ev with
  | EvIsLocalSpecified _ _ _ | EvGetRandomPort _ _ | EvStartTunnel _ _ _ _ _ _ => true
  | _ => false
  end.

(** A [StartTunnel] call that returned an error. *)
Definition is_failed_start (ev : Event) : bool :=
  match ev with EvStartTunnel _ _ _ _ _ (Some _) => true | _ => false end.

(** The remotes [StartTunnel] was invoked for, in call order. *)
Definition attempted (evs : list Event) : list ptr :=
  omap (λ ev, match ev with
              | EvStartTunnel _ remote _ _ _ _ => Some remote
              | _ => None
              end) evs.

(** The tunnels [StartTunnel] returned without error, each with the remote
    it was started for, in call order. *)
Definition started (evs : list Event) : list (ptr * Tunnel) :=
  omap (λ ev, match ev with
              | EvStartTunnel _ remote _ _ t None => Some (remote, t)
              | _ => None
              end) evs.

(** The session object as the [StartTunnel] calls of [evs] on [session]
    leave it, one after the other. *)
Fixpoint replay (session : ptr) (evs : list Event) (c : ClientSession)
  : ClientSession :=
  match evs with
  | [] => c
  | EvStartTunnel p _ r acl _ _ :: evs' =>
      if decide (p = session)
      then replay session evs' (ClientSession_StartTunnel c r acl).2
      else replay session evs' c
  | _ :: evs' => replay session evs' c
  end.

(** The sessions a [Save] call accepted, in call order. *)
Definition saved (evs : list Event) : list ptr :=
  omap (λ ev, match ev with
              | EvSave session None => Some session
              | _ => None
              end) evs.

(** The world as [Refresh] leaves it: the allocator in its new state, the
    call recorded. *)
Definition refreshed (w : World) : World :=
  emit (EvRefresh (PortDistributor_Refresh (portDistributor w)).1)
    (set_portDistributor (PortDistributor_Refresh (portDistributor w)).2 w).

(** The world right after [&csr.ClientSession{...}] put [c] at a fresh
    address. *)
Definition allocated_at (c : ClientSession) (w : World) : loc * World :=
  let l := fresh (dom (sessions w)) in
  (l, set_sessions (<[l:=c]> (sessions w)) w).

(** The remote with the local endpoint the loop assigns for [port]. *)
Definition with_allocated (port : Z) (r : Remote) : Remote :=
  Remote_set_LocalHost "0.0.0.0" (Remote_set_LocalPort (Itoa port) r).

(** ** The steps of a run, case by case *)

(** The outcomes of lines 85 to 92 on one remote. *)
Inductive assign_local_view (remote : ptr) (w : World) : Res error → Prop :=
| al_nil :
    deref (remotes w) remote = None →
    assign_local_view remote w (Panic w)
| al_specified l r :
    remote = Some l → remotes w !! l = Some r →
    Remote_IsLocalSpecified r = true →
    assign_local_view remote w
      (Done None (emit (EvIsLocalSpecified remote r true) w))
| al_exhausted l r port e d :
    remote = Some l → remotes w !! l = Some r →
    Remote_IsLocalSpecified r = false →
    PortDistributor_GetRandomPort (portDistributor w) = ((port, Some e), d) →
    assign_local_view remote w
      (Done (Some e)
         (emit (EvGetRandomPort port (Some e))
            (set_portDistributor d (emit (EvIsLocalSpecified remote r false) w))))
| al_allocated l r port d :
    remote = Some l → remotes w !! l = Some r →
    Remote_IsLocalSpecified r = false →
    PortDistributor_GetRandomPort (portDistributor w) = ((port, None), d) →
    assign_local_view remote w
      (Done None
         (set_remotes (<[l := with_allocated port r]> (remotes w))
            (emit (EvGetRandomPort port None)
               (set_portDistributor d
                  (emit (EvIsLocalSpecified remote r false) w))))).

(** The outcomes of [session.StartTunnel(remote, acl)]. *)
Inductive StartTunnel_view (session remote : ptr) (acl : TunnelACL) (w : World)
  : Res (Tunnel * error) → Prop :=
| st_nil_session :
    deref (sessions w) session = None →
    StartTunnel_view session remote acl w (Panic w)
| st_nil_remote :
    deref (remotes w) remote = None →
    StartTunnel_view session remote acl w (Panic w)
| st_returned l c r t err c' :
    session = Some l → sessions w !! l = Some c →
    deref (remotes w) remote = Some r →
    ClientSession_StartTunnel c r acl = ((t, err), c') →
    StartTunnel_view session remote acl w
      (Done (t, err)
         (emit (EvStartTunnel session remote r acl t err)
            (set_sessions (<[l := c']> (sessions w)) w))).

(** How a turn ends: the tunnel is started and the loop goes on, the
    function returns an error, or a nil pointer is dereferenced. *)
Inductive turn_end :=
| Started (t : Tunnel)
| Returned (e : Err)
| Crashed.

Definition end_of_start (t : Tunnel) (err : error) : turn_end :=
  match err with
  | None => Started t
  | Some e => Returned e
  end.

(** The local endpoint is settled: the calls made, the value of the remote
    from then on, and the world. *)
Inductive Resolved (remote : ptr) (w : World)
  : list Event → Remote → World → Prop :=
| Resolved_verbatim l r :
    remote = Some l → remotes w !! l = Some r →
    Remote_IsLocalSpecified r = true →
    Resolved remote w [EvIsLocalSpecified remote r true] r
      (emit (EvIsLocalSpecified remote r true) w)
| Resolved_allocated l r port d :
    remote = Some l → remotes w !! l = Some r →
    Remote_IsLocalSpecified r = false →
    PortDistributor_GetRandomPort (portDistributor w) = ((port, None), d) →
    Resolved remote w
      [EvIsLocalSpecified remote r false; EvGetRandomPort port None]
      (with_allocated port r)
      (set_remotes (<[l := with_allocated port r]> (remotes w))
         (emit (EvGetRandomPort port None)
            (set_portDistributor d
               (emit (EvIsLocalSpecified remote r false) w)))).

(** One turn of the loop from the world [w]: the calls it makes, how it
    ends, and the world it leaves. *)
Inductive Turn (session : ptr) (acl : TunnelACL) (remote : ptr) (w : World)
  : list Event → turn_end → World → Prop :=
| Turn_nil_remote :
    deref (remotes w) remote = None →
    Turn session acl remote w [] Crashed w
| Turn_exhausted l r port e d :
    remote = Some l → remotes w !! l = Some r →
    Remote_IsLocalSpecified r = false →
    PortDistributor_GetRandomPort (portDistributor w) = ((port, Some e), d) →
    Turn session acl remote w
      [EvIsLocalSpecified remote r false; EvGetRandomPort port (Some e)]
      (Returned e)
      (emit (EvGetRandomPort port (Some e))
         (set_portDistributor d (emit (EvIsLocalSpecified remote r false) w)))
| Turn_nil_session seg r' w1 :
    Resolved remote w seg r' w1 →
    deref (sessions w) session = None →
    Turn session acl remote w seg Crashed w1
| Turn_tunnel seg r' w1 l c t err c' :
    Resolved remote w seg r' w1 →
    session = Some l → sessions w !! l = Some c →
    ClientSession_StartTunnel c r' acl = ((t, err), c') →
    Turn session acl remote w
      (seg ++ [EvStartTunnel session remote r' acl t err])
      (end_of_start t err)
      (emit (EvStartTunnel session remote r' acl t err)
         (set_sessions (<[l := c']> (sessions w)) w1)).

(** The loop as a sequence of turns. *)
Inductive Loop (session : ptr) (acl : TunnelACL)
  : list ptr → slice Tunnel → World → list (list Event) →
    Res (slice Tunnel * error) → Prop :=
| Loop_end ts w :
    Loop session acl [] ts w [] (Done (ts, None) w)
| Loop_next remote rest ts w seg t w1 segs out :
    Turn session acl remote w seg (Started t) w1 →
    Loop session acl rest (append ts t) w1 segs out →
    Loop session acl (remote :: rest) ts w (seg :: segs) out
| Loop_return remote rest ts w seg e w1 :
    Turn session acl remote w seg (Returned e) w1 →
    Loop session acl (remote :: rest) ts w [seg] (Done (None, Some e) w1)
| Loop_crash remote rest ts w seg w1 :
    Turn session acl remote w seg Crashed w1 →
    Loop session acl (remote :: rest) ts w [seg] (Panic w1).

(** ** A run of the loop, by its calls *)

(** The local endpoint the loop assigns for [port] to a remote found as
    [r], field by field: the port, in decimal, as local port, all
    interfaces as local host, and the remote endpoint as it was. *)
Definition assigned (port : Z) (r r' : Remote) : Prop :=
  LocalPort r' = Itoa port ∧
  Z.of_int <$> NilZero.int_of_string (LocalPort r') = Some port ∧
  LocalHost r' = "0.0.0.0"%string ∧
  RemoteHost r' = RemoteHost r ∧ RemotePort r' = RemotePort r.

(** One turn of the loop for the remote [remote], found with the value [r]
    while the allocator is in the state [d]: the calls the turn makes, how
    it ends, and the allocator and the value of the remote object it
    leaves.  Either the local endpoint is specified, the allocator is left
    alone and [StartTunnel] receives [r] as it is; or [GetRandomPort] is
    called on [d] and [StartTunnel] receives the remote with the port it
    returned; or the draw fails and the turn ends there.  A turn is cut
    short before [StartTunnel] when the session pointer is nil. *)
Inductive turn (session : ptr) (acl : TunnelACL) (remote : ptr)
    (d : PortDistributor) (r : Remote)
  : list Event → turn_end → PortDistributor → Remote → Prop :=
| turn_verbatim t err :
    Remote_IsLocalSpecified r = true →
    turn session acl remote d r
      [EvIsLocalSpecified remote r true;
       EvStartTunnel session remote r acl t err]
      (end_of_start t err) d r
| turn_allocated port d' r' t err :
    Remote_IsLocalSpecified r = false →
    PortDistributor_GetRandomPort d = ((port, None), d') →
    assigned port r r' →
    turn session acl remote d r
      [EvIsLocalSpecified remote r false;
       EvGetRandomPort port None;
       EvStartTunnel session remote r' acl t err]
      (end_of_start t err) d' r'
| turn_exhausted port e d' :
    Remote_IsLocalSpecified r = false →
    PortDistributor_GetRandomPort d = ((port, Some e), d') →
    turn session acl remote d r
      [EvIsLocalSpecified remote r false; EvGetRandomPort port (Some e)]
      (Returned e) d' r
| turn_verbatim_cut :
    Remote_IsLocalSpecified r = true →
    turn session acl remote d r
      [EvIsLocalSpecified remote r true] Crashed d r
| turn_allocated_cut port d' r' :
    Remote_IsLocalSpecified r = false →
    PortDistributor_GetRandomPort d = ((port, None), d') →
    assigned port r r' →
    turn session acl remote d r
      [EvIsLocalSpecified remote r false; EvGetRandomPort port None]
      Crashed d' r'.

(** The turns of a batch, in the order of the batch, threaded through the
    allocator and the remote objects: each turn finds the allocator and its
    remote as the turns before left them, and writes its remote back.  The
    loop runs through the batch ([None]) or stops at the first turn that
    does not end with a started tunnel; a remote pointer that points to
    nothing stops it without a call. *)
Inductive turns (session : ptr) (acl : TunnelACL)
  : PortDistributor → gmap loc Remote → list ptr → list (list Event) →
    option turn_end → PortDistributor → gmap loc Remote → Prop :=
| turns_through d h : turns session acl d h [] [] None d h
| turns_next d h l r seg t d1 r1 rest segs stop d' h' :
    h !! l = Some r →
    turn session acl (Some l) d r seg (Started t) d1 r1 →
    turns session acl d1 (<[l := r1]> h) rest segs stop d' h' →
    turns session acl d h (Some l :: rest) (seg :: segs) stop d' h'
| turns_stop d h l r seg e d1 r1 rest :
    h !! l = Some r →
    turn session acl (Some l) d r seg e d1 r1 →
    (∀ t, e ≠ Started t) →
    turns session acl d h (Some l :: rest) [seg] (Some e) d1 (<[l := r1]> h)
| turns_dangling d h remote rest :
    deref h remote = None →
    turns session acl d h (remote :: rest) [[]] (Some Crashed) d h.

(** ** The operations of the service, as steps on the world *)

Inductive Op :=
| OpCount
| OpGetActiveByID (id : string)
| OpGetAll
| OpStartClientSession (ctx : context_Context) (sid : string)
    (sshConn : ssh_Conn) (req : ConnectionRequest) (user : chshare_User)
    (clog : chshare_Logger)
| OpStartSessionTunnels (session : ptr) (remotes : slice ptr) (acl : TunnelACL)
| OpTerminate (session : ptr).

Definition exec (op : Op) (w : World) : World :=
  match op with
  | OpCount => world_of (Count w)
  | OpGetActiveByID id => world_of (GetActiveByID id w)
  | OpGetAll => world_of (GetAll w)
  | OpStartClientSession ctx sid sshConn req user clog =>
      world_of (StartClientSession ctx sid sshConn req user clog w)
  | OpStartSessionTunnels session remotes acl =>
      world_of (StartSessionTunnels session remotes acl w)
  | OpTerminate session => world_of (Terminate session w)
  end.

(** The service over time: the operations of [steps] one after the other,
    each at its own reading of the clock. *)
Definition history (steps : list (Z * Op)) (w : World) : World :=
  foldl (λ w s, exec s.2 (set_wallclock s.1 w)) w steps.

End Types.

(** ** The collaborators as the specification describes them *)

Module SpecModel.

(** Modelled from the spec: the error kinds of its error taxonomy (the
    packages that raise them are outside this development). *)
Inductive ErrKind :=
| PoolExhausted
| ResourceUnavailable
| InvalidTunnelSpec
| DuplicateBinding
| NotFound
| StorageFailure.

(** Modelled from the spec: a tunnel is one forwarding rule, the remote and
    local endpoints with the access-control list attached ([csr.Tunnel] is
    outside this development). *)
Record TunnelRule := mkTunnelRule {
  rule_Remote : Remote;
  rule_ACL : TunnelACL;
}.

(** Modelled from the spec: the port allocator ([ports.PortDistributor] is
    outside this development).  It owns the ports eligible for
    auto-assignment and a working set of ports considered in use; the
    authoritative occupancy source answers with the ports currently bound,
    or cannot be queried; the next draws of the random choice are part of
    the state. *)
Record Allocator := mkAllocator {
  eligible : list Z;
  in_use : list Z;
  occupancy : option (list Z);
  draw : nat;
}.

(** Modelled from the spec: the session repository
    ([csr.ClientSessionRepository] is outside this development), a
    keyed store from session identifier to session, the retention policy
    flag, and whether the persistence backend answers. *)
Record Store := mkStore {
  records : gmap string loc;
  retention : option Z;
  backend_up : bool;
}.

#[global] Instance opaque : Opaque := {|
  Err := ErrKind;
  Tunnel := option TunnelRule;
  ssh_Conn := string;
  context_Context := unit;
  chshare_User := string;
  chshare_Logger := unit;
  PortDistributor := Allocator;
  ClientSessionRepository := Store;
|}.

(** Modelled from the spec: [Refresh] resynchronizes the working set
    against the authoritative source and fails with [ResourceUnavailable]
    when the source cannot be queried. *)
Definition Refresh (a : Allocator) : error * Allocator :=
  match occupancy a with
  | None => (Some ResourceUnavailable, a)
  | Some bound => (None, mkAllocator (eligible a) bound (occupancy a) (draw a))
  end.

Definition free_ports (a : Allocator) : list Z :=
  filter (λ p, p ∉ in_use a) (eligible a).

(** Modelled from the spec: [GetRandomPort] returns an eligible port that
    is not known to be in use, picked by the draw, and marks it in use;
    it fails with [PoolExhausted] when no eligible port is free. *)
Definition GetRandomPort (a : Allocator) : (Z * error) * Allocator :=
  let free := free_ports a in
  match free !! (draw a `mod` length free)%nat with
  | None => ((0, Some PoolExhausted), a)
  | Some p =>
      ((p, None),
       mkAllocator (eligible a) (p :: in_use a) (occupancy a) (S (draw a)))
  end.

(** Modelled from the spec: a remote specifies its local endpoint when it
    names a local port ([IsLocalSpecified] of [chshare.Remote] is outside
    this development). *)
Definition IsLocalSpecified (r : Remote) : bool :=
  negb (String.eqb (LocalPort r) EmptyString).

Definition is_digit (a : Ascii.ascii) : bool :=
  let n := Ascii.nat_of_ascii a in (48 <=? n)%nat && (n <=? 57)%nat.

Fixpoint all_digits (s : string) : bool :=
  match s with
  | EmptyString => true
  | String a s' => is_digit a && all_digits s'
  end.

Definition is_port (s : string) : bool :=
  negb (String.eqb s EmptyString) && all_digits s.

(** Modelled from the spec: the addressing of a forward is well formed when
    both ports are decimal numbers. *)
Definition well_formed (r : Remote) : bool :=
  is_port (LocalPort r) && is_port (RemotePort r).

Definition same_local (r : Remote) (t : option TunnelRule) : bool :=
  match t with
  | Some rule =>
      String.eqb (LocalHost (rule_Remote rule)) (LocalHost r)
      && String.eqb (LocalPort (rule_Remote rule)) (LocalPort r)
  | None => false
  end.

(** Modelled from the spec: [StartTunnel] validates the addressing
    ([InvalidTunnelSpec]), rejects a local endpoint that another tunnel of
    the same session uses ([DuplicateBinding]), constructs the tunnel,
    appends it to the session's tunnel collection and returns it. *)
Definition StartTunnel (c : ClientSession) (r : Remote) (acl : TunnelACL)
  : (Tunnel * error) * ClientSession :=
  if negb (well_formed r) then ((None, Some InvalidTunnelSpec), c)
  else if existsb (same_local r) (elems (Tunnels c))
  then ((None, Some DuplicateBinding), c)
  else
    let t := Some (mkTunnelRule r acl) in
    ((t, None),
     mkClientSession (ID c) (Name c) (Tags c) (OS c) (Hostname c) (Version c)
       (IPv4 c) (IPv6 c) (Address c) (append (Tunnels c) t) (Connection c)
       (Context c) (User c) (Logger c) (Disconnected c)).

(** Modelled from the spec: [Count] and [GetAll] range over all stored
    records regardless of connection state. *)
Definition Count (h : gmap loc ClientSession) (s : Store)
  : (Z * error) * Store :=
  ((Z.of_nat (size (records s)), None), s).

Definition GetAll (h : gmap loc ClientSession) (s : Store)
  : (slice ptr * error) * Store :=
  ((Some ((λ kv, Some kv.2) <$> map_to_list (records s)), None), s).

(** Modelled from the spec: [GetActiveByID] fails with [NotFound] when the
    record is absent or carries a disconnection timestamp. *)
Definition GetActiveByID (id : string) (h : gmap loc ClientSession) (s : Store)
  : (ptr * error) * Store :=
  match records s !! id with
  | Some l =>
      match h !! l with
      | Some c =>
          match Disconnected c with
          | None => ((Some l, None), s)
          | Some _ => ((None, Some NotFound), s)
          end
      | None => ((None, Some NotFound), s)
      end
  | None => ((None, Some NotFound), s)
  end.

(** Modelled from the spec: [Save] is an upsert keyed by the session
    identifier; a storage error of the backend is passed on and leaves the
    records as they were. *)
Definition Save (p : ptr) (h : gmap loc ClientSession) (s : Store)
  : error * Store :=
  match p with
  | Some l =>
      match h !! l with
      | Some c =>
          if backend_up s
          then (None, mkStore (<[ID c := l]> (records s)) (retention s) (backend_up s))
          else (Some StorageFailure, s)
      | None => (Some StorageFailure, s)
      end
  | None => (Some StorageFailure, s)
  end.

(** Modelled from the spec: [Delete] removes the record. *)
Definition Delete (p : ptr) (h : gmap loc ClientSession) (s : Store)
  : error * Store :=
  match p with
  | Some l =>
      match h !! l with
      | Some c =>
          if backend_up s
          then (None, mkStore (delete (ID c) (records s)) (retention s) (backend_up s))
          else (Some StorageFailure, s)
      | None => (Some StorageFailure, s)
      end
  | None => (Some StorageFailure, s)
  end.

#[global] Instance packages : Packages := {|
  PortDistributor_Refresh := Refresh;
  PortDistributor_GetRandomPort := GetRandomPort;
  Remote_IsLocalSpecified := IsLocalSpecified;
  ClientSession_StartTunnel := StartTunnel;
  KeepLostClients := retention;
  Repository_Count := Count;
  Repository_GetActiveByID := GetActiveByID;
  Repository_GetAll := GetAll;
  Repository_Save := Save;
  Repository_Delete := Delete;
  Conn_RemoteAddr_String := λ addr, addr;
|}.

(** *** Concrete worlds *)

Definition remote_explicit : Remote := mkRemote "127.0.0.1" "8080" "10.0.0.5" "22".
Definition remote_auto : Remote := mkRemote EmptyString EmptyString "10.0.0.5" "3389".
Definition remote_auto2 : Remote := mkRemote EmptyString EmptyString "10.0.0.6" "80".
Definition remote_malformed : Remote := mkRemote "127.0.0.1" "http" "10.0.0.5" "80".

Definition allocator0 : Allocator :=
  mkAllocator [20000; 20001; 20002; 20003] [] (Some [20001]) 0.

Definition store0 (keep : option Z) : Store := mkStore ∅ keep true.

Definition request0 (rs : list ptr) : ConnectionRequest :=
  mkConnectionRequest "edge-7" (Some ["lab"]) "linux" "edge7.local" "0.1.28"
    (Some ["192.0.2.7"]) None (Some rs).

Definition session0 : ClientSession :=
  ClientSession_literal () "sid-0" "198.51.100.9:40022" (request0 []) "op" ().

(** Four remotes at addresses 1 to 4 (the malformed one at 4), one
    session at address 1, an empty repository. *)
Definition world0 (keep : option Z) : World :=
  mkWorld allocator0 (store0 keep)
    {[ 1%positive := session0 ]}
    {[ 1%positive := remote_auto; 2%positive := remote_explicit;
       3%positive := remote_auto2; 4%positive := remote_malformed ]}
    1700000000 [].

(** The same world before any client connected. *)
Definition world_unconnected (keep : option Z) : World :=
  mkWorld allocator0 (store0 keep) ∅ (remotes (world0 keep)) 1700000000 [].

(** A batch with one explicit local endpoint between two to allocate, and a
    batch whose second remote is malformed. *)
Definition batch_mixed : slice ptr := Some [Some 1; Some 2; Some 3]%positive.
Definition batch_failing : slice ptr := Some [Some 2; Some 4; Some 3]%positive.

(** The [StartTunnel] call that fails in [batch_failing]. *)
Definition failing_call : Event :=
  EvStartTunnel (Some 1%positive) (Some 4%positive) remote_malformed
    TunnelACL_zero None (Some InvalidTunnelSpec).

(** A client that connects with two forwards, and one that connects with
    the malformed forward. *)
Definition connect (rs : list ptr) : M (ptr * error) :=
  StartClientSession () "sid-1" "198.51.100.9:40022" (request0 rs) "op" ().

(** The repository with its persistence backend down. *)
Definition world_backend_down : World :=
  mkWorld allocator0 (mkStore ∅ None false) ∅ (remotes (world0 None))
    1700000000 [].

End SpecModel.

(** * The login handlers of the API (server/api_handler_login.go)

    The handlers of [APIListener] for the built-in login and for the
    authorization settings.  A handler reads the configuration and the
    request, calls into the listener's collaborators (the lists of banned
    users and addresses, the credential check, the 2FA service, the token
    issuer) and writes its answer with one of the listener's response
    writers.  The collaborators and the writers lie outside this
    development: they are the fields of the classes [Foreign] and
    [Listener], and every call to one of them is recorded. *)

Module Login.

(** ** Go values *)

(** [int64] arithmetic wraps around. *)
Definition wrap64 (z : Z) : Z := (z + 2 ^ 63) `mod` 2 ^ 64 - 2 ^ 63.

(** [time.Second], a [time.Duration], counts nanoseconds. *)
Definition time_Second : Z := 1000000000.

(** The status codes of [net/http] the handlers use. *)
Definition StatusOK : Z := 200.
Definition StatusBadRequest : Z := 400.
Definition StatusUnauthorized : Z := 401.
Definition StatusForbidden : Z := 403.
Definition StatusTooManyRequests : Z := 429.
Definition StatusInternalServerError : Z := 500.

(** *** [strconv.ParseInt(s, 10, 0)] on a platform whose [int] has 64 bits *)

Inductive NumErr := ErrSyntax | ErrRange.

Definition digit_of (c : Ascii.ascii) : option Z :=
  let n := Z.of_nat (Ascii.nat_of_ascii c) in
  if (48 <=? n) && (n <=? 57) then Some (n - 48) else None.

(** The loop of [strconv.ParseUint] in base 10 with 64 bits: it stops
    with a range error as soon as the number no longer fits, before it
    looks at the characters that follow. *)
Fixpoint parse_digits (s : string) (n : Z) : Z + NumErr :=
  match s with
  | EmptyString => inl n
  | String c s' =>
      match digit_of c with
      | None => inr ErrSyntax
      | Some d =>
          if 1844674407370955162 <=? n then inr ErrRange
          else if 2 ^ 64 - 1 <? n * 10 + d then inr ErrRange
          else parse_digits s' (n * 10 + d)
      end
  end.

Definition ParseUint (s : string) : Z + NumErr :=
  match s with
  | EmptyString => inr ErrSyntax
  | _ => parse_digits s 0
  end.

(** [strconv.ParseInt]: an optional sign (the bytes 43 and 45), then
    [ParseUint], then the range of [int64]. *)
Definition ParseInt (s : string) : Z + NumErr :=
  match s with
  | EmptyString => inr ErrSyntax
  | String c s' =>
      let plus := Nat.eqb (Ascii.nat_of_ascii c) 43 in
      let neg := Nat.eqb (Ascii.nat_of_ascii c) 45 in
      match ParseUint (if plus || neg then s' else s) with
      | inr e => inr e
      | inl un =>
          if negb neg && (2 ^ 63 <=? un) then inr ErrRange
          else if neg && (2 ^ 63 <? un) then inr ErrRange
          else inl (if neg then - un else un)
      end
  end.

(** ** Types of the other packages *)

Class Foreign := {
  (** the errors the other packages make *)
  ForeignError : Type;
  (** [*http.Request] *)
  Request : Type;
  (** [*users.User] *)
  users_User : Type;
  (** [*TotP], not nil *)
  TotP : Type;
  (** an element of a scope list *)
  Scope : Type;
  (** [*oauth.LoginInfo] and [*oauth.DeviceLoginInfo] *)
  oauth_LoginInfo : Type;
  oauth_DeviceLoginInfo : Type;
  (** the OAuth capability of the plus manager, not nil *)
  OAuthCapabilityEx : Type;
  (** the state behind the listener: ban lists, users, 2FA service, tokens *)
  Srv : Type;
}.

Section Types.
Context `{Foreign}.

#[local] Set Warnings "-register-all".

(** The errors the handlers make or pass on.  An error made by
    [fmt.Errorf] keeps its format and its argument apart. *)
Inductive GoError :=
| errors_New (text : string)
| fmt_Errorf_error (format : string) (arg : GoError)
| fmt_Errorf_int (format : string) (arg : Z)
| strconv_NumError (Func Num : string) (Err : NumErr)
| errors2_APIError (Err : option GoError) (Message : string) (HTTPStatus : Z)
| foreign (e : ForeignError).

(** A Go [error]: [None] is nil. *)
Definition error := option GoError.

Record twoFAResponse := mkTwoFAResponse {
  SendTo : string;
  DeliveryMethod : string;
  TotPKeyStatus : string;
}.

Record loginResponse := mkLoginResponse {
  Token : option string;
  TwoFA : option twoFAResponse;
}.

Record AuthProviderInfo := mkAuthProviderInfo {
  AuthProvider : string;
  SettingsURI : string;
  DeviceSettingsURI : string;
}.

Record AuthSettings := mkAuthSettings {
  AuthSettings_AuthProvider : string;
  AuthSettings_LoginInfo : oauth_LoginInfo;
}.

Record DeviceAuthSettings := mkDeviceAuthSettings {
  DeviceAuthSettings_AuthProvider : string;
  DeviceAuthSettings_LoginInfo : oauth_DeviceLoginInfo;
}.

(** [api.NewSuccessPayload(x)] for the values the handlers wrap. *)
Inductive Payload :=
| PayloadLogin (r : loginResponse)
| PayloadProvider (i : AuthProviderInfo)
| PayloadSettings (a : AuthSettings)
| PayloadDeviceSettings (a : DeviceAuthSettings).

(** One entry per call of a handler into the listener's collaborators and
    response writers: the arguments and what came back. *)
Inductive Call :=
| CallIsBanned (username : string) (banned : bool)
| CallBannedUsersAdd (username : string)
| CallValidateCredentials (username pwd : string) (skip : bool)
    (authorized : bool) (user : users_User) (err : error)
| CallHandleBannedIPs (req : Request) (authorized : bool) (ok : bool)
| CallSendToken (req : Request) (username userAgent remoteIP : string)
    (sendTo : string) (err : error)
| CallCreateAuthToken (req : Request) (lifetime : Z) (username : string)
    (scopes : list Scope) (token : string) (err : error)
| CallDeliveryMethod (method : string)
| CallSetTotPLoginSession (username : string) (timeout : Z)
| CallLogf (format : string) (err : GoError)
| CallGetOAuthCapabilityEx (capEx : option OAuthCapabilityEx)
| CallGetLoginInfo (info : oauth_LoginInfo) (err : error)
| CallGetLoginInfoForDevice (req : Request) (info : oauth_DeviceLoginInfo)
    (err : error)
| RespErrorWithTitle (status : Z) (title : string)
| RespError (err : GoError)
| RespErrorResponse (status : Z) (err : GoError)
| RespJSON (status : Z) (payload : Payload).

(** The configuration, the package-level values and the methods the
    handlers use.  The configuration does not change while a request is
    handled.  A method of a collaborator is a function of the state behind
    the listener. *)
Class Listener := {
  (** [al.config.PlusOAuthEnabled()] *)
  PlusOAuthEnabled : bool;
  (** [al.config.API.AuthHeader] and [al.config.API.UserHeader] *)
  API_AuthHeader : string;
  API_UserHeader : string;
  (** [al.config.API.IsTwoFAOn()] and [al.config.API.TotPEnabled] *)
  API_IsTwoFAOn : bool;
  API_TotPEnabled : bool;
  (** [al.config.API.TotPLoginSessionTimeout] *)
  API_TotPLoginSessionTimeout : Z;
  (** [al.config.OAuthConfig.Provider] *)
  OAuthConfig_Provider : string;
  (** the constants [maxTokenLifetime] and [defaultTokenLifetime] *)
  maxTokenLifetime : Z;
  defaultTokenLifetime : Z;
  (** the scope lists *)
  Scopes2FaCheckOnly : list Scope;
  ScopesTotPCreateOnly : list Scope;
  ScopesAllExcluding2FaCheck : list Scope;
  (** [TotPKeyPending.String()] and [TotPKeyExists.String()] *)
  TotPKeyPending_String : string;
  TotPKeyExists_String : string;
  (** [ErrTooManyRequests.Error()] *)
  ErrTooManyRequests_Error : string;
  (** the route constants *)
  allRoutesPrefix : string;
  authRoutesPrefix : string;
  authSettingsRoute : string;
  authDeviceSettingsRoute : string;
  (** [rportplus.ErrPlusNotAvailable] and
      [rportplus.ErrCapabilityNotAvailable(rportplus.PlusOAuthCapability)] *)
  ErrPlusNotAvailable : GoError;
  ErrCapabilityNotAvailable_OAuth : GoError;
  (** [req.Header.Get(key)] *)
  Header_Get : Request → string → string;
  (** [req.BasicAuth()] *)
  BasicAuth : Request → string * string * bool;
  (** [req.URL.Query().Get(key)] *)
  Query_Get : Request → string → string;
  (** [req.UserAgent()] and [chshare.RemoteIP(req)] *)
  UserAgent : Request → string;
  RemoteIP : Request → string;
  (** [req.ParseForm()], and [req.PostForm.Get(key)] after it *)
  ParseForm : Request → error;
  PostForm_Get : Request → string → string;
  (** [parseRequestBody(req.Body, &params)], with the fields [Username]
      and [Password] of [params] afterwards *)
  parseRequestBody : Request → (string * string) * error;
  (** [al.bannedUsers.IsBanned(username)] and [al.bannedUsers.Add(username)] *)
  bannedUsers_IsBanned : string → Srv → bool * Srv;
  bannedUsers_Add : string → Srv → Srv;
  (** [al.validateCredentials(username, pwd, skipPasswordValidation)] *)
  validateCredentials :
    string → string → bool → Srv → (bool * users_User * error) * Srv;
  (** [al.handleBannedIPs(req, authorized)] *)
  handleBannedIPs : Request → bool → Srv → bool * Srv;
  (** [al.twoFASrv.SendToken(ctx, username, userAgent, remoteIP)] *)
  twoFASrv_SendToken :
    Request → string → string → string → Srv → (string * error) * Srv;
  (** [al.createAuthToken(ctx, lifetime, username, scopes)] *)
  createAuthToken :
    Request → Z → string → list Scope → Srv → (string * error) * Srv;
  (** [al.twoFASrv.MsgSrv.DeliveryMethod()] *)
  MsgSrv_DeliveryMethod : Srv → string * Srv;
  (** [al.twoFASrv.SetTotPLoginSession(username, timeout)] *)
  twoFASrv_SetTotPLoginSession : string → Z → Srv → Srv;
  (** [GetUsersTotPCode(user)] *)
  GetUsersTotPCode : users_User → option TotP * error;
  (** [al.Server.plusManager.GetOAuthCapabilityEx()] *)
  GetOAuthCapabilityEx : Srv → option OAuthCapabilityEx * Srv;
  (** [capEx.GetLoginInfo()] and [capEx.GetLoginInfoForDevice(req)] *)
  GetLoginInfo : OAuthCapabilityEx → Srv → (oauth_LoginInfo * error) * Srv;
  GetLoginInfoForDevice :
    OAuthCapabilityEx → Request → Srv → (oauth_DeviceLoginInfo * error) * Srv;
}.

Context `{Listener}.

(** ** Running a handler *)

Record St := mkSt {
  (** the state behind the listener *)
  srv : Srv;
  (** the calls made so far, oldest first *)
  made : list Call;
}.

Definition Handler (A : Type) : Type := St → A * St.

Global Instance Handler_ret : MRet Handler := λ A a st, (a, st).

Global Instance Handler_bind : MBind Handler := λ A B f m st,
  let '(a, st') := m st in f a st'.

Definition record (c : Call) : Handler unit := λ st,
  ((), mkSt (srv st) (made st ++ [c])).

(** A method that answers and may change the state, and one that only
    changes the state. *)
Definition ask {A} (f : Srv → A * Srv) : Handler A := λ st,
  let '(a, s) := f (srv st) in (a, mkSt s (made st)).

Definition tell (f : Srv → Srv) : Handler unit := λ st,
  ((), mkSt (f (srv st)) (made st)).

Definition call_IsBanned (username : string) : Handler bool :=
  banned ← ask (bannedUsers_IsBanned username);
  record (CallIsBanned username banned);;
  mret banned.

Definition call_bannedUsers_Add (username : string) : Handler unit :=
  tell (bannedUsers_Add username);;
  record (CallBannedUsersAdd username).

Definition call_validateCredentials (username pwd : string) (skip : bool)
  : Handler (bool * users_User * error) :=
  '(authorized, user, err) ← ask (validateCredentials username pwd skip);
  record (CallValidateCredentials username pwd skip authorized user err);;
  mret (authorized, user, err).

Definition call_handleBannedIPs (req : Request) (authorized : bool) : Handler bool :=
  ok ← ask (handleBannedIPs req authorized);
  record (CallHandleBannedIPs req authorized ok);;
  mret ok.

Definition call_SendToken (req : Request) (username userAgent remoteIP : string)
  : Handler (string * error) :=
  '(sendTo, err) ← ask (twoFASrv_SendToken req username userAgent remoteIP);
  record (CallSendToken req username userAgent remoteIP sendTo err);;
  mret (sendTo, err).

Definition call_createAuthToken (req : Request) (lifetime : Z)
    (username : string) (scopes : list Scope) : Handler (string * error) :=
  '(token, err) ← ask (createAuthToken req lifetime username scopes);
  record (CallCreateAuthToken req lifetime username scopes token err);;
  mret (token, err).

Definition call_DeliveryMethod : Handler string :=
  method ← ask MsgSrv_DeliveryMethod;
  record (CallDeliveryMethod method);;
  mret method.

Definition call_SetTotPLoginSession (username : string) (timeout : Z) : Handler unit :=
  tell (twoFASrv_SetTotPLoginSession username timeout);;
  record (CallSetTotPLoginSession username timeout).

Definition call_GetOAuthCapabilityEx : Handler (option OAuthCapabilityEx) :=
  capEx ← ask GetOAuthCapabilityEx;
  record (CallGetOAuthCapabilityEx capEx);;
  mret capEx.

Definition call_GetLoginInfo (capEx : OAuthCapabilityEx)
  : Handler (oauth_LoginInfo * error) :=
  '(info, err) ← ask (GetLoginInfo capEx);
  record (CallGetLoginInfo info err);;
  mret (info, err).

Definition call_GetLoginInfoForDevice (capEx : OAuthCapabilityEx)
    (req : Request) : Handler (oauth_DeviceLoginInfo * error) :=
  '(info, err) ← ask (GetLoginInfoForDevice capEx req);
  record (CallGetLoginInfoForDevice req info err);;
  mret (info, err).

(** The response writers of the listener. *)
Definition jsonErrorResponseWithTitle (status : Z) (title : string) : Handler unit :=
  record (RespErrorWithTitle status title).

Definition jsonError (err : GoError) : Handler unit := record (RespError err).

Definition jsonErrorResponse (status : Z) (err : GoError) : Handler unit :=
  record (RespErrorResponse status err).

Definition writeJSONResponse (status : Z) (payload : Payload) : Handler unit :=
  record (RespJSON status payload).

(** ** The functions of the file *)

(** [func parseTokenLifetime(req *http.Request) (time.Duration, error)] *)
Definition parseTokenLifetime (req : Request) : Z * error :=
  let lifetimeStr := Query_Get req "token-lifetime" in
  let lifetimeStr :=
    if String.eqb lifetimeStr EmptyString then "0"%string else lifetimeStr in
  match ParseInt lifetimeStr with
  | inr e =>
      (0, Some (fmt_Errorf_error "invalid token-lifetime : %s"
                  (strconv_NumError "ParseInt" lifetimeStr e)))
  | inl lifetime =>
      let result := wrap64 (lifetime * time_Second) in
      if maxTokenLifetime <? result then
        (0, Some (fmt_Errorf_int
                    "requested token lifetime exceeds max allowed %d"
                    (maxTokenLifetime `quot` time_Second)))
      else
        let result := if result <=? 0 then defaultTokenLifetime else result in
        (result, None)
  end.

(** [func parseLoginPostRequestBody(req *http.Request) (string, string, error)] *)
Definition parseLoginPostRequestBody (req : Request)
  : string * string * error :=
  let reqContentType := Header_Get req "Content-Type" in
  if String.eqb reqContentType "application/x-www-form-urlencoded" then
    match ParseForm req with
    | Some err =>
        (EmptyString, EmptyString,
         Some (errors2_APIError
                 (Some (fmt_Errorf_error "failed to parse form: %v" err))
                 EmptyString StatusBadRequest))
    | None => (PostForm_Get req "username", PostForm_Get req "password", None)
    end
  else if String.eqb reqContentType "application/json" then
    match parseRequestBody req with
    | (_, Some err) => (EmptyString, EmptyString, Some err)
    | ((username, password), None) => (username, password, None)
    end
  else
    (EmptyString, EmptyString,
     Some (errors2_APIError None
             ("unsupported content type: " ++ reqContentType)
             StatusBadRequest)).

(** The answer with a token, with or without the second-factor part. *)
Definition respond_token (tokenStr : string) (twoFA : option twoFAResponse)
  : Handler unit :=
  writeJSONResponse StatusOK (PayloadLogin (mkLoginResponse (Some tokenStr) twoFA)).

(** [func (al *APIListener) handleLogin(username, pwd string,
    skipPasswordValidation bool, w http.ResponseWriter, req *http.Request)] *)
Definition handleLogin (username pwd : string) (skipPasswordValidation : bool)
    (req : Request) : Handler unit :=
  banned ← call_IsBanned username;
  if (banned : bool) then
    jsonErrorResponseWithTitle StatusTooManyRequests ErrTooManyRequests_Error
  else if String.eqb username EmptyString then
    jsonErrorResponseWithTitle StatusUnauthorized "username is required"
  else
    '(authorized, user, err) ←
      call_validateCredentials username pwd skipPasswordValidation;
    match err with
    | Some err => jsonError err
    | None =>
        ok ← call_handleBannedIPs req authorized;
        if negb ok then mret ()
        else if negb authorized then
          call_bannedUsers_Add username;;
          jsonErrorResponseWithTitle StatusUnauthorized "unauthorized"
        else
          match parseTokenLifetime req with
          | (_, Some err) => jsonErrorResponse StatusBadRequest err
          | (lifetime, None) =>
              if API_IsTwoFAOn then
                '(sendTo, err) ←
                  call_SendToken req username (UserAgent req) (RemoteIP req);
                match err with
                | Some err => jsonError err
                | None =>
                    '(tokenStr, err) ←
                      call_createAuthToken req lifetime username
                        Scopes2FaCheckOnly;
                    match err with
                    | Some err =>
                        jsonErrorResponse StatusInternalServerError err
                    | None =>
                        method ← call_DeliveryMethod;
                        respond_token tokenStr
                          (Some (mkTwoFAResponse sendTo method EmptyString))
                    end
                end
              else if API_TotPEnabled then
                call_SetTotPLoginSession username API_TotPLoginSessionTimeout;;
                match GetUsersTotPCode user with
                | (_, Some err) =>
                    record (CallLogf "failed to get TotP secret: %v" err);;
                    jsonErrorResponse StatusInternalServerError err
                | (totP, None) =>
                    let scopes :=
                      match totP with
                      | None => Scopes2FaCheckOnly ++ ScopesTotPCreateOnly
                      | Some _ => Scopes2FaCheckOnly
                      end in
                    let status :=
                      match totP with
                      | None => TotPKeyPending_String
                      | Some _ => TotPKeyExists_String
                      end in
                    '(tokenStr, err) ←
                      call_createAuthToken req lifetime username scopes;
                    match err with
                    | Some err =>
                        jsonErrorResponse StatusInternalServerError err
                    | None =>
                        respond_token tokenStr
                          (Some (mkTwoFAResponse EmptyString
                                   "totp_authenticator_app" status))
                    end
                end
              else
                '(tokenStr, err) ←
                  call_createAuthToken req lifetime username
                    ScopesAllExcluding2FaCheck;
                match err with
                | Some err => jsonErrorResponse StatusInternalServerError err
                | None => respond_token tokenStr None
                end
          end
    end.

(** The error both login handlers answer with when OAuth is in charge. *)
Definition builtin_disabled : GoError :=
  errors_New
    "built-in authorization disabled. please authorize via your configured authorization".

(** [func (al *APIListener) handleGetLogin(w http.ResponseWriter, req *http.Request)] *)
Definition handleGetLogin (req : Request) : Handler unit :=
  if PlusOAuthEnabled then jsonErrorResponse StatusForbidden builtin_disabled
  else if negb (String.eqb API_AuthHeader EmptyString)
          && negb (String.eqb (Header_Get req API_AuthHeader) EmptyString)
  then handleLogin (Header_Get req API_UserHeader) EmptyString true req
  else
    let '(basicUser, basicPwd, basicAuthProvided) := BasicAuth req in
    if basicAuthProvided then handleLogin basicUser basicPwd false req
    else
      ok ← call_handleBannedIPs req false;
      if negb ok then mret ()
      else jsonErrorResponseWithTitle StatusUnauthorized "auth is required".

(** [func (al *APIListener) sendJWTToken(username string,
    w http.ResponseWriter, req *http.Request)] *)
Definition sendJWTToken (username : string) (req : Request) : Handler unit :=
  match parseTokenLifetime req with
  | (_, Some err) => jsonErrorResponse StatusBadRequest err
  | (lifetime, None) =>
      '(tokenStr, err) ←
        call_createAuthToken req lifetime username ScopesAllExcluding2FaCheck;
      match err with
      | Some err => jsonErrorResponse StatusInternalServerError err
      | None => respond_token tokenStr None
      end
  end.

(** [func (al *APIListener) handlePostLogin(w http.ResponseWriter, req *http.Request)] *)
Definition handlePostLogin (req : Request) : Handler unit :=
  if PlusOAuthEnabled then jsonErrorResponse StatusForbidden builtin_disabled
  else
    match parseLoginPostRequestBody req with
    | (_, _, Some err) =>
        ok ← call_handleBannedIPs req false;
        if negb ok then mret () else jsonError err
    | (username, pwd, None) => handleLogin username pwd false req
    end.

(** [const BuiltInAuthProviderName] *)
Definition BuiltInAuthProviderName : string := "built-in".

(** [func (al *APIListener) handleGetAuthProvider(w http.ResponseWriter, req *http.Request)] *)
Definition handleGetAuthProvider (req : Request) : Handler unit :=
  let response :=
    if PlusOAuthEnabled then
      PayloadProvider
        (mkAuthProviderInfo OAuthConfig_Provider
           (allRoutesPrefix ++ authRoutesPrefix ++ authSettingsRoute)
           (allRoutesPrefix ++ authRoutesPrefix ++ authDeviceSettingsRoute))
    else
      PayloadProvider
        (mkAuthProviderInfo BuiltInAuthProviderName EmptyString EmptyString) in
  writeJSONResponse StatusOK response.

(** [func (al *APIListener) handleGetAuthSettings(w http.ResponseWriter, req *http.Request)] *)
Definition handleGetAuthSettings (req : Request) : Handler unit :=
  if negb PlusOAuthEnabled
  then jsonErrorResponse StatusForbidden ErrPlusNotAvailable
  else
    capEx ← call_GetOAuthCapabilityEx;
    match capEx with
    | None => jsonErrorResponse StatusForbidden ErrCapabilityNotAvailable_OAuth
    | Some capEx =>
        '(loginInfo, err) ← call_GetLoginInfo capEx;
        match err with
        | Some err => jsonErrorResponse StatusInternalServerError err
        | None =>
            writeJSONResponse StatusOK
              (PayloadSettings (mkAuthSettings OAuthConfig_Provider loginInfo))
        end
    end.

(** [func (al *APIListener) handleGetAuthDeviceSettings(w http.ResponseWriter, req *http.Request)] *)
Definition handleGetAuthDeviceSettings (req : Request) : Handler unit :=
  if negb PlusOAuthEnabled
  then jsonErrorResponse StatusForbidden ErrPlusNotAvailable
  else
    capEx ← call_GetOAuthCapabilityEx;
    match capEx with
    | None => jsonErrorResponse StatusForbidden ErrCapabilityNotAvailable_OAuth
    | Some capEx =>
        '(loginInfo, err) ← call_GetLoginInfoForDevice capEx req;
        match err with
        | Some err => jsonErrorResponse StatusInternalServerError err
        | None =>
            writeJSONResponse StatusOK
              (PayloadDeviceSettings
                 (mkDeviceAuthSettings OAuthConfig_Provider loginInfo))
        end
    end.

(** ** Observations on a run *)

(** Running a handler on the state [s], with nothing recorded yet. *)
Definition run {A} (h : Handler A) (s : Srv) : A * St := h (mkSt s []).

(** The calls of the run, and the state it leaves. *)
Definition calls {A} (h : Handler A) (s : Srv) : list Call := made (run h s).2.

Definition after {A} (h : Handler A) (s : Srv) : Srv := srv (run h s).2.

Definition is_response (c : Call) : bool :=
  match c with
  | RespErrorWithTitle _ _ | RespError _ | RespErrorResponse _ _
  | RespJSON _ _ => true
  | _ => false
  end.

(** The answers the handler wrote itself, oldest first. *)
Definition responses (cs : list Call) : list Call := filter is_response cs.

Definition is_token_call (c : Call) : bool :=
  match c with CallCreateAuthToken _ _ _ _ _ _ => true | _ => false end.

Definition is_validation (c : Call) : bool :=
  match c with CallValidateCredentials _ _ _ _ _ _ => true | _ => false end.

(** [handleBannedIPs] refused the request. *)
Definition is_refusal (c : Call) : bool :=
  match c with CallHandleBannedIPs _ _ false => true | _ => false end.

(** The functions of the file that answer a request. *)
Inductive Entry :=
| EntryGetLogin
| EntryPostLogin
| EntryLogin (username pwd : string) (skipPasswordValidation : bool)
| EntryJWT (username : string)
| EntryGetAuthProvider
| EntryGetAuthSettings
| EntryGetAuthDeviceSettings.

Definition serve (e : Entry) (req : Request) : Handler unit :=
  match e with
  | EntryGetLogin => handleGetLogin req
  | EntryPostLogin => handlePostLogin req
  | EntryLogin username pwd skip => handleLogin username pwd skip req
  | EntryJWT username => sendJWTToken username req
  | EntryGetAuthProvider => handleGetAuthProvider req
  | EntryGetAuthSettings => handleGetAuthSettings req
  | EntryGetAuthDeviceSettings => handleGetAuthDeviceSettings req
  end.

(** The entries that lead to [handleLogin]. *)
Definition is_login_entry (e : Entry) : bool :=
  match e with
  | EntryGetLogin | EntryPostLogin | EntryLogin _ _ _ => true
  | _ => false
  end.

(** The scopes [handleLogin] asks a token for, by configuration and by
    whether the user has a TotP secret. *)
Definition login_scopes (totP : option TotP) : list Scope :=
  if API_IsTwoFAOn then Scopes2FaCheckOnly
  else if API_TotPEnabled then
    match totP with
    | None => Scopes2FaCheckOnly ++ ScopesTotPCreateOnly
    | Some _ => Scopes2FaCheckOnly
    end
  else ScopesAllExcluding2FaCheck.

End Types.

(** The number a decimal numeral stands for, read digit by digit after
    [acc]. *)
Fixpoint uint_val (d : Decimal.uint) (acc : Z) : Z :=
  match d with
  | Decimal.Nil => acc
  | Decimal.D0 d => uint_val d (acc * 10)
  | Decimal.D1 d => uint_val d (acc * 10 + 1)
  | Decimal.D2 d => uint_val d (acc * 10 + 2)
  | Decimal.D3 d => uint_val d (acc * 10 + 3)
  | Decimal.D4 d => uint_val d (acc * 10 + 4)
  | Decimal.D5 d => uint_val d (acc * 10 + 5)
  | Decimal.D6 d => uint_val d (acc * 10 + 6)
  | Decimal.D7 d => uint_val d (acc * 10 + 7)
  | Decimal.D8 d => uint_val d (acc * 10 + 8)
  | Decimal.D9 d => uint_val d (acc * 10 + 9)
  end.

(** *** A sample listener

    Values for the parameters, to run the handlers on: a listener with one
    banned user, one password, no banned address, a 2FA service that
    always delivers and a token issuer that always issues. *)
Module Sample.

Record Req := mkReq {
  header : string → string;
  basic : string * string * bool;
  token_lifetime : string;
  form : (string → string);
  body : (string * string);
}.

#[global] Instance sample_types : Foreign := {|
  ForeignError := string;
  Request := Req;
  users_User := string;
  TotP := string;
  Scope := string;
  oauth_LoginInfo := string;
  oauth_DeviceLoginInfo := string;
  OAuthCapabilityEx := unit;
  Srv := list string;
|}.

(** The state is the list of user names with a failed login. *)
Definition listener (oauth twofa totp : bool) : Listener := {|
  PlusOAuthEnabled := oauth;
  API_AuthHeader := "Authentication-IsAuthenticated";
  API_UserHeader := "Authentication-User";
  API_IsTwoFAOn := twofa;
  API_TotPEnabled := totp;
  API_TotPLoginSessionTimeout := 600 * time_Second;
  OAuthConfig_Provider := "github";
  maxTokenLifetime := 7776000 * time_Second;
  defaultTokenLifetime := 600 * time_Second;
  Scopes2FaCheckOnly := ["2fa-check"];
  ScopesTotPCreateOnly := ["totp-create"];
  ScopesAllExcluding2FaCheck := ["all"];
  TotPKeyPending_String := "pending";
  TotPKeyExists_String := "exists";
  ErrTooManyRequests_Error := "too many requests, please try later";
  allRoutesPrefix := "/api/v1";
  authRoutesPrefix := "/auth";
  authSettingsRoute := "/ext/settings";
  authDeviceSettingsRoute := "/ext/settings/device";
  ErrPlusNotAvailable := foreign "plus not available";
  ErrCapabilityNotAvailable_OAuth := foreign "capability not available";
  Header_Get := λ (req : Req) key, header req key;
  BasicAuth := λ (req : Req), basic req;
  Query_Get := λ (req : Req) key,
    if String.eqb key "token-lifetime" then token_lifetime req
    else EmptyString;
  UserAgent := λ _, "curl/8.0";
  RemoteIP := λ _, "203.0.113.4";
  ParseForm := λ _, None;
  PostForm_Get := λ (req : Req) key, form req key;
  parseRequestBody := λ (req : Req), (body req, None);
  bannedUsers_IsBanned := λ username s,
    (String.eqb username "mallory", s);
  bannedUsers_Add := λ username s, username :: s;
  validateCredentials := λ username pwd skip s,
    ((skip || String.eqb pwd "correct horse", username, None), s);
  handleBannedIPs := λ _ _ s, (true, s);
  twoFASrv_SendToken := λ _ username _ _ s,
    ((String.append "mail of " username, None), s);
  createAuthToken := λ _ _ username _ s,
    ((String.append "token for " username, None), s);
  MsgSrv_DeliveryMethod := λ s, ("smtp"%string, s);
  twoFASrv_SetTotPLoginSession := λ _ _ s, s;
  GetUsersTotPCode := λ _, (None, None);
  GetOAuthCapabilityEx := λ s, (Some (), s);
  GetLoginInfo := λ _ s, (("login info"%string, None), s);
  GetLoginInfoForDevice := λ _ _ s, (("device login info"%string, None), s);
|}.

(** A request with basic credentials and a requested lifetime. *)
Definition request (user pwd lifetime : string) : Req :=
  mkReq (λ _, EmptyString) (user, pwd, true) lifetime (λ _, EmptyString)
    (user, pwd).

(** A request with the authentication header set by a proxy, for [user]. *)
Definition header_request (user : string) : Req :=
  mkReq (λ key, if String.eqb key "Authentication-User" then user
                else if String.eqb key "Authentication-IsAuthenticated"
                     then "1"%string
                else EmptyString)
    (EmptyString, EmptyString, false) EmptyString (λ _, EmptyString)
    (EmptyString, EmptyString).

(** A request with a body of the content type [ctype] that holds [user]
    and [pwd]. *)
Definition post_request (ctype user pwd : string) : Req :=
  mkReq (λ key, if String.eqb key "Content-Type" then ctype else EmptyString)
    (EmptyString, EmptyString, false) EmptyString
    (λ key, if String.eqb key "username" then user
            else if String.eqb key "password" then pwd
            else EmptyString)
    (user, pwd).

(** The listener with the built-in login and no second factor, with 2FA,
    with TotP, and the one with OAuth. *)
Definition plain : Listener := listener false false false.
Definition with_2fa : Listener := listener false true false.
Definition with_totp : Listener := listener false false true.
Definition with_oauth : Listener := listener true false false.

End Sample.

End Login.

(** ** Further observations on the calls of the service *)

Section Observations.
Context `{Packages}.

(** A call of [GetRandomPort], and one that returned an error. *)
Definition is_draw (ev : Event) : bool :=
  match ev with EvGetRandomPort _ _ => true | _ => false end.

Definition is_failed_draw (ev : Event) : bool :=
  match ev with EvGetRandomPort _ (Some _) => true | _ => false end.

(** A call into the repository. *)
Definition is_repository_call (ev : Event) : bool :=
  match ev with
  | EvCount _ _ | EvGetActiveByID _ _ _ | EvGetAll _ _
  | EvSave _ _ | EvDelete _ _ => true
  | _ => false
  end.

(** The pointer points to a remote whose local endpoint is specified. *)
Definition specified_in (h : gmap loc Remote) (p : ptr) : Prop :=
  ∃ r, deref h p = Some r ∧ Remote_IsLocalSpecified r = true.

End Observations.

(** ** Further concrete worlds *)

Module SpecRuns.

(** The allocator with its one eligible port bound by someone else. *)
Definition world_exhausted : World :=
  mkWorld (SpecModel.mkAllocator [20000] [] (Some [20000]) 0)
    (SpecModel.store0 None)
    (sessions (SpecModel.world0 None)) (remotes (SpecModel.world0 None))
    1700000000 [].

(** A batch that starts one tunnel and then needs a port, and a batch of
    one remote with an explicit local endpoint. *)
Definition batch_needs_port : slice ptr := Some [Some 2; Some 1]%positive.
Definition batch_explicit : slice ptr := Some [Some 2%positive].

End SpecRuns.

(** * Properties of the service *)

Section Service.
Context `{Packages}.

(** ** Running one step *)

Lemma bind_run {A B} (m : M A) (f : A → M B) (w : World) :
  (m ≫= f) w =
  match m w with
  | Done a w' => f a w'
  | Panic w' => Panic w'
  end.
Proof. reflexivity. Qed.

Lemma assign_local_cases remote w :
  assign_local_view remote w (assign_local remote w).
Proof.
  unfold assign_local, call_IsLocalSpecified, call_GetRandomPort, load_remote,
    store_remote, log, mbind, M_bind, mret, M_ret.
  destruct (deref (remotes w) remote) as [r|] eqn:Hr; [|by constructor].
  destruct remote as [l|]; [simpl in Hr|done].
  destruct (Remote_IsLocalSpecified r) eqn:Hs; cbn [negb].
  { by eapply al_specified. }
  cbn [portDistributor emit].
  destruct (PortDistributor_GetRandomPort (portDistributor w))
    as [[port [e|]] d] eqn:Hp.
  { by eapply al_exhausted. }
  cbn. rewrite Hr.
  rewrite decide_True by eauto. cbn.
  rewrite lookup_insert_eq. cbn.
  rewrite decide_True by (rewrite lookup_insert_eq; eauto). cbn.
  rewrite insert_insert_eq.
  by eapply al_allocated.
Qed.

Lemma call_StartTunnel_cases session remote acl w :
  StartTunnel_view session remote acl w (call_StartTunnel session remote acl w).
Proof.
  unfold call_StartTunnel, load_session, load_remote, store_session, log,
    mbind, M_bind, mret, M_ret.
  destruct (deref (sessions w) session) as [c|] eqn:Hc; [|by constructor].
  destruct session as [l|]; [simpl in Hc|done].
  destruct (deref (remotes w) remote) as [r|] eqn:Hr; [|by constructor].
  destruct (ClientSession_StartTunnel c r acl) as [[t err] c'] eqn:Hst.
  rewrite decide_True by eauto. cbn.
  by eapply st_returned.
Qed.

Lemma Resolved_sessions remote w seg r' w1 :
  Resolved remote w seg r' w1 → sessions w1 = sessions w.
Proof. by destruct 1. Qed.

Lemma Resolved_deref remote w seg r' w1 :
  Resolved remote w seg r' w1 → deref (remotes w1) remote = Some r'.
Proof.
  destruct 1; subst; cbn; [done|]. by rewrite lookup_insert_eq.
Qed.

Lemma range_remotes_Loop session acl rs : ∀ ts w,
  ∃ segs, Loop session acl rs ts w segs (range_remotes session acl rs ts w).
Proof.
  induction rs as [|remote rest IH]; intros ts w.
  { exists []. constructor. }
  cbn [range_remotes]. rewrite bind_run.
  assert (∀ seg r' w1, Resolved remote w seg r' w1 →
    ∃ segs, Loop session acl (remote :: rest) ts w segs
      (('(t, err) ← call_StartTunnel session remote acl;
        match err with
        | Some _ => mret (None, err)
        | None => range_remotes session acl rest (append ts t)
        end) w1)) as Hgo.
  { intros seg r' w1 Hres. rewrite bind_run.
    pose proof (Resolved_sessions _ _ _ _ _ Hres) as Hs.
    pose proof (Resolved_deref _ _ _ _ _ Hres) as Hr.
    destruct (call_StartTunnel_cases session remote acl w1)
      as [Hnil|Hnil|l c r t err c' -> Hc Hr' Hst].
    - exists [seg]. apply Loop_crash. eapply Turn_nil_session; [done|].
      by rewrite <-Hs.
    - congruence.
    - rewrite Hr in Hr'. injection Hr' as <-. rewrite Hs in Hc.
      pose proof (Turn_tunnel _ _ _ _ _ _ _ _ _ _ _ _ Hres eq_refl Hc Hst) as HT.
      rewrite Hs.
      destruct err as [e|]; cbn in HT |- *.
      + eexists. by apply Loop_return.
      + edestruct IH as [segs Hsegs]. eexists. eapply Loop_next; [exact HT|].
        exact Hsegs. }
  destruct (assign_local_cases remote w) as [Hnil|l r -> Hr Hs|l r port e d -> Hr Hs Hp|l r port d -> Hr Hs Hp].
  - exists [[]]. apply Loop_crash. by constructor.
  - eapply Hgo. by eapply Resolved_verbatim.
  - eexists. apply Loop_return. by eapply Turn_exhausted.
  - eapply Hgo. by eapply Resolved_allocated.
Qed.

(** *** What one turn does *)

Lemma Resolved_trace remote w seg r' w1 :
  Resolved remote w seg r' w1 → trace w1 = trace w ++ seg.
Proof. destruct 1; cbn; by rewrite <-?(assoc_L (++)). Qed.

Lemma Turn_trace session acl remote w seg e w1 :
  Turn session acl remote w seg e w1 → trace w1 = trace w ++ seg.
Proof.
  destruct 1 as [?|?????????|??? Hres ?|???????? Hres ???]; cbn.
  - by rewrite app_nil_r.
  - by rewrite <-(assoc_L (++)).
  - by apply Resolved_trace in Hres.
  - apply Resolved_trace in Hres. by rewrite Hres, (assoc_L (++)).
Qed.

Lemma Resolved_frame remote w seg r' w1 :
  Resolved remote w seg r' w1 →
  repo w1 = repo w ∧ wallclock w1 = wallclock w.
Proof. by destruct 1. Qed.

Lemma Turn_frame session acl remote w seg e w1 :
  Turn session acl remote w seg e w1 →
  repo w1 = repo w ∧ wallclock w1 = wallclock w.
Proof.
  destruct 1 as [?|?????????|??? Hres ?|???????? Hres ???]; cbn; try done;
    by apply Resolved_frame in Hres.
Qed.

Lemma Resolved_calls remote w seg r' w1 :
  Resolved remote w seg r' w1 → Forall (λ ev, is_turn_call ev = true) seg.
Proof. destruct 1; repeat constructor. Qed.

Lemma Turn_calls session acl remote w seg e w1 :
  Turn session acl remote w seg e w1 →
  Forall (λ ev, is_turn_call ev = true) seg.
Proof.
  destruct 1 as [?|?????????|??? Hres ?|???????? Hres ???].
  - constructor.
  - repeat constructor.
  - by apply Resolved_calls in Hres.
  - apply Forall_app. split; [by apply Resolved_calls in Hres|].
    repeat constructor.
Qed.

Lemma replay_app session evs1 evs2 c :
  replay session (evs1 ++ evs2) c = replay session evs2 (replay session evs1 c).
Proof.
  revert c. induction evs1 as [|ev evs1 IH]; intros c; [done|].
  destruct ev; cbn; try apply IH. case_decide; apply IH.
Qed.

Lemma Resolved_replay remote w seg r' w1 session c :
  Resolved remote w seg r' w1 → replay session seg c = c.
Proof. by destruct 1. Qed.

(** A turn changes no session object but through [StartTunnel]. *)
Lemma Turn_sessions session acl remote w seg e w1 :
  Turn session acl remote w seg e w1 →
  match session with
  | Some l =>
      match sessions w !! l with
      | Some c => sessions w1 = <[l := replay session seg c]> (sessions w)
      | None => sessions w1 = sessions w
      end
  | None => sessions w1 = sessions w
  end.
Proof.
  destruct 1 as [?|?????????|??? Hres Hnil|seg r' w1 l c t err c' Hres -> Hc Hst].
  - destruct session as [l|]; [|done].
    destruct (sessions w !! l) eqn:?; [|done]. by rewrite insert_id.
  - destruct session as [l0|]; [|done].
    destruct (sessions w !! l0) eqn:?; [|done]. by rewrite insert_id.
  - rewrite (Resolved_sessions _ _ _ _ _ Hres).
    destruct session as [l|]; [|done]. cbn in Hnil. by rewrite Hnil.
  - rewrite Hc. cbn. rewrite replay_app.
    rewrite (Resolved_replay _ _ _ _ _ _ _ Hres). cbn.
    rewrite decide_True by done. by rewrite Hst.
Qed.

(** [Itoa] writes a number in decimal: reading the digits back gives the
    number. *)
Lemma Itoa_decimal (i : Z) :
  Z.of_int <$> NilZero.int_of_string (Itoa i) = Some i.
Proof.
  unfold Itoa. rewrite NilZero.isi.
  - cbn. by rewrite DecimalZ.of_to.
  - destruct i; cbn; try done.
    intros [=Hp]. by apply DecimalPos.Unsigned.to_uint_nonnil in Hp.
  - destruct i; cbn; try done.
    intros [=Hp]. by apply DecimalPos.Unsigned.to_uint_nonnil in Hp.
Qed.

(** The two assignments of the loop give the remote its local endpoint. *)
Lemma assigned_with_allocated port r : assigned port r (with_allocated port r).
Proof. split_and!; try done. apply Itoa_decimal. Qed.


(** A turn found its remote, made the calls of [turn] on the allocator as
    it was, and wrote the remote back, unless the remote pointer points to
    nothing. *)
Lemma Turn_turn session acl remote w seg e w1 :
  Turn session acl remote w seg e w1 →
  (deref (remotes w) remote = None ∧ seg = [] ∧ e = Crashed ∧ w1 = w) ∨
  ∃ l r r1, remote = Some l ∧ remotes w !! l = Some r ∧
    turn session acl remote (portDistributor w) r seg e
      (portDistributor w1) r1 ∧
    remotes w1 = <[l := r1]> (remotes w).
Proof.
  destruct 1 as [Hnil|l r port e d -> Hr Hs Hp|seg r' w1 Hres Hnil
                |seg r' w1 l c t err c' Hres -> Hc Hst].
  - by left.
  - right. exists l, r, r. split_and!; [done|done| |cbn; by rewrite insert_id].
    cbn. by eapply turn_exhausted.
  - right. destruct Hres as [l0 r -> Hr Hs|l0 r port d -> Hr Hs Hp].
    + exists l0, r, r.
      split_and!; [done|done| |cbn; by rewrite insert_id].
      by apply turn_verbatim_cut.
    + exists l0, r, (with_allocated port r). split_and!; [done|done| |done].
      cbn. by eapply turn_allocated_cut; [..|apply assigned_with_allocated].
  - right. destruct Hres as [l0 r -> Hr Hs|l0 r port d -> Hr Hs Hp].
    + exists l0, r, r.
      split_and!; [done|done| |cbn; by rewrite insert_id].
      by apply turn_verbatim.
    + exists l0, r, (with_allocated port r). split_and!; [done|done| |done].
      cbn. by eapply turn_allocated; [..|apply assigned_with_allocated].
Qed.

(** The [StartTunnel] calls of a turn. *)
Lemma Turn_starts session acl remote w seg e w1 :
  Turn session acl remote w seg e w1 →
  match e with
  | Started t => attempted seg = [remote] ∧ started seg = [(remote, t)] ∧
      Forall (λ ev, is_failed_start ev = false) seg
  | Returned e =>
      (attempted seg = [] ∧ Forall (λ ev, is_failed_start ev = false) seg) ∨
      (∃ seg0 r t, seg = seg0 ++ [EvStartTunnel session remote r acl t (Some e)] ∧
         attempted seg0 = [] ∧
         Forall (λ ev, is_failed_start ev = false) seg0)
  | Crashed => attempted seg = [] ∧
      Forall (λ ev, is_failed_start ev = false) seg
  end.
Proof.
  destruct 1 as [?|l r port e d -> Hr Hs Hp|??? Hres Hnil
                |seg r' w1 l c t err c' Hres -> Hc Hst].
  - by split.
  - left. split; [done|]. repeat constructor.
  - destruct Hres; split; try done; repeat constructor.
  - assert (attempted seg = [] ∧ started seg = [] ∧
            Forall (λ ev, is_failed_start ev = false) seg) as (Ha & Hb & Hc').
    { destruct Hres; split_and!; try done; repeat constructor. }
    destruct err as [e|]; cbn.
    + right. by exists seg, r', t.
    + unfold attempted, started in *. rewrite !omap_app, Ha, Hb. cbn.
      split_and!; try done. apply Forall_app. split; [done|].
      repeat constructor.
Qed.

(** ** The loop *)

Lemma Loop_trace session acl rs ts w segs out :
  Loop session acl rs ts w segs out →
  trace (world_of out) = trace w ++ concat segs.
Proof.
  induction 1 as [ts w|remote rest ts w seg t w1 segs out HT _ IH
                 |remote rest ts w seg e w1 HT|remote rest ts w seg w1 HT]; cbn.
  - by rewrite app_nil_r.
  - by rewrite IH, (Turn_trace _ _ _ _ _ _ _ HT), (assoc_L (++)).
  - by rewrite app_nil_r, (Turn_trace _ _ _ _ _ _ _ HT).
  - by rewrite app_nil_r, (Turn_trace _ _ _ _ _ _ _ HT).
Qed.

(** The loop leaves the repository and the clock alone. *)
Lemma Loop_frame session acl rs ts w segs out :
  Loop session acl rs ts w segs out →
  repo (world_of out) = repo w ∧ wallclock (world_of out) = wallclock w.
Proof.
  induction 1 as [ts w|remote rest ts w seg t w1 segs out HT _ IH
                 |remote rest ts w seg e w1 HT|remote rest ts w seg w1 HT]; cbn;
    try done; try by apply Turn_frame in HT.
  apply Turn_frame in HT. destruct HT as [<- <-]. done.
Qed.

(** The loop calls nothing but [IsLocalSpecified], [GetRandomPort] and
    [StartTunnel]. *)
Lemma Loop_calls session acl rs ts w segs out :
  Loop session acl rs ts w segs out →
  Forall (λ ev, is_turn_call ev = true) (concat segs).
Proof.
  induction 1 as [ts w|remote rest ts w seg t w1 segs out HT _ IH
                 |remote rest ts w seg e w1 HT|remote rest ts w seg w1 HT]; cbn.
  - constructor.
  - apply Forall_app. split; [by apply Turn_calls in HT|done].
  - rewrite app_nil_r. by apply Turn_calls in HT.
  - rewrite app_nil_r. by apply Turn_calls in HT.
Qed.

(** The loop changes the session it is given through [StartTunnel] alone,
    and no other session object. *)
Lemma Loop_sessions session acl rs ts w segs out :
  Loop session acl rs ts w segs out →
  match session with
  | Some l =>
      match sessions w !! l with
      | Some c =>
          sessions (world_of out) =
          <[l := replay session (concat segs) c]> (sessions w)
      | None => sessions (world_of out) = sessions w
      end
  | None => sessions (world_of out) = sessions w
  end.
Proof.
  induction 1 as [ts w|remote rest ts w seg t w1 segs out HT _ IH
                 |remote rest ts w seg e w1 HT|remote rest ts w seg w1 HT]; cbn.
  - destruct session as [l|]; [|done].
    destruct (sessions w !! l) eqn:?; [|done]. by rewrite insert_id.
  - apply Turn_sessions in HT. destruct session as [l|]; [|congruence].
    destruct (sessions w !! l) as [c|] eqn:Hc.
    + rewrite HT, lookup_insert_eq in IH.
      by rewrite IH, insert_insert_eq, replay_app.
    + rewrite HT, Hc in IH. congruence.
  - rewrite app_nil_r. by apply Turn_sessions in HT.
  - rewrite app_nil_r. by apply Turn_sessions in HT.
Qed.

(** When the loop runs to its end, [StartTunnel] was invoked once for every
    remote, in order, and the tunnels it returned were appended in that
    order. *)
Lemma Loop_success session acl rs ts w segs ts' w' :
  Loop session acl rs ts w segs (Done (ts', None) w') →
  ∃ new, length new = length rs ∧
    attempted (concat segs) = rs ∧
    started (concat segs) = zip rs new ∧
    elems ts' = elems ts ++ new ∧
    (is_Some ts → is_Some ts').
Proof.
  intros HL. remember (Done (ts', None) w') as out eqn:Hout.
  induction HL as [ts w|remote rest ts w seg t w1 segs out HT _ IH
                  |remote rest ts w seg e w1 HT|remote rest ts w seg w1 HT];
    try done.
  - injection Hout as <- <-. exists []. by rewrite app_nil_r.
  - destruct (IH Hout) as (new & Hlen & Hatt & Hst & Hel & Hsome).
    apply Turn_starts in HT. destruct HT as (Ha & Hs & _).
    exists (t :: new). cbn. unfold attempted, started in *.
    rewrite !omap_app, Ha, Hs, Hatt, Hst, Hlen. split_and!; try done.
    + rewrite Hel. cbn. by rewrite <-(assoc_L (++)).
    + intros _. apply Hsome. by eexists.
Qed.

(** A failing [StartTunnel] is the last call of the loop: the function
    returns its error, and [StartTunnel] was invoked for the remotes up to
    that one and for no other. *)
Lemma Loop_failed session acl rs ts w segs out ev :
  Loop session acl rs ts w segs out →
  ev ∈ concat segs → is_failed_start ev = true →
  ∃ evs0 k remote r t e,
    ev = EvStartTunnel session remote r acl t (Some e) ∧
    out = Done (None, Some e) (world_of out) ∧
    concat segs = evs0 ++ [ev] ∧
    Forall (λ ev, is_failed_start ev = false) evs0 ∧
    rs !! k = Some remote ∧
    attempted (concat segs) = take (S k) rs.
Proof.
  intros HL Hin Hfail.
  induction HL as [ts w|remote rest ts w seg t w1 segs out HT _ IH
                  |remote rest ts w seg e w1 HT|remote rest ts w seg w1 HT];
    cbn in Hin.
  - by apply elem_of_nil in Hin.
  - apply Turn_starts in HT. destruct HT as (Ha & _ & Hok).
    apply elem_of_app in Hin. destruct Hin as [Hin|Hin].
    { rewrite Forall_forall in Hok. apply Hok in Hin. congruence. }
    destruct (IH Hin) as (evs0 & k & rp & r & t0 & e & -> & Hout & Hcat & Hpre & Hk & Hatt).
    exists (seg ++ evs0), (S k), rp, r, t0, e. cbn.
    split_and!; try done.
    + by rewrite Hcat, (assoc_L (++)).
    + by apply Forall_app.
    + unfold attempted in *. by rewrite omap_app, Ha, Hatt.
  - rewrite app_nil_r in Hin. apply Turn_starts in HT.
    destruct HT as [[_ Hok]|(seg0 & r & t & -> & Ha & Hok)].
    { rewrite Forall_forall in Hok. apply Hok in Hin. congruence. }
    apply elem_of_app in Hin. destruct Hin as [Hin|Hin].
    { rewrite Forall_forall in Hok. apply Hok in Hin. congruence. }
    apply list_elem_of_singleton in Hin. subst ev.
    exists seg0, 0%nat, remote, r, t, e. cbn. rewrite app_nil_r.
    split_and!; try done.
    unfold attempted in *. by rewrite omap_app, Ha.
  - rewrite app_nil_r in Hin. apply Turn_starts in HT. destruct HT as [_ Hok].
    rewrite Forall_forall in Hok. apply Hok in Hin. congruence.
Qed.

(** The calls of the loop are the turns of the remotes it got to, each
    remote and the allocator found as the turns before left them; how the
    turns end is how the loop ends. *)
Lemma Loop_turns session acl rs ts w segs out :
  Loop session acl rs ts w segs out →
  ∃ stop,
    turns session acl (portDistributor w) (remotes w) rs segs stop
      (portDistributor (world_of out)) (remotes (world_of out)) ∧
    match stop with
    | None => ∃ ts', out = Done (ts', None) (world_of out)
    | Some (Returned e) => out = Done (None, Some e) (world_of out)
    | Some Crashed => out = Panic (world_of out)
    | Some (Started _) => False
    end.
Proof.
  induction 1 as [ts w|remote rest ts w seg t w1 segs out HT _ IH
                 |remote rest ts w seg e w1 HT|remote rest ts w seg w1 HT].
  - exists None. split; [constructor|by eexists].
  - destruct IH as (stop & Hturns & Hout).
    destruct (Turn_turn _ _ _ _ _ _ _ HT)
      as [(_ & _ & [=] & _)|(l & r & r1 & -> & Hr & Hturn & Hw)].
    exists stop. split; [|done]. eapply turns_next; [done..|].
    by rewrite <-Hw.
  - destruct (Turn_turn _ _ _ _ _ _ _ HT)
      as [(_ & _ & [=] & _)|(l & r & r1 & -> & Hr & Hturn & Hw)].
    exists (Some (Returned e)). split; [|done]. cbn [world_of]. rewrite Hw.
    by eapply turns_stop.
  - destruct (Turn_turn _ _ _ _ _ _ _ HT)
      as [(Hnil & -> & _ & ->)|(l & r & r1 & -> & Hr & Hturn & Hw)].
    + exists (Some Crashed). split; [|done]. by apply turns_dangling.
    + exists (Some Crashed). split; [|done]. cbn [world_of]. rewrite Hw.
      by eapply turns_stop.
Qed.

(** A turn in which [StartTunnel] was invoked found the session. *)
Lemma Turn_attempted_session session acl remote w seg e w1 :
  Turn session acl remote w seg e w1 → attempted seg ≠ [] →
  ∃ l c, session = Some l ∧ sessions w !! l = Some c.
Proof.
  destruct 1 as [?|l r port e d -> Hr Hs Hp|seg r' w1 Hres Hnil
                |seg r' w1 l c t err c' Hres -> Hc Hst]; intros Hne;
    try done.
  - by destruct Hres.
  - by exists l, c.
Qed.

Lemma Loop_attempted_session session acl rs ts w segs out :
  Loop session acl rs ts w segs out → attempted (concat segs) ≠ [] →
  ∃ l c, session = Some l ∧ sessions w !! l = Some c.
Proof.
  destruct 1 as [ts w|remote rest ts w seg t w1 segs out HT _
                |remote rest ts w seg e w1 HT|remote rest ts w seg w1 HT];
    cbn; rewrite ?app_nil_r; intros Hne; try done;
    try by eapply Turn_attempted_session.
  eapply Turn_attempted_session; [done|].
  apply Turn_starts in HT. destruct HT as [-> _]. done.
Qed.

(** Every [StartTunnel] of the loop is invoked on the session and with the
    list the function was given, for remotes of the batch in order. *)
Lemma Turn_start_args session acl remote w seg e w1 :
  Turn session acl remote w seg e w1 →
  Forall (λ ev, match ev with
                | EvStartTunnel p _ _ a _ _ => p = session ∧ a = acl
                | _ => True
                end) seg.
Proof.
  destruct 1 as [?|l r port e d -> Hr Hs Hp|seg r' w1 Hres Hnil
                |seg r' w1 l c t err c' Hres -> Hc Hst].
  - constructor.
  - repeat constructor.
  - destruct Hres; repeat constructor.
  - apply Forall_app. split; [destruct Hres|]; repeat constructor.
Qed.

Lemma Loop_start_args session acl rs ts w segs out :
  Loop session acl rs ts w segs out →
  Forall (λ ev, match ev with
                | EvStartTunnel p _ _ a _ _ => p = session ∧ a = acl
                | _ => True
                end) (concat segs).
Proof.
  induction 1 as [ts w|remote rest ts w seg t w1 segs out HT _ IH
                 |remote rest ts w seg e w1 HT|remote rest ts w seg w1 HT]; cbn;
    rewrite ?app_nil_r; try by eapply Turn_start_args.
  - constructor.
  - apply Forall_app. split; [by eapply Turn_start_args|done].
Qed.

Lemma Loop_attempted_prefix session acl rs ts w segs out :
  Loop session acl rs ts w segs out →
  attempted (concat segs) `prefix_of` rs.
Proof.
  induction 1 as [ts w|remote rest ts w seg t w1 segs out HT _ IH
                 |remote rest ts w seg e w1 HT|remote rest ts w seg w1 HT];
    cbn [concat]; rewrite ?app_nil_r.
  - done.
  - apply Turn_starts in HT. destruct HT as (Ha & _ & _).
    unfold attempted in *. rewrite omap_app, Ha. cbn. by apply prefix_cons.
  - apply Turn_starts in HT.
    destruct HT as [[-> _]|(seg0 & r & t & -> & Ha & _)];
      [apply prefix_nil|].
    unfold attempted in *. rewrite omap_app, Ha. cbn.
    apply prefix_cons, prefix_nil.
  - apply Turn_starts in HT. destruct HT as [-> _]. apply prefix_nil.
Qed.

(** ** The remote objects after a batch *)









(** ** [StartSessionTunnels] *)

Lemma calls_of_trace {A} (m : M A) (w : World) (evs : list Event) :
  trace (world_of (m w)) = trace w ++ evs → calls m w = evs.
Proof. intros Ht. unfold calls. rewrite Ht. apply drop_app_length. Qed.

Lemma StartSessionTunnels_cases session remotes acl w :
  match (PortDistributor_Refresh (portDistributor w)).1 with
  | Some e =>
      StartSessionTunnels session remotes acl w =
      Done (None, Some e) (refreshed w)
  | None =>
      ∃ segs, Loop session acl (elems remotes) make0 (refreshed w) segs
                (StartSessionTunnels session remotes acl w)
  end.
Proof.
  unfold StartSessionTunnels, refreshed. rewrite bind_run.
  unfold call_Refresh.
  destruct (PortDistributor_Refresh (portDistributor w)) as [[e|] d]; cbn;
    [done|].
  apply range_remotes_Loop.
Qed.

Lemma refreshed_trace w :
  trace (refreshed w) =
  trace w ++ [EvRefresh (PortDistributor_Refresh (portDistributor w)).1].
Proof. done. Qed.

Lemma StartSessionTunnels_Loop session remotes acl w :
  (PortDistributor_Refresh (portDistributor w)).1 = None →
  ∃ segs,
    Loop session acl (elems remotes) make0 (refreshed w) segs
      (StartSessionTunnels session remotes acl w) ∧
    trace (world_of (StartSessionTunnels session remotes acl w)) =
      trace w ++ EvRefresh None :: concat segs.
Proof.
  intros Hok. pose proof (StartSessionTunnels_cases session remotes acl w) as Hc.
  rewrite Hok in Hc. destruct Hc as [segs HL]. exists segs. split; [done|].
  rewrite (Loop_trace _ _ _ _ _ _ _ HL), refreshed_trace, Hok.
  by rewrite <-(assoc_L (++)).
Qed.

Lemma turn_call_not_Refresh ev : is_turn_call ev = true → is_Refresh ev = false.
Proof. by destruct ev. Qed.

Lemma turn_call_not_Save ev : is_turn_call ev = true → is_Save ev = false.
Proof. by destruct ev. Qed.

Lemma refresh_outcomes session remotes acl w :
  (∃ e, calls (StartSessionTunnels session remotes acl) w = [EvRefresh (Some e)]) ∨
  ((PortDistributor_Refresh (portDistributor w)).1 = None ∧
   ∃ segs,
     Loop session acl (elems remotes) make0 (refreshed w) segs
       (StartSessionTunnels session remotes acl w) ∧
     trace (world_of (StartSessionTunnels session remotes acl w)) =
       trace w ++ EvRefresh None :: concat segs).
Proof.
  destruct ((PortDistributor_Refresh (portDistributor w)).1) as [e|] eqn:He.
  - left. exists e.
    pose proof (StartSessionTunnels_cases session remotes acl w) as Hc.
    rewrite He in Hc. apply calls_of_trace.
    rewrite Hc. cbn [world_of]. by rewrite refreshed_trace, He.
  - right. split; [done|]. by apply StartSessionTunnels_Loop.
Qed.

(** C3.  [StartSessionTunnels] invokes [Refresh] exactly once and before
    anything else: the calls of a run are the [Refresh] call followed by
    calls none of which is a [Refresh] (they are the [IsLocalSpecified],
    [GetRandomPort] and [StartTunnel] calls of the loop).  If [Refresh]
    returns an error, the run returns that error with a nil list, makes no
    further call, and leaves the world as [Refresh] left it. *)
Theorem StartSessionTunnels_refreshes_once session remotes acl w :
  let run := StartSessionTunnels session remotes acl in
  let err := (PortDistributor_Refresh (portDistributor w)).1 in
  ∃ evs,
    trace (world_of (run w)) = trace w ++ EvRefresh err :: evs ∧
    calls run w = EvRefresh err :: evs ∧
    Forall (λ ev, is_Refresh ev = false) evs ∧
    Forall (λ ev, is_turn_call ev = true) evs ∧
    match err with
    | Some e => evs = [] ∧ run w = Done (None, Some e) (refreshed w)
    | None => True
    end.
Proof.
  intros run err. subst run err.
  destruct ((PortDistributor_Refresh (portDistributor w)).1) as [e|] eqn:He.
  - pose proof (StartSessionTunnels_cases session remotes acl w) as Hc.
    rewrite He in Hc. exists [].
    assert (trace (world_of (StartSessionTunnels session remotes acl w)) =
            trace w ++ [EvRefresh (Some e)]) as Ht.
    { rewrite Hc. cbn [world_of]. by rewrite refreshed_trace, He. }
    split_and!; try done. by apply calls_of_trace.
  - destruct (StartSessionTunnels_Loop session remotes acl w He)
      as (segs & HL & Ht).
    exists (concat segs). pose proof (Loop_calls _ _ _ _ _ _ _ HL) as Hcalls.
    split_and!; try done.
    + by apply calls_of_trace.
    + eapply Forall_impl; [exact Hcalls|]. apply turn_call_not_Refresh.
Qed.

(** C5.  When [StartSessionTunnels] returns without error, the returned
    list holds one tunnel per requested remote, in the order of the remotes:
    [StartTunnel] was invoked once for each remote, in that order, and the
    list pairs up with the remotes as the tunnels [StartTunnel] returned for
    them. *)
Theorem StartSessionTunnels_preserves_order session remotes acl w ts w' :
  StartSessionTunnels session remotes acl w = Done (ts, None) w' →
  ∃ l, ts = Some l ∧
    length l = length (elems remotes) ∧
    attempted (calls (StartSessionTunnels session remotes acl) w) =
      elems remotes ∧
    started (calls (StartSessionTunnels session remotes acl) w) =
      zip (elems remotes) l.
Proof.
  intros Hrun.
  pose proof (StartSessionTunnels_cases session remotes acl w) as Hc.
  destruct ((PortDistributor_Refresh (portDistributor w)).1) as [e|] eqn:He.
  { rewrite Hrun in Hc. discriminate. }
  clear Hc. destruct (StartSessionTunnels_Loop session remotes acl w He)
    as (segs & HL & Ht).
  rewrite (calls_of_trace _ _ _ Ht). rewrite Hrun in HL.
  destruct (Loop_success _ _ _ _ _ _ _ _ HL)
    as (new & Hlen & Hatt & Hst & Hel & Hsome).
  destruct Hsome as [l ->]; [by eexists|]. cbn in Hel. subst l.
  exists new. by split_and!.
Qed.

Lemma turn_call_not_repository ev :
  is_turn_call ev = true → is_repository_call ev = false.
Proof. by destruct ev. Qed.

(** C1.  If [StartTunnel] fails for a remote of the batch,
    [StartSessionTunnels] returns that error at once, with a nil list: the
    failing call is the last call of the run, so [StartTunnel] was invoked
    for the remotes up to the failing one and for no later one, and no port
    was drawn afterwards.  The method commits nothing itself: it makes no
    call into the repository and leaves the repository as it was, and it
    writes nothing to the session, which is as the [StartTunnel] calls of
    the run, one after the other, leave it (undoing them is left to the
    caller); the tunnels collected so far are dropped with the list. *)
Theorem StartSessionTunnels_fail_fast session remotes acl w ev :
  let run := StartSessionTunnels session remotes acl in
  ev ∈ calls run w → is_failed_start ev = true →
  ∃ evs0 k remote r t e l c,
    ev = EvStartTunnel session remote r acl t (Some e) ∧
    run w = Done (None, Some e) (world_of (run w)) ∧
    calls run w = evs0 ++ [ev] ∧
    Forall (λ ev, is_failed_start ev = false) evs0 ∧
    elems remotes !! k = Some remote ∧
    attempted (calls run w) = take (S k) (elems remotes) ∧
    Forall (λ ev, is_repository_call ev = false) (calls run w) ∧
    repo (world_of (run w)) = repo w ∧
    session = Some l ∧ sessions w !! l = Some c ∧
    sessions (world_of (run w)) =
      <[l := replay session (calls run w) c]> (sessions w).
Proof.
  intros run Hin Hfail. subst run.
  destruct (refresh_outcomes session remotes acl w)
    as [(e & Hcalls)|(He & segs & HL & Ht)].
  { rewrite Hcalls in Hin. apply list_elem_of_singleton in Hin. by subst ev. }
  pose proof (calls_of_trace _ _ _ Ht) as Hcalls. rewrite Hcalls in Hin |- *.
  apply elem_of_cons in Hin. destruct Hin as [->|Hin]; [done|].
  destruct (Loop_failed _ _ _ _ _ _ _ _ HL Hin Hfail)
    as (evs0 & k & remote & r & t & e & -> & Hout & Hcat & Hpre & Hk & Hatt).
  destruct (Loop_attempted_session _ _ _ _ _ _ _ HL) as (l & c & -> & Hc).
  { rewrite Hatt. by destruct (elems remotes). }
  exists (EvRefresh None :: evs0), k, remote, r, t, e, l, c.
  split_and!; try done.
  - cbn. by rewrite Hcat.
  - by constructor.
  - constructor; [done|]. eapply Forall_impl; [by eapply Loop_calls|].
    apply turn_call_not_repository.
  - by destruct (Loop_frame _ _ _ _ _ _ _ HL).
  - pose proof (Loop_sessions _ _ _ _ _ _ _ HL) as Hs. cbn in Hs, Hc.
    rewrite Hc in Hs. by rewrite Hs.
Qed.

(** Every run by its turns: after [Refresh], the calls are the turns of
    the batch in order, threaded through the allocator and the remote
    objects, and the run ends as the turns do. *)
Lemma StartSessionTunnels_turns session batch acl w :
  let run := StartSessionTunnels session batch acl in
  let w' := world_of (run w) in
  match (PortDistributor_Refresh (portDistributor w)).1 with
  | Some e =>
      calls run w = [EvRefresh (Some e)] ∧
      run w = Done (None, Some e) (refreshed w)
  | None =>
      ∃ segs stop,
        calls run w = EvRefresh None :: concat segs ∧
        turns session acl
          (PortDistributor_Refresh (portDistributor w)).2 (remotes w)
          (elems batch) segs stop (portDistributor w') (remotes w') ∧
        match stop with
        | None => ∃ ts, run w = Done (ts, None) w'
        | Some (Returned e) => run w = Done (None, Some e) w'
        | Some Crashed => run w = Panic w'
        | Some (Started _) => False
        end
  end.
Proof.
  intros run w'. subst run w'.
  pose proof (StartSessionTunnels_cases session batch acl w) as Hc.
  destruct ((PortDistributor_Refresh (portDistributor w)).1) as [e|] eqn:He.
  - split; [|done]. apply calls_of_trace. rewrite Hc. cbn [world_of].
    by rewrite refreshed_trace, He.
  - clear Hc. destruct (StartSessionTunnels_Loop session batch acl w He)
      as (segs & HL & Ht).
    destruct (Loop_turns _ _ _ _ _ _ _ HL) as (stop & Hturns & Hout).
    exists segs, stop. split_and!; [by apply calls_of_trace|done|done].
Qed.

(** C4.  Every run of [StartSessionTunnels], returning or not, goes through
    the remotes in the order of the list, one turn each, until a turn ends
    it.  A remote is found as the turns before left it.  If it specifies a
    local endpoint, [GetRandomPort] is not called (the allocator is left as
    it was) and [StartTunnel] receives the remote as it is.  Otherwise
    [GetRandomPort] is called on the allocator as the turns before left it,
    and [StartTunnel] receives the remote with the port that call returned,
    in decimal, as local port, ["0.0.0.0"] as local host and the remote
    endpoint unchanged; if the draw fails the run returns its error.  A run
    that returns without error has served every remote of the list. *)
Theorem StartSessionTunnels_local_endpoint session batch acl w :
  let run := StartSessionTunnels session batch acl in
  let w' := world_of (run w) in
  match (PortDistributor_Refresh (portDistributor w)).1 with
  | Some e =>
      calls run w = [EvRefresh (Some e)] ∧
      run w = Done (None, Some e) (refreshed w)
  | None =>
      ∃ segs stop,
        calls run w = EvRefresh None :: concat segs ∧
        turns session acl
          (PortDistributor_Refresh (portDistributor w)).2 (remotes w)
          (elems batch) segs stop (portDistributor w') (remotes w') ∧
        match stop with
        | None => ∃ ts, run w = Done (ts, None) w'
        | Some (Returned e) => run w = Done (None, Some e) w'
        | Some Crashed => run w = Panic w'
        | Some (Started _) => False
        end
  end.
Proof. apply StartSessionTunnels_turns. Qed.


(** What every run of [StartSessionTunnels] leaves alone. *)
Lemma StartSessionTunnels_frame session batch acl w :
  let w' := world_of (StartSessionTunnels session batch acl w) in
  ∃ evs,
    trace w' = trace w ++ evs ∧
    Forall (λ ev, is_Save ev = false) evs ∧
    repo w' = repo w ∧ wallclock w' = wallclock w ∧
    match session with
    | Some l =>
        match sessions w !! l with
        | Some c => sessions w' = <[l := replay session evs c]> (sessions w)
        | None => sessions w' = sessions w
        end
    | None => sessions w' = sessions w
    end ∧
    Forall (λ ev, match ev with
                  | EvStartTunnel p _ _ a _ _ => p = session ∧ a = acl
                  | _ => True
                  end) evs ∧
    attempted evs `prefix_of` elems batch.
Proof.
  intros w'. subst w'.
  pose proof (StartSessionTunnels_cases session batch acl w) as Hc.
  destruct ((PortDistributor_Refresh (portDistributor w)).1) as [e|] eqn:He.
  - exists [EvRefresh (Some e)]. rewrite Hc. cbn [world_of].
    rewrite refreshed_trace, He. split_and!; try done.
    + by repeat constructor.
    + destruct session as [l|]; [|done]. cbn.
      destruct (sessions w !! l) eqn:?; [|done]. by rewrite insert_id.
    + by repeat constructor.
    + apply prefix_nil.
  - clear Hc. destruct (StartSessionTunnels_Loop session batch acl w He)
      as (segs & HL & Ht).
    exists (EvRefresh None :: concat segs). split_and!; try done.
    + constructor; [done|]. eapply Forall_impl; [by eapply Loop_calls|].
      apply turn_call_not_Save.
    + by destruct (Loop_frame _ _ _ _ _ _ _ HL).
    + by destruct (Loop_frame _ _ _ _ _ _ _ HL).
    + by apply Loop_sessions in HL.
    + constructor; [done|]. by eapply Loop_start_args.
    + by eapply Loop_attempted_prefix.
Qed.

Lemma success_attempts_all session batch acl w ts w' :
  StartSessionTunnels session batch acl w = Done (ts, None) w' →
  ∃ segs, trace w' = trace w ++ EvRefresh None :: concat segs ∧
          attempted (EvRefresh None :: concat segs) = elems batch.
Proof.
  intros Hrun.
  pose proof (StartSessionTunnels_cases session batch acl w) as Hc.
  destruct ((PortDistributor_Refresh (portDistributor w)).1) as [e|] eqn:He.
  { rewrite Hrun in Hc. discriminate. }
  clear Hc. destruct (StartSessionTunnels_Loop session batch acl w He)
    as (segs & HL & Ht).
  rewrite Hrun in HL, Ht. exists segs. split; [done|].
  by destruct (Loop_success _ _ _ _ _ _ _ _ HL) as (new & _ & Hatt & _).
Qed.

(** ** [StartClientSession] *)

Lemma allocated_at_fresh c w : sessions w !! (allocated_at c w).1 = None.
Proof. apply not_elem_of_dom, is_fresh. Qed.

Lemma StartClientSession_run ctx sid sshConn req user clog w :
  let '(l, built) :=
    allocated_at (ClientSession_literal ctx sid sshConn req user clog) w in
  StartClientSession ctx sid sshConn req user clog w =
  match StartSessionTunnels (Some l) (req_Remotes req) TunnelACL_zero built with
  | Panic w1 => Panic w1
  | Done (_, Some e) w1 => Done (None, Some e) w1
  | Done (_, None) w1 =>
      match Repository_Save (Some l) (sessions w1) (repo w1) with
      | (Some e, rp) =>
          Done (None, Some e) (emit (EvSave (Some l) (Some e)) (set_repo rp w1))
      | (None, rp) =>
          Done (Some l, None) (emit (EvSave (Some l) None) (set_repo rp w1))
      end
  end.
Proof.
  unfold allocated_at, StartClientSession, new_session. rewrite !bind_run.
  destruct (StartSessionTunnels _ _ _ _) as [[ts [e|]] w1|w1]; try done.
  rewrite bind_run. unfold call_Save.
  by destruct (Repository_Save _ _ _) as [[e|] rp].
Qed.

(** C2.  [StartClientSession] builds the session at a fresh address and
    runs [StartSessionTunnels] on it.  If that returns an error, so does
    [StartClientSession], with a nil session: [Save] is not called and the
    repository is as before.  Otherwise [Save] is called on the session; if
    [Save] returns an error, [StartClientSession] returns it with a nil
    session and no [Save] of the run has accepted a session; if [Save]
    accepts, the session is the one session saved and it is returned. *)
Theorem StartClientSession_persists ctx sid sshConn req user clog w :
  let run := StartClientSession ctx sid sshConn req user clog in
  let '(l, built) :=
    allocated_at (ClientSession_literal ctx sid sshConn req user clog) w in
  match StartSessionTunnels (Some l) (req_Remotes req) TunnelACL_zero built with
  | Panic w1 => run w = Panic w1
  | Done (_, Some e) w1 =>
      run w = Done (None, Some e) w1 ∧
      repo w1 = repo w ∧
      Forall (λ ev, is_Save ev = false) (calls run w)
  | Done (_, None) w1 =>
      repo w1 = repo w ∧
      match Repository_Save (Some l) (sessions w1) (repo w) with
      | (Some e, rp) =>
          run w =
            Done (None, Some e) (emit (EvSave (Some l) (Some e)) (set_repo rp w1)) ∧
          saved (calls run w) = []
      | (None, rp) =>
          run w =
            Done (Some l, None) (emit (EvSave (Some l) None) (set_repo rp w1)) ∧
          saved (calls run w) = [Some l]
      end
  end.
Proof.
  intros run. subst run.
  pose proof (StartClientSession_run ctx sid sshConn req user clog w) as Hrun.
  destruct (allocated_at _ w) as [l built] eqn:Hb.
  assert (trace built = trace w ∧ repo built = repo w) as [Htb Hrb].
  { unfold allocated_at in Hb. by injection Hb as <- <-. }
  destruct (StartSessionTunnels_frame (Some l) (req_Remotes req)
              TunnelACL_zero built)
    as (evs & Ht & Hns & Hrepo & _).
  rewrite Htb, Hrb in *.
  destruct (StartSessionTunnels _ _ _ built) as [[ts [e|]] w1|w1];
    cbn [world_of] in *; [| |done].
  - split_and!; try done.
    erewrite calls_of_trace; [exact Hns|]. by rewrite Hrun.
  - split; [done|]. rewrite Hrepo in Hrun.
    assert (saved evs = []) as Hsaved.
    { clear -Hns. induction Hns as [|ev evs Hev _ IH]; [done|].
      destruct ev; try done. }
    destruct (Repository_Save _ _ _) as [[e|] rp]; (split; [done|]).
    + erewrite calls_of_trace; last first.
      { rewrite Hrun. cbn. rewrite Ht. by rewrite <-(assoc_L (++)). }
      unfold saved in *. by rewrite omap_app, Hsaved.
    + erewrite calls_of_trace; last first.
      { rewrite Hrun. cbn. rewrite Ht. by rewrite <-(assoc_L (++)). }
      unfold saved in *. by rewrite omap_app, Hsaved.
Qed.

Lemma replay_snoc_Save session evs p err c :
  replay session (evs ++ [EvSave p err]) c = replay session evs c.
Proof. by rewrite replay_app. Qed.

Lemma attempted_snoc_Save evs p err :
  attempted (evs ++ [EvSave p err]) = attempted evs.
Proof. unfold attempted. rewrite omap_app. cbn. by rewrite app_nil_r. Qed.

(** C9.  [StartClientSession] builds, at a fresh address, a session that
    carries the identifier, the metadata of the request, the remote address
    of the connection, the connection, the user, the context and the logger
    it was given, an empty tunnel collection and no disconnection
    timestamp.  From then on the session is changed by the [StartTunnel]
    calls of the run alone.  Each of these calls is made on that session
    with the zero access-control list, whose list of ranges is empty, and
    they are made for the remotes of the request in order: for all of them
    when the run returns without error. *)
Theorem StartClientSession_builds ctx sid sshConn req user clog w :
  let run := StartClientSession ctx sid sshConn req user clog in
  ∃ l c,
    sessions w !! l = None ∧
    (ID c = sid ∧ Name c = req_Name req ∧ Tags c = req_Tags req ∧
     OS c = req_OS req ∧ Hostname c = req_Hostname req ∧
     Version c = req_Version req ∧ IPv4 c = req_IPv4 req ∧
     IPv6 c = req_IPv6 req) ∧
    (Address c = Conn_RemoteAddr_String sshConn ∧ Connection c = sshConn) ∧
    (User c = user ∧ Context c = ctx ∧ Logger c = clog) ∧
    (Tunnels c = Some [] ∧ Disconnected c = None) ∧
    sessions (world_of (run w)) =
      <[l := replay (Some l) (calls run w) c]> (sessions w) ∧
    Forall (λ ev, match ev with
                  | EvStartTunnel p _ _ a _ _ =>
                      p = Some l ∧ a = TunnelACL_zero ∧ elems (AllowedIPs a) = []
                  | _ => True
                  end) (calls run w) ∧
    attempted (calls run w) `prefix_of` elems (req_Remotes req) ∧
    match run w with
    | Done (_, None) _ => attempted (calls run w) = elems (req_Remotes req)
    | _ => True
    end.
Proof.
  intros run. subst run.
  pose proof (StartClientSession_run ctx sid sshConn req user clog w) as Hrun.
  pose proof (allocated_at_fresh
                (ClientSession_literal ctx sid sshConn req user clog) w) as Hf.
  destruct (allocated_at _ w) as [l built] eqn:Hb. cbn in Hf.
  assert (trace built = trace w ∧
          sessions built =
            <[l := ClientSession_literal ctx sid sshConn req user clog]>
              (sessions w)) as [Htb Hsb].
  { unfold allocated_at in Hb. by injection Hb as <- <-. }
  destruct (StartSessionTunnels_frame (Some l) (req_Remotes req)
              TunnelACL_zero built)
    as (evs & Ht & _ & _ & _ & Hs & Hargs & Hpre).
  rewrite Hsb, lookup_insert_eq, insert_insert_eq, Htb in *.
  exists l, (ClientSession_literal ctx sid sshConn req user clog).
  assert (Forall
    (λ ev, match ev with
           | EvStartTunnel p _ _ a _ _ =>
               p = Some l ∧ a = TunnelACL_zero ∧ elems (AllowedIPs a) = []
           | _ => True
           end) evs) as Hargs'.
  { eapply Forall_impl; [exact Hargs|].
    intros [] Hev; try done. by destruct Hev as [-> ->]. }
  split; [done|]. do 4 (split; [done|]).
  destruct (StartSessionTunnels _ _ _ built) as [[ts [e|]] w1|w1] eqn:Hsst;
    cbn [world_of] in *.
  - rewrite (calls_of_trace _ _ evs) by (by rewrite Hrun).
    rewrite Hrun. by split_and!.
  - assert (attempted evs = elems (req_Remotes req)) as Hall.
    { destruct (success_attempts_all _ _ _ _ _ _ Hsst)
        as (segs & Ht' & Ha).
      rewrite Htb, Ht in Ht'. apply app_inv_head in Ht'. by subst evs. }
    destruct (Repository_Save _ _ _) as [[e|] rp].
    + rewrite (calls_of_trace _ _ (evs ++ [EvSave (Some l) (Some e)])).
      2:{ rewrite Hrun. cbn. rewrite Ht. by rewrite <-(assoc_L (++)). }
      rewrite replay_snoc_Save, attempted_snoc_Save, Hrun. cbn.
      split_and!; try done. apply Forall_app. by split; [|repeat constructor].
    + rewrite (calls_of_trace _ _ (evs ++ [EvSave (Some l) None])).
      2:{ rewrite Hrun. cbn. rewrite Ht. by rewrite <-(assoc_L (++)). }
      rewrite replay_snoc_Save, attempted_snoc_Save, Hrun. cbn.
      split_and!; try done. apply Forall_app. by split; [|repeat constructor].
  - rewrite (calls_of_trace _ _ evs) by (by rewrite Hrun).
    rewrite Hrun. by split_and!.
Qed.

(** The session objects after [StartClientSession]: the new one, as the
    [StartTunnel] calls left it, next to the old ones. *)
Lemma StartClientSession_sessions ctx sid sshConn req user clog w :
  ∃ l evs,
    sessions w !! l = None ∧
    sessions (world_of (StartClientSession ctx sid sshConn req user clog w)) =
      <[l := replay (Some l) evs
               (ClientSession_literal ctx sid sshConn req user clog)]>
        (sessions w).
Proof.
  pose proof (StartClientSession_run ctx sid sshConn req user clog w) as Hrun.
  pose proof (allocated_at_fresh
                (ClientSession_literal ctx sid sshConn req user clog) w) as Hf.
  destruct (allocated_at _ w) as [l built] eqn:Hb. cbn in Hf.
  assert (sessions built =
            <[l := ClientSession_literal ctx sid sshConn req user clog]>
              (sessions w)) as Hsb.
  { unfold allocated_at in Hb. by injection Hb as <- <-. }
  destruct (StartSessionTunnels_frame (Some l) (req_Remotes req)
              TunnelACL_zero built)
    as (evs & _ & _ & _ & _ & Hs & _).
  rewrite Hsb, lookup_insert_eq, insert_insert_eq in Hs.
  exists l, evs. split; [done|]. rewrite Hrun.
  destruct (StartSessionTunnels _ _ _ built) as [[ts [e|]] w1|w1];
    cbn [world_of] in *; try done.
  by destruct (Repository_Save _ _ _) as [[e|] rp].
Qed.

(** ** The accessors *)

Lemma accessors_run (id : string) (w : World) :
  (let '(res, rp) := Repository_Count (sessions w) (repo w) in
   Count w = Done res (emit (EvCount res.1 res.2) (set_repo rp w))) ∧
  (let '(res, rp) := Repository_GetActiveByID id (sessions w) (repo w) in
   GetActiveByID id w =
     Done res (emit (EvGetActiveByID id res.1 res.2) (set_repo rp w))) ∧
  (let '(res, rp) := Repository_GetAll (sessions w) (repo w) in
   GetAll w = Done res (emit (EvGetAll res.1 res.2) (set_repo rp w))).
Proof.
  unfold Count, GetActiveByID, GetAll, call_Count, call_GetActiveByID,
    call_GetAll.
  destruct (Repository_Count _ _) as [[n e1] rp1].
  destruct (Repository_GetActiveByID _ _ _) as [[c e2] rp2].
  by destruct (Repository_GetAll _ _) as [[cs e3] rp3].
Qed.

(** C8.  [Count], [GetActiveByID] and [GetAll] return the value and the
    error of the repository method of the same name, leave the repository
    as that method left it, make no other call and change nothing else. *)
Theorem accessors_delegate (id : string) (w : World) :
  (let '(res, rp) := Repository_Count (sessions w) (repo w) in
   Count w = Done res (emit (EvCount res.1 res.2) (set_repo rp w))) ∧
  (let '(res, rp) := Repository_GetActiveByID id (sessions w) (repo w) in
   GetActiveByID id w =
     Done res (emit (EvGetActiveByID id res.1 res.2) (set_repo rp w))) ∧
  (let '(res, rp) := Repository_GetAll (sessions w) (repo w) in
   GetAll w = Done res (emit (EvGetAll res.1 res.2) (set_repo rp w))).
Proof. apply accessors_run. Qed.

(** ** [Terminate] *)

(** The session objects once [Terminate] stamped the one at [l]. *)
Lemma Terminate_run session w :
  Terminate session w =
  match KeepLostClients (repo w) with
  | None => call_Delete session w
  | Some _ =>
      match session with
      | Some l =>
          match sessions w !! l with
          | Some c =>
              call_Save session
                (set_sessions
                   (<[l := ClientSession_set_Disconnected
                             (Some (mkTime (wallclock w) UTC)) c]> (sessions w))
                   w)
          | None => Panic w
          end
      | None => Panic w
      end
  end.
Proof.
  unfold Terminate, read_KeepLostClients, time_Now, load_session,
    store_session, mbind, M_bind, mret, M_ret.
  destruct (KeepLostClients (repo w)); [|done].
  destruct session as [l|]; cbn; [|done].
  destruct (sessions w !! l) as [c|] eqn:Hc; [|done].
  by rewrite decide_True by eauto.
Qed.

(** C6.  What [Terminate] does is decided by the flag [KeepLostClients] of
    the repository alone, as read at the call.  Without the flag it calls
    [Delete] on the session and returns what [Delete] returns; no session
    object changes, so no disconnection timestamp is set.  With the flag,
    and a session that is not nil, the session object keeps every field
    but [Disconnected], which becomes the reading of the clock, presented
    in UTC; [Save] is then called on the session, sees the timestamp, and
    [Terminate] returns what [Save] returns. *)
Theorem Terminate_policy session w :
  let run := Terminate session in
  match KeepLostClients (repo w) with
  | None =>
      let '(err, rp) := Repository_Delete session (sessions w) (repo w) in
      run w = Done err (emit (EvDelete session err) (set_repo rp w)) ∧
      calls run w = [EvDelete session err] ∧
      sessions (world_of (run w)) = sessions w
  | Some _ =>
      match session with
      | Some l =>
          match sessions w !! l with
          | Some c =>
              let now := {| instant := wallclock w; location := UTC |} in
              let stamped :=
                <[l := {| ID := ID c; Name := Name c; Tags := Tags c;
                          OS := OS c; Hostname := Hostname c;
                          Version := Version c; IPv4 := IPv4 c;
                          IPv6 := IPv6 c; Address := Address c;
                          Tunnels := Tunnels c; Connection := Connection c;
                          Context := Context c; User := User c;
                          Logger := Logger c;
                          Disconnected := Some now |}]> (sessions w) in
              let '(err, rp) := Repository_Save session stamped (repo w) in
              run w =
                Done err
                  (emit (EvSave session err)
                     (set_repo rp (set_sessions stamped w))) ∧
              calls run w = [EvSave session err] ∧
              sessions (world_of (run w)) = stamped ∧
              Disconnected <$> sessions (world_of (run w)) !! l =
                Some (Some now)
          | None => run w = Panic w
          end
      | None => run w = Panic w
      end
  end.
Proof.
  intros run. subst run. pose proof (Terminate_run session w) as Hrun.
  destruct (KeepLostClients (repo w)).
  - destruct session as [l|]; [|done].
    destruct (sessions w !! l) as [c|]; [|done].
    unfold call_Save, ClientSession_set_Disconnected in Hrun. cbn in Hrun.
    cbv zeta.
    destruct (Repository_Save _ _ _) as [err rp].
    split_and!; [done| |by rewrite Hrun|].
    + apply calls_of_trace. by rewrite Hrun.
    + rewrite Hrun. cbn. by rewrite lookup_insert_eq.
  - unfold call_Delete in Hrun.
    destruct (Repository_Delete _ _ _) as [err rp].
    split_and!; [done| |by rewrite Hrun].
    apply calls_of_trace. by rewrite Hrun.
Qed.

(** ** The disconnection timestamp across the operations *)

Lemma replay_Disconnected session evs c :
  (∀ c r acl, Disconnected (ClientSession_StartTunnel c r acl).2 = Disconnected c) →
  Disconnected (replay session evs c) = Disconnected c.
Proof.
  intros Hkeep. revert c.
  induction evs as [|ev evs IH]; intros c; [done|].
  destruct ev; cbn; try apply IH.
  case_decide; [|apply IH]. by rewrite IH, Hkeep.
Qed.

(** One operation.  Provided [StartTunnel] leaves the timestamp of the
    session alone, an operation of the service leaves the disconnection
    timestamp of every session object as it was, unless it is [Terminate]
    on that session with the flag [KeepLostClients] present.  No session
    object disappears, and a session object that an operation creates has
    no timestamp. *)
Lemma Disconnected_step op w l :
  (∀ c r acl, Disconnected (ClientSession_StartTunnel c r acl).2 = Disconnected c) →
  match sessions w !! l, sessions (exec op w) !! l with
  | Some c, Some c' =>
      Disconnected c' = Disconnected c ∨
      (op = OpTerminate (Some l) ∧ is_Some (KeepLostClients (repo w)) ∧
       Disconnected c' = Some (mkTime (wallclock w) UTC))
  | Some _, None => False
  | None, Some c' => Disconnected c' = None
  | None, None => True
  end.
Proof.
  intros Hkeep.
  assert (∀ w', sessions w' = sessions w →
    match sessions w !! l, sessions w' !! l with
    | Some c, Some c' =>
        Disconnected c' = Disconnected c ∨
        (op = OpTerminate (Some l) ∧ is_Some (KeepLostClients (repo w)) ∧
         Disconnected c' = Some (mkTime (wallclock w) UTC))
    | Some _, None => False
    | None, Some c' => Disconnected c' = None
    | None, None => True
    end) as Hsame.
  { intros w' ->. destruct (sessions w !! l); auto. }
  destruct op as [|id| |ctx sid sshConn req user clog|session batch acl|session];
    cbn [exec].
  - apply Hsame. pose proof (accessors_run EmptyString w) as (Hc & _ & _).
    destruct (Repository_Count _ _) as [res rp]. by rewrite Hc.
  - apply Hsame. pose proof (accessors_run id w) as (_ & Hc & _).
    destruct (Repository_GetActiveByID _ _ _) as [res rp]. by rewrite Hc.
  - apply Hsame. pose proof (accessors_run EmptyString w) as (_ & _ & Hc).
    destruct (Repository_GetAll _ _) as [res rp]. by rewrite Hc.
  - destruct (StartClientSession_sessions ctx sid sshConn req user clog w)
      as (l0 & evs & Hf & ->).
    destruct (decide (l0 = l)) as [->|Hne].
    + rewrite Hf, lookup_insert_eq. by rewrite replay_Disconnected.
    + rewrite lookup_insert_ne by done. destruct (sessions w !! l); auto.
  - destruct (StartSessionTunnels_frame session batch acl w)
      as (evs & _ & _ & _ & _ & Hs & _).
    destruct session as [l0|]; [|by apply Hsame].
    destruct (sessions w !! l0) as [c0|] eqn:Hc0; [|by apply Hsame].
    rewrite Hs. destruct (decide (l0 = l)) as [->|Hne].
    + rewrite Hc0, lookup_insert_eq. left. by apply replay_Disconnected.
    + rewrite lookup_insert_ne by done. destruct (sessions w !! l); auto.
  - pose proof (Terminate_run session w) as Hrun.
    destruct (KeepLostClients (repo w)) as [d|] eqn:Hd.
    + destruct session as [l0|]; [|rewrite Hrun; by apply Hsame].
      destruct (sessions w !! l0) as [c0|] eqn:Hc0;
        [|rewrite Hrun; by apply Hsame].
      unfold call_Save in Hrun. cbn in Hrun.
      destruct (Repository_Save _ _ _) as [err rp]. rewrite Hrun. cbn.
      destruct (decide (l0 = l)) as [->|Hne].
      * rewrite Hc0, lookup_insert_eq. right. by eauto.
      * rewrite lookup_insert_ne by done. destruct (sessions w !! l); auto.
    + unfold call_Delete in Hrun.
      destruct (Repository_Delete _ _ _) as [err rp]. rewrite Hrun.
      by apply Hsame.
Qed.

(** [Terminate] on a session object, by the flag: with the flag present the
    timestamp is the reading of the clock in UTC, without it the object is
    as it was. *)
Lemma Terminate_stamps l c w :
  sessions w !! l = Some c →
  ∃ c', sessions (world_of (Terminate (Some l) w)) !! l = Some c' ∧
    Disconnected c' =
      match KeepLostClients (repo w) with
      | Some _ => Some (mkTime (wallclock w) UTC)
      | None => Disconnected c
      end.
Proof.
  intros Hc. pose proof (Terminate_run (Some l) w) as Hrun.
  destruct (KeepLostClients (repo w)).
  - rewrite Hc in Hrun. unfold call_Save in Hrun. cbn in Hrun.
    destruct (Repository_Save _ _ _) as [err rp]. rewrite Hrun. cbn.
    rewrite lookup_insert_eq. by eexists.
  - unfold call_Delete in Hrun.
    destruct (Repository_Delete _ _ _) as [err rp]. rewrite Hrun. cbn.
    by exists c.
Qed.

Lemma history_app steps1 steps2 w :
  history (steps1 ++ steps2) w = history steps2 (history steps1 w).
Proof. apply foldl_app. Qed.

(** Operations other than [Terminate] on the session leave its timestamp
    as it was, however many they are. *)
Lemma history_keeps steps w l c :
  (∀ c r acl, Disconnected (ClientSession_StartTunnel c r acl).2 = Disconnected c) →
  Forall (λ s, s.2 ≠ OpTerminate (Some l)) steps →
  sessions w !! l = Some c →
  ∃ c', sessions (history steps w) !! l = Some c' ∧
        Disconnected c' = Disconnected c.
Proof.
  intros Hkeep Hno. revert w c.
  induction Hno as [|[t op] steps Hop _ IH]; intros w c Hc; [by exists c|].
  cbn [history foldl]. cbn in Hop.
  pose proof (Disconnected_step op (set_wallclock t w) l Hkeep) as Hstep.
  cbn [sessions set_wallclock] in Hstep. rewrite Hc in Hstep.
  destruct (sessions (exec op (set_wallclock t w)) !! l) as [c1|] eqn:Hc1;
    [|done].
  destruct Hstep as [Heq|(-> & _)]; [|done].
  destruct (IH _ _ Hc1) as (c' & Hc' & Hd). exists c'. split; [done|].
  congruence.
Qed.

(** A timestamp that is set stays set, whatever the operations. *)
Lemma history_never_cleared steps w l c :
  (∀ c r acl, Disconnected (ClientSession_StartTunnel c r acl).2 = Disconnected c) →
  sessions w !! l = Some c →
  ∃ c', sessions (history steps w) !! l = Some c' ∧
        (is_Some (Disconnected c) → is_Some (Disconnected c')).
Proof.
  intros Hkeep. revert w c.
  induction steps as [|[t op] steps IH]; intros w c Hc; [by exists c|].
  cbn [history foldl].
  pose proof (Disconnected_step op (set_wallclock t w) l Hkeep) as Hstep.
  cbn [sessions set_wallclock] in Hstep. rewrite Hc in Hstep.
  destruct (sessions (exec op (set_wallclock t w)) !! l) as [c1|] eqn:Hc1;
    [|done].
  destruct (IH _ _ Hc1) as (c' & Hc' & Hd). exists c'. split; [done|].
  intros Hset. apply Hd.
  destruct Hstep as [->|(_ & _ & ->)]; [done|by eexists].
Qed.

(** C7.  Provided [StartTunnel] leaves the timestamp of the session alone:
    no operation of the service removes a session object or gives a
    timestamp to another session than the one [Terminate] is called on,
    and an object an operation creates is new and has no timestamp;
    [Terminate] on a session, with lost clients retained, sets its
    timestamp to the reading of the clock in UTC; a timestamp that is set
    stays set, whatever the operations that follow.
    And when [Terminate] is called once on a session, as the owner of the
    connection is to do, the timestamp, absent before, is absent up to
    that call and from that call on is the reading of the clock at the
    call, in UTC, if lost clients are retained; it stays absent if they
    are not. *)
Theorem Disconnected_set_once :
  (∀ c r acl, Disconnected (ClientSession_StartTunnel c r acl).2 = Disconnected c) →
  (∀ op w l,
     match sessions w !! l, sessions (exec op w) !! l with
     | Some c, Some c' =>
         Disconnected c' = Disconnected c ∨
         (op = OpTerminate (Some l) ∧ is_Some (KeepLostClients (repo w)) ∧
          Disconnected c' = Some (mkTime (wallclock w) UTC))
     | Some _, None => False
     | None, Some c' => Disconnected c' = None
     | None, None => True
     end) ∧
  (∀ w l c,
     sessions w !! l = Some c → is_Some (KeepLostClients (repo w)) →
     ∃ c', sessions (exec (OpTerminate (Some l)) w) !! l = Some c' ∧
           Disconnected c' =
             Some {| instant := wallclock w; location := UTC |}) ∧
  (∀ steps w l c,
     sessions w !! l = Some c →
     ∃ c', sessions (history steps w) !! l = Some c' ∧
           (is_Some (Disconnected c) → is_Some (Disconnected c'))) ∧
  (∀ before t after w l c,
     sessions w !! l = Some c → Disconnected c = None →
     Forall (λ s, s.2 ≠ OpTerminate (Some l)) (before ++ after) →
     let steps := before ++ (t, OpTerminate (Some l)) :: after in
     ∀ k, ∃ c',
       sessions (history (take k steps) w) !! l = Some c' ∧
       Disconnected c' =
         if decide (k ≤ length before)%nat then None
         else match KeepLostClients (repo (history before w)) with
              | Some _ => Some {| instant := t; location := UTC |}
              | None => None
              end).
Proof.
  intros Hkeep. split_and!.
  - intros op w l. by apply Disconnected_step.
  - intros w l c Hc [d Hd].
    destruct (Terminate_stamps l c w Hc) as (c' & Hc' & Hs).
    rewrite Hd in Hs. by exists c'.
  - intros steps w l c. by apply history_never_cleared.
  - intros before t after w l c Hc Hnone Hno steps k. subst steps.
    apply Forall_app in Hno. destruct Hno as [Hbefore Hafter].
    case_decide as Hk.
    + rewrite take_app_le by done.
      destruct (history_keeps (take k before) w l c Hkeep) as (c' & Hc' & Hd);
        [by apply Forall_take|done|].
      exists c'. split; [done|]. congruence.
    + destruct (history_keeps before w l c Hkeep Hbefore Hc)
        as (c0 & Hc0 & Hd0).
      destruct (Terminate_stamps l c0 (set_wallclock t (history before w)))
        as (c1 & Hc1 & Hd1); [done|].
      cbn [repo wallclock set_wallclock] in Hd1.
      assert (take k (before ++ (t, OpTerminate (Some l)) :: after) =
              before ++ [(t, OpTerminate (Some l))]
                ++ take (k - S (length before)) after) as ->.
      { rewrite take_app_ge by lia.
        replace (k - length before)%nat
          with (S (k - S (length before))) by lia. done. }
      rewrite !history_app.
      destruct (history_keeps (take (k - S (length before)) after)
                  (history [(t, OpTerminate (Some l))] (history before w))
                  l c1 Hkeep) as (c' & Hc' & Hd);
        [by apply Forall_take|done|].
      exists c'. split; [done|]. rewrite Hd, Hd1.
      destruct (KeepLostClients _); [done|congruence].
Qed.

End Service.

(** * Runs on the collaborators of the specification *)

Lemma StartSessionTunnels_preserves_order_witness :
  ∃ ts w',
    StartSessionTunnels (Some 1%positive) SpecModel.batch_mixed
      TunnelACL_zero (SpecModel.world0 None) = Done (ts, None) w' ∧
    ∃ l, ts = Some l ∧
      length l = length (elems SpecModel.batch_mixed) ∧
      attempted (calls (StartSessionTunnels (Some 1%positive)
                          SpecModel.batch_mixed TunnelACL_zero)
                   (SpecModel.world0 None)) =
        elems SpecModel.batch_mixed ∧
      started (calls (StartSessionTunnels (Some 1%positive)
                        SpecModel.batch_mixed TunnelACL_zero)
                 (SpecModel.world0 None)) =
        zip (elems SpecModel.batch_mixed) l.
Proof.
  eexists _, _. split; [vm_compute; reflexivity|].
  eapply StartSessionTunnels_preserves_order. vm_compute. reflexivity.
Defined.

Lemma StartSessionTunnels_fail_fast_witness :
  let run := StartSessionTunnels (Some 1%positive) SpecModel.batch_failing
               TunnelACL_zero in
  let w := SpecModel.world0 None in
  let ev := SpecModel.failing_call in
  ev ∈ calls run w ∧ is_failed_start ev = true ∧
  ∃ evs0 k remote r t e l c,
    ev = EvStartTunnel (Some 1%positive) remote r TunnelACL_zero t (Some e) ∧
    run w = Done (None, Some e) (world_of (run w)) ∧
    calls run w = evs0 ++ [ev] ∧
    Forall (λ ev, is_failed_start ev = false) evs0 ∧
    elems SpecModel.batch_failing !! k = Some remote ∧
    attempted (calls run w) = take (S k) (elems SpecModel.batch_failing) ∧
    Forall (λ ev, is_repository_call ev = false) (calls run w) ∧
    repo (world_of (run w)) = repo w ∧
    Some 1%positive = Some l ∧ sessions w !! l = Some c ∧
    sessions (world_of (run w)) =
      <[l := replay (Some 1%positive) (calls run w) c]> (sessions w).
Proof.
  assert (SpecModel.failing_call ∈
          calls (StartSessionTunnels (Some 1%positive) SpecModel.batch_failing
                   TunnelACL_zero) (SpecModel.world0 None)) as Hin.
  { vm_compute. repeat constructor. }
  split; [exact Hin|]. split; [reflexivity|].
  exact (StartSessionTunnels_fail_fast (Some 1%positive)
           SpecModel.batch_failing TunnelACL_zero (SpecModel.world0 None)
           SpecModel.failing_call Hin eq_refl).
Defined.

(** Nothing is undone: in the batch whose second remote is malformed, what
    [StartTunnel] did to the session for the first remote is still there
    when [StartSessionTunnels] returns the error. *)
Example StartSessionTunnels_keeps_started_tunnels :
  let run := StartSessionTunnels (Some 1%positive) SpecModel.batch_failing
               TunnelACL_zero in
  let w := SpecModel.world0 None in
  SpecModel.failing_call ∈ calls run w ∧
  is_failed_start SpecModel.failing_call = true ∧
  (∃ w', run w = Done (None, Some SpecModel.InvalidTunnelSpec) w') ∧
  Tunnels <$> sessions w !! 1%positive = Some (Some []) ∧
  Tunnels <$> sessions (world_of (run w)) !! 1%positive =
    Some (Some [Some (SpecModel.mkTunnelRule SpecModel.remote_explicit
                        TunnelACL_zero)]) ∧
  sessions (world_of (run w)) ≠ sessions w.
Proof.
  split_and!.
  - vm_compute. repeat constructor.
  - reflexivity.
  - eexists. vm_compute. reflexivity.
  - vm_compute. reflexivity.
  - vm_compute. reflexivity.
  - intros Heq.
    apply (f_equal (λ m, Tunnels <$> m !! 1%positive)) in Heq.
    vm_compute in Heq. discriminate.
Qed.

Lemma StartSessionTunnels_local_endpoint_witness :
  let run := StartSessionTunnels (Some 1%positive) SpecModel.batch_mixed
               TunnelACL_zero in
  let w := SpecModel.world0 None in
  let w' := world_of (run w) in
  (PortDistributor_Refresh (portDistributor w)).1 = None ∧
  ∃ segs stop,
    calls run w = EvRefresh None :: concat segs ∧
    turns (Some 1%positive) TunnelACL_zero
      (PortDistributor_Refresh (portDistributor w)).2 (remotes w)
      (elems SpecModel.batch_mixed) segs stop
      (portDistributor w') (remotes w') ∧
    match stop with
    | None => ∃ ts, run w = Done (ts, None) w'
    | Some (Returned e) => run w = Done (None, Some e) w'
    | Some Crashed => run w = Panic w'
    | Some (Started _) => False
    end.
Proof.
  intros run w w'. split; [reflexivity|].
  exact (StartSessionTunnels_local_endpoint (Some 1%positive)
           SpecModel.batch_mixed TunnelACL_zero (SpecModel.world0 None)).
Defined.


(** The port written back in that run, and the explicit endpoint next to
    it. *)
Example batch_mixed_remotes :
  let w' := world_of (StartSessionTunnels (Some 1%positive)
                        SpecModel.batch_mixed TunnelACL_zero
                        (SpecModel.world0 None)) in
  remotes w' !! 1%positive =
    Some (mkRemote "0.0.0.0" "20000" "10.0.0.5" "3389") ∧
  remotes w' !! 2%positive = Some SpecModel.remote_explicit ∧
  remotes w' !! 3%positive =
    Some (mkRemote "0.0.0.0" "20003" "10.0.0.6" "80") ∧
  remotes w' !! 4%positive = Some SpecModel.remote_malformed.
Proof. vm_compute. by split_and!. Qed.

Lemma SpecModel_StartTunnel_Disconnected c r acl :
  Disconnected (ClientSession_StartTunnel c r acl).2 = Disconnected c.
Proof. cbn. unfold SpecModel.StartTunnel. by repeat case_match. Qed.

Lemma Disconnected_set_once_witness :
  let w := SpecModel.world0 (Some 3600) in
  let before := [(1700000010, OpCount)] in
  let after :=
    [(1700000100, OpGetAll);
     (1700000200,
      OpStartSessionTunnels (Some 1%positive) SpecModel.batch_mixed
        TunnelACL_zero)] in
  let steps := before ++ (1700000060, OpTerminate (Some 1%positive)) :: after in
  (∀ c r acl,
     Disconnected (ClientSession_StartTunnel c r acl).2 = Disconnected c) ∧
  sessions w !! 1%positive = Some SpecModel.session0 ∧
  Disconnected SpecModel.session0 = None ∧
  Forall (λ s, s.2 ≠ OpTerminate (Some 1%positive)) (before ++ after) ∧
  ∀ k, ∃ c',
    sessions (history (take k steps) w) !! 1%positive = Some c' ∧
    Disconnected c' =
      if decide (k ≤ length before)%nat then None
      else match KeepLostClients (repo (history before w)) with
           | Some _ => Some {| instant := 1700000060; location := UTC |}
           | None => None
           end.
Proof.
  intros w before after steps.
  assert (sessions w !! 1%positive = Some SpecModel.session0) as Hc
    by reflexivity.
  assert (Disconnected SpecModel.session0 = None) as Hnone by reflexivity.
  assert (Forall (λ s, s.2 ≠ OpTerminate (Some 1%positive)) (before ++ after))
    as Hno by (repeat constructor; discriminate).
  split_and!;
    [exact SpecModel_StartTunnel_Disconnected|exact Hc|exact Hnone|exact Hno|].
  exact (proj2 (proj2 (proj2 (Disconnected_set_once
                                SpecModel_StartTunnel_Disconnected)))
           before 1700000060 after w 1%positive SpecModel.session0
           Hc Hnone Hno).
Defined.

(** What the one call buys: a client connects, the session is terminated
    with lost clients retained, and a minute later it is terminated again,
    against the rule; [Terminate] has no guard of its own, and the second
    call stamps the session anew. *)
Example Terminate_twice_restamps :
  let w1 := exec (OpStartClientSession () "sid-1" "198.51.100.9:40022"
                    (SpecModel.request0 [Some 1; Some 2]%positive) "op" ())
              (SpecModel.world_unconnected (Some 3600)) in
  let w2 := exec (OpTerminate (Some 1%positive)) w1 in
  let w3 := exec (OpTerminate (Some 1%positive))
              (set_wallclock 1700000060 w2) in
  Disconnected <$> sessions w1 !! 1%positive = Some None ∧
  Disconnected <$> sessions w2 !! 1%positive =
    Some (Some (mkTime 1700000000 UTC)) ∧
  Disconnected <$> sessions w3 !! 1%positive =
    Some (Some (mkTime 1700000060 UTC)) ∧
  Disconnected <$> sessions w3 !! 1%positive ≠
    Disconnected <$> sessions w2 !! 1%positive.
Proof.
  split_and!; try (vm_compute; reflexivity).
  vm_compute. discriminate.
Qed.

(** A client connects with two forwards: the session is returned, saved,
    and found by its identifier. *)
Example connect_persists :
  let out := SpecModel.connect [Some 1; Some 2]%positive
               (SpecModel.world_unconnected None) in
  (∃ w', out = Done (Some 1%positive, None) w') ∧
  saved (calls (SpecModel.connect [Some 1; Some 2]%positive)
           (SpecModel.world_unconnected None)) = [Some 1%positive] ∧
  (∃ w'', GetActiveByID "sid-1" (world_of out) =
            Done (Some 1%positive, None) w'') ∧
  (∃ w'', Count (world_of out) = Done (1, None) w'').
Proof.
  split_and!;
    first [vm_compute; reflexivity | eexists; vm_compute; reflexivity].
Qed.

(** A client connects with a malformed forward after a good one: an error
    is returned, nothing is saved, the repository stays empty. *)
Example connect_malformed_not_persisted :
  let out := SpecModel.connect [Some 2; Some 4]%positive
               (SpecModel.world_unconnected None) in
  (∃ w', out = Done (None, Some SpecModel.InvalidTunnelSpec) w') ∧
  calls (SpecModel.connect [Some 2; Some 4]%positive)
    (SpecModel.world_unconnected None) ≠ [] ∧
  Forall (λ ev, is_Save ev = false)
    (calls (SpecModel.connect [Some 2; Some 4]%positive)
       (SpecModel.world_unconnected None)) ∧
  (∃ w'', Count (world_of out) = Done (0, None) w'').
Proof.
  split_and!.
  - eexists. vm_compute. reflexivity.
  - vm_compute. discriminate.
  - vm_compute. repeat constructor.
  - eexists. vm_compute. reflexivity.
Qed.

(** The backend is down: [Save] fails, an error is returned, the
    repository stays empty. *)
Example connect_backend_down_not_persisted :
  let out := SpecModel.connect [Some 1; Some 2]%positive
               SpecModel.world_backend_down in
  (∃ w', out = Done (None, Some SpecModel.StorageFailure) w') ∧
  saved (calls (SpecModel.connect [Some 1; Some 2]%positive)
           SpecModel.world_backend_down) = [] ∧
  SpecModel.records (repo (world_of out)) = ∅.
Proof.
  split_and!;
    first [vm_compute; reflexivity | eexists; vm_compute; reflexivity].
Qed.

(** Lost clients are not retained: after [Terminate] the session is gone
    from the repository and carries no timestamp. *)
Example Terminate_deletes :
  let w1 := world_of (SpecModel.connect [Some 1; Some 2]%positive
                        (SpecModel.world_unconnected None)) in
  let w2 := world_of (Terminate (Some 1%positive) w1) in
  (∃ w', Terminate (Some 1%positive) w1 = Done None w') ∧
  Disconnected <$> sessions w2 !! 1%positive = Some None ∧
  (∃ w', GetActiveByID "sid-1" w2 =
           Done (None, Some SpecModel.NotFound) w') ∧
  (∃ w', GetAll w2 = Done (Some [], None) w') ∧
  (∃ w', Count w2 = Done (0, None) w').
Proof.
  split_and!;
    first [vm_compute; reflexivity | eexists; vm_compute; reflexivity].
Qed.

(** Lost clients are retained: after [Terminate] the session is listed
    with its timestamp, in UTC, and is no longer active. *)
Example Terminate_retains :
  let w1 := world_of (SpecModel.connect [Some 1; Some 2]%positive
                        (SpecModel.world_unconnected (Some 3600))) in
  let w2 := world_of (Terminate (Some 1%positive) w1) in
  (∃ w', Terminate (Some 1%positive) w1 = Done None w') ∧
  Disconnected <$> sessions w2 !! 1%positive =
    Some (Some (mkTime 1700000000 UTC)) ∧
  (∃ w', GetActiveByID "sid-1" w2 =
           Done (None, Some SpecModel.NotFound) w') ∧
  (∃ w', GetAll w2 = Done (Some [Some 1%positive], None) w') ∧
  (∃ w', Count w2 = Done (1, None) w').
Proof.
  split_and!;
    first [vm_compute; reflexivity | eexists; vm_compute; reflexivity].
Qed.

(** [Refresh] cannot query its source: nothing else is called. *)
Example refresh_unavailable :
  let w := mkWorld (SpecModel.mkAllocator [20000] [] None 0)
             (SpecModel.store0 None) (sessions (SpecModel.world0 None))
             (remotes (SpecModel.world0 None)) 1700000000 [] in
  calls (StartSessionTunnels (Some 1%positive) SpecModel.batch_mixed
           TunnelACL_zero) w =
    [EvRefresh (Some SpecModel.ResourceUnavailable)] ∧
  ∃ w', StartSessionTunnels (Some 1%positive) SpecModel.batch_mixed
          TunnelACL_zero w =
        Done (None, Some SpecModel.ResourceUnavailable) w'.
Proof.
  split; [vm_compute; reflexivity|]. eexists. vm_compute. reflexivity.
Qed.

(** A nil remote in the batch: the run panics at its turn. *)
Example nil_remote_panics :
  ∃ w', StartSessionTunnels (Some 1%positive) (Some [Some 2%positive; None])
          TunnelACL_zero (SpecModel.world0 None) = Panic w'.
Proof. eexists. vm_compute. reflexivity. Qed.

(** * Further properties of [StartSessionTunnels] *)

Section Batches.
Context `{Packages}.

(** *** One turn, continued *)

Lemma Resolved_remotes remote w seg r' w1 :
  Resolved remote w seg r' w1 →
  remotes w1 = remotes w ∨
  ∃ l r port, remote = Some l ∧ remotes w !! l = Some r ∧
    remotes w1 = <[l := with_allocated port r]> (remotes w).
Proof.
  destruct 1 as [l r -> Hr Hs|l r port d -> Hr Hs Hp]; [by left|].
  right. by exists l, r, port.
Qed.

(** A turn overwrites at most the remote it is for. *)
Lemma Turn_remotes session acl remote w seg e w1 :
  Turn session acl remote w seg e w1 →
  remotes w1 = remotes w ∨
  ∃ l r port, remote = Some l ∧ remotes w !! l = Some r ∧
    remotes w1 = <[l := with_allocated port r]> (remotes w).
Proof.
  destruct 1 as [?|l r port e d -> Hr Hs Hp|seg r' w1 Hres Hnil
                |seg r' w1 l c t err c' Hres -> Hc Hst]; cbn;
    try (by left); by apply Resolved_remotes in Hres.
Qed.

Lemma Turn_deref_remotes session acl remote w seg e w1 p :
  Turn session acl remote w seg e w1 →
  is_Some (deref (remotes w) p) → is_Some (deref (remotes w1) p).
Proof.
  intros HT Hp. destruct (Turn_remotes _ _ _ _ _ _ _ HT)
    as [->|(l & r & port & -> & Hr & ->)]; [done|].
  destruct p as [l'|]; [cbn in *|done].
  destruct (decide (l = l')) as [->|Hne].
  - rewrite lookup_insert_eq. by eexists.
  - by rewrite lookup_insert_ne.
Qed.

Lemma Turn_deref_sessions session acl remote w seg e w1 p :
  Turn session acl remote w seg e w1 →
  is_Some (deref (sessions w) p) → is_Some (deref (sessions w1) p).
Proof.
  intros HT Hp. apply Turn_sessions in HT.
  destruct session as [l|]; [|by rewrite HT].
  destruct (sessions w !! l) as [c|] eqn:Hc; rewrite HT; [|done].
  destruct p as [l'|]; [cbn in *|done].
  destruct (decide (l = l')) as [->|Hne].
  - rewrite lookup_insert_eq. by eexists.
  - by rewrite lookup_insert_ne.
Qed.

(** A turn crashes on a nil remote or a nil session only. *)
Lemma Turn_Crashed session acl remote w seg w1 :
  Turn session acl remote w seg Crashed w1 →
  deref (remotes w) remote = None ∨ deref (sessions w) session = None.
Proof.
  inversion 1 as [?|?????????|??? Hres Hnil|???????? Hres ? Hc Hst Hend];
    subst; auto.
  by destruct err.
Qed.

(** The failed draws of a turn. *)
Lemma Turn_draws session acl remote w seg e w1 :
  Turn session acl remote w seg e w1 →
  match e with
  | Returned e =>
      (∃ r port,
         seg = [EvIsLocalSpecified remote r false;
                EvGetRandomPort port (Some e)] ∧
         deref (remotes w1) remote = Some r) ∨
      Forall (λ ev, is_failed_draw ev = false) seg
  | _ => Forall (λ ev, is_failed_draw ev = false) seg
  end.
Proof.
  destruct 1 as [?|l r port e d -> Hr Hs Hp|seg r' w1 Hres Hnil
                |seg r' w1 l c t err c' Hres -> Hc Hst].
  - constructor.
  - left. by exists r, port.
  - destruct Hres; repeat constructor.
  - assert (Forall (λ ev, is_failed_draw ev = false)
              (seg ++ [EvStartTunnel (Some l) remote r' acl t err])).
    { apply Forall_app. split; [destruct Hres|]; repeat constructor. }
    destruct err; cbn; auto.
Qed.

(** A turn for a remote whose local endpoint is specified draws no port
    and leaves the allocator and the remote objects alone. *)
Lemma Turn_specified session acl remote w seg e w1 :
  Turn session acl remote w seg e w1 →
  specified_in (remotes w) remote →
  Forall (λ ev, is_draw ev = false) seg ∧
  portDistributor w1 = portDistributor w ∧
  remotes w1 = remotes w.
Proof.
  intros HT (r0 & Hr0 & Hs0).
  assert (∀ seg r' w1, Resolved remote w seg r' w1 →
    Forall (λ ev, is_draw ev = false) seg ∧
    portDistributor w1 = portDistributor w ∧ remotes w1 = remotes w) as Hres'.
  { intros ??? [l r -> Hr Hs|l r port d -> Hr Hs Hp]; cbn in Hr0.
    - split_and!; try done. repeat constructor.
    - congruence. }
  destruct HT as [Hnil|l r port e d -> Hr Hs Hp|seg r' w1 Hres Hnil
                 |seg r' w1 l c t err c' Hres -> Hc Hst]; cbn in *.
  - congruence.
  - congruence.
  - by eapply Hres'.
  - destruct (Hres' _ _ _ Hres) as (? & ? & ?). split_and!; try done.
    apply Forall_app. split; [done|]. repeat constructor.
Qed.

(** *** The loop, continued *)

Lemma Loop_remotes session acl rs ts w segs out :
  Loop session acl rs ts w segs out →
  dom (remotes (world_of out)) = dom (remotes w) ∧
  ∀ l, Some l ∉ rs → remotes (world_of out) !! l = remotes w !! l.
Proof.
  assert (∀ remote w seg e w1, Turn session acl remote w seg e w1 →
    dom (remotes w1) = dom (remotes w) ∧
    ∀ l, remote ≠ Some l → remotes w1 !! l = remotes w !! l) as Hturn.
  { intros remote w0 seg e w1 HT.
    destruct (Turn_remotes _ _ _ _ _ _ _ HT)
      as [->|(l & r & port & -> & Hr & ->)]; [done|].
    split.
    - rewrite dom_insert_L. apply subseteq_union_1_L, singleton_subseteq_l.
      apply elem_of_dom. by eexists.
    - intros l' Hne. apply lookup_insert_ne. congruence. }
  induction 1 as [ts w|remote rest ts w seg t w1 segs out HT _ IH
                 |remote rest ts w seg e w1 HT|remote rest ts w seg w1 HT];
    cbn [world_of].
  - done.
  - destruct (Hturn _ _ _ _ _ HT) as [Hd Ho]. destruct IH as [IHd IHo].
    split; [congruence|]. intros l Hnot.
    apply not_elem_of_cons in Hnot. destruct Hnot as [Hne Hnot].
    rewrite IHo by done. apply Ho. congruence.
  - destruct (Hturn _ _ _ _ _ HT) as [Hd Ho]. split; [done|].
    intros l Hnot. apply not_elem_of_cons in Hnot. apply Ho.
    destruct Hnot. congruence.
  - destruct (Hturn _ _ _ _ _ HT) as [Hd Ho]. split; [done|].
    intros l Hnot. apply not_elem_of_cons in Hnot. apply Ho.
    destruct Hnot. congruence.
Qed.

Lemma Loop_returns session acl rs ts w segs out :
  Loop session acl rs ts w segs out →
  is_Some (deref (sessions w) session) →
  Forall (λ p, is_Some (deref (remotes w) p)) rs →
  ∃ res w', out = Done res w'.
Proof.
  induction 1 as [ts w|remote rest ts w seg t w1 segs out HT _ IH
                 |remote rest ts w seg e w1 HT|remote rest ts w seg w1 HT];
    intros Hs Hrs.
  - by eexists _, _.
  - apply Forall_cons in Hrs. destruct Hrs as [_ Hrs]. apply IH.
    + by eapply Turn_deref_sessions.
    + eapply Forall_impl; [exact Hrs|]. intros p.
      by eapply Turn_deref_remotes.
  - by eexists _, _.
  - apply Forall_cons in Hrs. destruct Hrs as [Hr _].
    apply Turn_Crashed in HT. destruct HT as [Hn|Hn]; rewrite Hn in *;
      by destruct Hr, Hs.
Qed.

Lemma Loop_draw_failed session acl rs ts w segs out port e :
  Loop session acl rs ts w segs out →
  EvGetRandomPort port (Some e) ∈ concat segs →
  ∃ evs0 r k remote,
    out = Done (None, Some e) (world_of out) ∧
    concat segs =
      evs0 ++ [EvIsLocalSpecified remote r false;
               EvGetRandomPort port (Some e)] ∧
    Forall (λ ev, is_failed_draw ev = false) evs0 ∧
    Forall (λ ev, is_failed_start ev = false) (concat segs) ∧
    rs !! k = Some remote ∧
    attempted (concat segs) = take k rs ∧
    deref (remotes (world_of out)) remote = Some r.
Proof.
  intros HL Hin.
  assert (∀ seg, Forall (λ ev, is_failed_draw ev = false) seg →
                 EvGetRandomPort port (Some e) ∉ seg) as Hno.
  { intros seg Hok Hin'. rewrite Forall_forall in Hok.
    by apply Hok in Hin'. }
  induction HL as [ts w|remote rest ts w seg t w1 segs out HT _ IH
                  |remote rest ts w seg e' w1 HT|remote rest ts w seg w1 HT];
    cbn [concat] in *; rewrite ?app_nil_r in *.
  - by apply elem_of_nil in Hin.
  - pose proof (Turn_draws _ _ _ _ _ _ _ HT) as Hd. cbn in Hd.
    apply Turn_starts in HT. destruct HT as (Ha & _ & Hok).
    apply elem_of_app in Hin. destruct Hin as [Hin|Hin];
      [by apply Hno in Hin|].
    destruct (IH Hin) as (evs0 & r & k & rp & Hout & Hcat & Hpre & Hst & Hk & Hatt & Hr).
    exists (seg ++ evs0), r, (S k), rp.
    split_and!; try done.
    + by rewrite Hcat, (assoc_L (++)).
    + by apply Forall_app.
    + by apply Forall_app.
    + unfold attempted in *. by rewrite omap_app, Ha, Hatt.
  - pose proof (Turn_draws _ _ _ _ _ _ _ HT) as Hd. cbn in Hd.
    destruct Hd as [(r & port' & -> & Hr)|Hd]; [|by apply Hno in Hin].
    assert (port' = port ∧ e' = e) as [-> ->].
    { apply elem_of_cons in Hin. destruct Hin as [|Hin]; [done|].
      apply list_elem_of_singleton in Hin. by injection Hin. }
    exists [], r, 0%nat, remote. split_and!; try done.
    repeat constructor.
  - pose proof (Turn_draws _ _ _ _ _ _ _ HT) as Hd. cbn in Hd.
    by apply Hno in Hin.
Qed.

(** A batch of remotes whose local endpoints are all specified draws no
    port. *)
Lemma Loop_all_specified session acl rs ts w segs out :
  Loop session acl rs ts w segs out →
  Forall (specified_in (remotes w)) rs →
  Forall (λ ev, is_draw ev = false) (concat segs) ∧
  portDistributor (world_of out) = portDistributor w ∧
  remotes (world_of out) = remotes w.
Proof.
  induction 1 as [ts w|remote rest ts w seg t w1 segs out HT _ IH
                 |remote rest ts w seg e w1 HT|remote rest ts w seg w1 HT];
    intros Hrs; cbn [concat world_of]; rewrite ?app_nil_r.
  - by split_and!.
  - apply Forall_cons in Hrs. destruct Hrs as [Hr Hrs].
    destruct (Turn_specified _ _ _ _ _ _ _ HT Hr) as (Hd & Hp & Hrem).
    rewrite Hrem, Hp in IH. destruct (IH Hrs) as (IHd & IHp & IHrem).
    split_and!; try done. by apply Forall_app.
  - apply Forall_cons in Hrs. destruct Hrs as [Hr _].
    by apply (Turn_specified _ _ _ _ _ _ _ HT).
  - apply Forall_cons in Hrs. destruct Hrs as [Hr _].
    by apply (Turn_specified _ _ _ _ _ _ _ HT).
Qed.

(** A remote object whose local endpoint is specified stays as it is. *)
Lemma Turn_keeps_specified session acl remote w seg e w1 l r :
  Turn session acl remote w seg e w1 →
  remotes w !! l = Some r → Remote_IsLocalSpecified r = true →
  remotes w1 !! l = Some r.
Proof.
  intros HT Hr Hs. destruct (decide (remote = Some l)) as [->|Hne].
  - destruct (Turn_specified _ _ _ _ _ _ _ HT) as (_ & _ & ->); [|done].
    by exists r.
  - destruct (Turn_remotes _ _ _ _ _ _ _ HT)
      as [->|(l0 & r0 & port & -> & Hr0 & ->)]; [done|].
    rewrite lookup_insert_ne; [done|congruence].
Qed.

Lemma Loop_keeps_specified session acl rs ts w segs out l r :
  Loop session acl rs ts w segs out →
  remotes w !! l = Some r → Remote_IsLocalSpecified r = true →
  remotes (world_of out) !! l = Some r.
Proof.
  induction 1 as [ts w|remote rest ts w seg t w1 segs out HT _ IH
                 |remote rest ts w seg e w1 HT|remote rest ts w seg w1 HT];
    intros Hr Hs; cbn [world_of]; try done;
    try by eapply Turn_keeps_specified.
  apply IH; [|done]. by eapply Turn_keeps_specified.
Qed.

Lemma Turn_Started_specified session acl remote w seg t w1 :
  (∀ port r, Remote_IsLocalSpecified (with_allocated port r) = true) →
  Turn session acl remote w seg (Started t) w1 →
  specified_in (remotes w1) remote.
Proof.
  intros Hall. inversion 1 as [?|?????????|??? Hres Hnil
                              |seg0 r' w0 l c t0 err c' Hres ? Hc Hst Hend];
    subst.
  exists r'. split.
  - cbn. by apply Resolved_deref in Hres.
  - by destruct Hres.
Qed.

Lemma Loop_success_specified session acl rs ts w segs ts' w' :
  (∀ port r, Remote_IsLocalSpecified (with_allocated port r) = true) →
  Loop session acl rs ts w segs (Done (ts', None) w') →
  Forall (specified_in (remotes w')) rs.
Proof.
  intros Hall HL. remember (Done (ts', None) w') as out eqn:Hout.
  induction HL as [ts w|remote rest ts w seg t w1 segs out HT HL IH
                  |remote rest ts w seg e w1 HT|remote rest ts w seg w1 HT];
    try done.
  constructor; [|by apply IH].
  destruct (Turn_Started_specified _ _ _ _ _ _ _ Hall HT) as (r & Hr & Hs).
  exists r. split; [|done]. destruct remote as [l|]; [cbn in *|done].
  pose proof (Loop_keeps_specified _ _ _ _ _ _ _ l r HL Hr Hs) as Hk.
  by rewrite Hout in Hk.
Qed.

(** What the loop does on a batch whose local endpoints are all specified,
    from the world [Refresh] left. *)
Lemma all_specified_no_draw session batch acl w :
  Forall (specified_in (remotes w)) (elems batch) →
  let run := StartSessionTunnels session batch acl in
  Forall (λ ev, is_draw ev = false) (calls run w) ∧
  portDistributor (world_of (run w)) =
    (PortDistributor_Refresh (portDistributor w)).2 ∧
  remotes (world_of (run w)) = remotes w.
Proof.
  intros Hrs run. subst run.
  pose proof (StartSessionTunnels_cases session batch acl w) as Hc.
  destruct ((PortDistributor_Refresh (portDistributor w)).1) as [e|] eqn:He.
  - rewrite (calls_of_trace _ _ [EvRefresh (Some e)]).
    2:{ rewrite Hc. cbn [world_of]. by rewrite refreshed_trace, He. }
    rewrite Hc. split_and!; try done. by repeat constructor.
  - clear Hc. destruct (StartSessionTunnels_Loop session batch acl w He)
      as (segs & HL & Ht).
    rewrite (calls_of_trace _ _ _ Ht).
    destruct (Loop_all_specified _ _ _ _ _ _ _ HL Hrs) as (Hd & Hp & Hr).
    split_and!; try done. by constructor.
Qed.

(** X1.  Whatever the outcome, [StartSessionTunnels] makes no call into
    the repository and leaves it and the clock as they were; it changes no
    session object but the one it is given, and no remote object outside
    the batch; it neither creates nor destroys an object. *)
Theorem StartSessionTunnels_footprint session batch acl w :
  let run := StartSessionTunnels session batch acl in
  let w' := world_of (run w) in
  repo w' = repo w ∧ wallclock w' = wallclock w ∧
  Forall (λ ev, is_repository_call ev = false) (calls run w) ∧
  (∀ l, session ≠ Some l → sessions w' !! l = sessions w !! l) ∧
  dom (sessions w') = dom (sessions w) ∧
  (∀ l, Some l ∉ elems batch → remotes w' !! l = remotes w !! l) ∧
  dom (remotes w') = dom (remotes w).
Proof.
  intros run w'. subst run w'.
  assert ((∀ l, session ≠ Some l →
             sessions (world_of (StartSessionTunnels session batch acl w)) !! l
             = sessions w !! l) ∧
          dom (sessions (world_of (StartSessionTunnels session batch acl w)))
          = dom (sessions w)) as [Hso Hsd].
  { destruct (StartSessionTunnels_frame session batch acl w)
      as (evs & _ & _ & _ & _ & Hs & _).
    destruct session as [l0|]; [|by rewrite Hs].
    destruct (sessions w !! l0) as [c0|] eqn:Hc0; rewrite Hs; [|done].
    split.
    - intros l Hne. apply lookup_insert_ne. congruence.
    - rewrite dom_insert_L. apply subseteq_union_1_L, singleton_subseteq_l.
      apply elem_of_dom. by eexists. }
  pose proof (StartSessionTunnels_cases session batch acl w) as Hc.
  destruct ((PortDistributor_Refresh (portDistributor w)).1) as [e|] eqn:He.
  - rewrite (calls_of_trace _ _ [EvRefresh (Some e)]).
    2:{ rewrite Hc. cbn [world_of]. by rewrite refreshed_trace, He. }
    rewrite Hc in *. split_and!; try done. by repeat constructor.
  - clear Hc. destruct (StartSessionTunnels_Loop session batch acl w He)
      as (segs & HL & Ht).
    rewrite (calls_of_trace _ _ _ Ht).
    destruct (Loop_frame _ _ _ _ _ _ _ HL) as [Hrepo Hclock].
    destruct (Loop_remotes _ _ _ _ _ _ _ HL) as [Hrd Hro].
    split_and!; try done.
    constructor; [done|]. eapply Forall_impl; [by eapply Loop_calls|].
    by intros [].
Qed.

(** X2.  On a nil or empty batch [StartSessionTunnels] calls [Refresh] and
    nothing else, whatever the session pointer (nil included): it returns
    the error of [Refresh] with a nil list, or no error with an empty list
    that is not nil. *)
Theorem StartSessionTunnels_empty_batch session batch acl w :
  elems batch = [] →
  StartSessionTunnels session batch acl w =
  Done (match (PortDistributor_Refresh (portDistributor w)).1 with
        | Some e => (None, Some e)
        | None => (Some [], None)
        end) (refreshed w).
Proof.
  intros Hb. pose proof (StartSessionTunnels_cases session batch acl w) as Hc.
  destruct ((PortDistributor_Refresh (portDistributor w)).1) as [e|]; [done|].
  destruct Hc as [segs HL]. rewrite Hb in HL. by inversion HL.
Qed.

(** X3.  If [GetRandomPort] returns an error, [StartSessionTunnels] returns
    that error with a nil list.  The failed draw is the last call of the
    run, right after the [IsLocalSpecified] call that found the remote
    without a local endpoint; [StartTunnel] was invoked for the remotes
    before that one, each without error, and not for that one; and the
    remote is left as it was found. *)
Theorem StartSessionTunnels_draw_fails session batch acl w port e :
  let run := StartSessionTunnels session batch acl in
  EvGetRandomPort port (Some e) ∈ calls run w →
  ∃ evs0 r k remote,
    run w = Done (None, Some e) (world_of (run w)) ∧
    calls run w =
      evs0 ++ [EvIsLocalSpecified remote r false;
               EvGetRandomPort port (Some e)] ∧
    Forall (λ ev, is_failed_draw ev = false) evs0 ∧
    Forall (λ ev, is_failed_start ev = false) (calls run w) ∧
    elems batch !! k = Some remote ∧
    attempted (calls run w) = take k (elems batch) ∧
    deref (remotes (world_of (run w))) remote = Some r.
Proof.
  intros run Hin. subst run.
  destruct (refresh_outcomes session batch acl w)
    as [(e' & Hcalls)|(He & segs & HL & Ht)].
  { rewrite Hcalls in Hin. by apply list_elem_of_singleton in Hin. }
  rewrite (calls_of_trace _ _ _ Ht) in Hin |- *.
  apply elem_of_cons in Hin. destruct Hin as [|Hin]; [done|].
  destruct (Loop_draw_failed _ _ _ _ _ _ _ _ _ HL Hin)
    as (evs0 & r & k & remote & Hout & Hcat & Hpre & Hst & Hk & Hatt & Hr).
  exists (EvRefresh None :: evs0), r, k, remote.
  split_and!; try done.
  - cbn. by rewrite Hcat.
  - by constructor.
  - by constructor.
Qed.

(** X4.  [StartSessionTunnels] returns, with a list or an error, whenever
    the session pointer and every pointer of the batch point to an object:
    only a nil pointer makes it panic. *)
Theorem StartSessionTunnels_returns session batch acl w :
  is_Some (deref (sessions w) session) →
  Forall (λ p, is_Some (deref (remotes w) p)) (elems batch) →
  ∃ res w', StartSessionTunnels session batch acl w = Done res w'.
Proof.
  intros Hs Hb.
  pose proof (StartSessionTunnels_cases session batch acl w) as Hc.
  destruct ((PortDistributor_Refresh (portDistributor w)).1) as [e|];
    [by eexists _, _|].
  destruct Hc as [segs HL]. by eapply Loop_returns.
Qed.

(** X5.  When every remote of the batch has its local endpoint specified,
    [StartSessionTunnels] never calls [GetRandomPort]: the allocator is as
    [Refresh] left it and no remote object is written. *)
Theorem StartSessionTunnels_all_specified session batch acl w :
  Forall (specified_in (remotes w)) (elems batch) →
  let run := StartSessionTunnels session batch acl in
  Forall (λ ev, is_draw ev = false) (calls run w) ∧
  portDistributor (world_of (run w)) =
    (PortDistributor_Refresh (portDistributor w)).2 ∧
  remotes (world_of (run w)) = remotes w.
Proof. apply all_specified_no_draw. Qed.

(** X6.  Provided a remote with an assigned local endpoint counts as
    specified, a batch that [StartSessionTunnels] has run without error
    needs no port again: every remote of the batch is left specified, and
    a further run on the same remotes, for any session and list, draws no
    port and writes no remote. *)
Theorem StartSessionTunnels_again session batch acl w ts w1 session' acl' :
  (∀ port r, Remote_IsLocalSpecified (with_allocated port r) = true) →
  StartSessionTunnels session batch acl w = Done (ts, None) w1 →
  let run := StartSessionTunnels session' batch acl' in
  Forall (specified_in (remotes w1)) (elems batch) ∧
  Forall (λ ev, is_draw ev = false) (calls run w1) ∧
  remotes (world_of (run w1)) = remotes w1.
Proof.
  intros Hall Hrun run. subst run.
  assert (Forall (specified_in (remotes w1)) (elems batch)) as Hspec.
  { pose proof (StartSessionTunnels_cases session batch acl w) as Hc.
    destruct ((PortDistributor_Refresh (portDistributor w)).1) as [e|];
      [rewrite Hrun in Hc; discriminate|].
    destruct Hc as [segs HL]. rewrite Hrun in HL.
    by eapply Loop_success_specified. }
  split; [done|].
  by destruct (all_specified_no_draw session' batch acl' w1 Hspec)
    as (? & _ & ?).
Qed.

(** X25.  [StartClientSession] returns whenever every pointer among the
    remotes of the request points to an object, and it returns a session
    or an error, never both and never neither.  A session it returns is a
    new object: its address was free before the call and holds the session
    after it. *)
Theorem StartClientSession_returns ctx sid sshConn req user clog w :
  Forall (λ p, is_Some (deref (remotes w) p)) (elems (req_Remotes req)) →
  ∃ res w',
    StartClientSession ctx sid sshConn req user clog w = Done res w' ∧
    (is_Some res.1 ↔ res.2 = None) ∧
    (∀ l, res.1 = Some l →
          sessions w !! l = None ∧ is_Some (sessions w' !! l)).
Proof.
  intros Hb.
  pose proof (StartClientSession_run ctx sid sshConn req user clog w) as Hrun.
  pose proof (allocated_at_fresh
                (ClientSession_literal ctx sid sshConn req user clog) w) as Hf.
  destruct (allocated_at _ w) as [l built] eqn:Hbuilt. cbn in Hf.
  assert (sessions built =
            <[l := ClientSession_literal ctx sid sshConn req user clog]>
              (sessions w) ∧ remotes built = remotes w) as [Hsb Hrb].
  { unfold allocated_at in Hbuilt. by injection Hbuilt as <- <-. }
  assert (∃ res w1, StartSessionTunnels (Some l) (req_Remotes req)
                      TunnelACL_zero built = Done res w1) as (res & w1 & Hst).
  { pose proof (StartSessionTunnels_cases (Some l) (req_Remotes req)
                  TunnelACL_zero built) as Hc.
    destruct ((PortDistributor_Refresh (portDistributor built)).1) as [e|];
      [by eexists _, _|].
    destruct Hc as [segs HL]. eapply Loop_returns; [exact HL|..].
    - cbn. rewrite Hsb, lookup_insert_eq. by eexists.
    - cbn. by rewrite Hrb. }
  destruct (StartSessionTunnels_frame (Some l) (req_Remotes req)
              TunnelACL_zero built)
    as (evs & _ & _ & _ & _ & Hs & _).
  rewrite Hsb, lookup_insert_eq, insert_insert_eq in Hs.
  rewrite Hst in Hrun, Hs. cbn [world_of] in Hs.
  destruct res as [ts [e|]].
  - eexists _, _. split; [exact Hrun|]. cbn. split.
    + split; [by intros [? [=]]|done].
    + by intros l' [=].
  - destruct (Repository_Save _ _ _) as [[e|] rp].
    + eexists _, _. split; [exact Hrun|]. cbn. split.
      * split; [by intros [? [=]]|done].
      * by intros l' [=].
    + eexists _, _. split; [exact Hrun|]. cbn. split.
      * split; [done|by eexists].
      * intros l' [= <-]. split; [done|].
        rewrite Hs, lookup_insert_eq. by eexists.
Qed.

End Batches.

(** * Runs of the further properties *)

Lemma StartSessionTunnels_empty_batch_witness :
  elems (None : slice ptr) = [] ∧
  StartSessionTunnels None None TunnelACL_zero (SpecModel.world0 None) =
  Done (match (PortDistributor_Refresh
                 (portDistributor (SpecModel.world0 None))).1 with
        | Some e => (None, Some e)
        | None => (Some [], None)
        end) (refreshed (SpecModel.world0 None)).
Proof.
  split; [reflexivity|].
  exact (StartSessionTunnels_empty_batch None None TunnelACL_zero
           (SpecModel.world0 None) eq_refl).
Defined.

Lemma StartSessionTunnels_draw_fails_witness :
  let run := StartSessionTunnels (Some 1%positive) SpecRuns.batch_needs_port
               TunnelACL_zero in
  let w := SpecRuns.world_exhausted in
  EvGetRandomPort 0 (Some SpecModel.PoolExhausted) ∈ calls run w ∧
  ∃ evs0 r k remote,
    run w = Done (None, Some SpecModel.PoolExhausted) (world_of (run w)) ∧
    calls run w =
      evs0 ++ [EvIsLocalSpecified remote r false;
               EvGetRandomPort 0 (Some SpecModel.PoolExhausted)] ∧
    Forall (λ ev, is_failed_draw ev = false) evs0 ∧
    Forall (λ ev, is_failed_start ev = false) (calls run w) ∧
    elems SpecRuns.batch_needs_port !! k = Some remote ∧
    attempted (calls run w) = take k (elems SpecRuns.batch_needs_port) ∧
    deref (remotes (world_of (run w))) remote = Some r.
Proof.
  assert (EvGetRandomPort 0 (Some SpecModel.PoolExhausted) ∈
          calls (StartSessionTunnels (Some 1%positive)
                   SpecRuns.batch_needs_port TunnelACL_zero)
            SpecRuns.world_exhausted) as Hin.
  { vm_compute. repeat constructor. }
  split; [exact Hin|].
  exact (StartSessionTunnels_draw_fails (Some 1%positive)
           SpecRuns.batch_needs_port TunnelACL_zero SpecRuns.world_exhausted
           0 SpecModel.PoolExhausted Hin).
Defined.

Lemma StartSessionTunnels_returns_witness :
  is_Some (deref (sessions (SpecModel.world0 None)) (Some 1%positive)) ∧
  Forall (λ p, is_Some (deref (remotes (SpecModel.world0 None)) p))
    (elems SpecModel.batch_mixed) ∧
  ∃ res w',
    StartSessionTunnels (Some 1%positive) SpecModel.batch_mixed
      TunnelACL_zero (SpecModel.world0 None) = Done res w'.
Proof.
  assert (is_Some (deref (sessions (SpecModel.world0 None))
                     (Some 1%positive))) as Hs.
  { vm_compute. by eexists. }
  assert (Forall (λ p, is_Some (deref (remotes (SpecModel.world0 None)) p))
            (elems SpecModel.batch_mixed)) as Hb.
  { repeat constructor; vm_compute; by eexists. }
  split; [exact Hs|]. split; [exact Hb|].
  exact (StartSessionTunnels_returns (Some 1%positive) SpecModel.batch_mixed
           TunnelACL_zero (SpecModel.world0 None) Hs Hb).
Defined.

Lemma StartSessionTunnels_all_specified_witness :
  let run := StartSessionTunnels (Some 1%positive) SpecRuns.batch_explicit
               TunnelACL_zero in
  let w := SpecModel.world0 None in
  Forall (specified_in (remotes w)) (elems SpecRuns.batch_explicit) ∧
  Forall (λ ev, is_draw ev = false) (calls run w) ∧
  portDistributor (world_of (run w)) =
    (PortDistributor_Refresh (portDistributor w)).2 ∧
  remotes (world_of (run w)) = remotes w.
Proof.
  assert (Forall (specified_in (remotes (SpecModel.world0 None)))
            (elems SpecRuns.batch_explicit)) as Hb.
  { repeat constructor. exists SpecModel.remote_explicit. by split. }
  split; [exact Hb|].
  exact (StartSessionTunnels_all_specified (Some 1%positive)
           SpecRuns.batch_explicit TunnelACL_zero (SpecModel.world0 None) Hb).
Defined.

Lemma StartClientSession_returns_witness :
  let w := SpecModel.world_unconnected None in
  Forall (λ p, is_Some (deref (remotes w) p))
    (elems (req_Remotes (SpecModel.request0 [Some 1; Some 2]%positive))) ∧
  ∃ res w',
    SpecModel.connect [Some 1; Some 2]%positive w = Done res w' ∧
    (is_Some res.1 ↔ res.2 = None) ∧
    (∀ l, res.1 = Some l →
          sessions w !! l = None ∧ is_Some (sessions w' !! l)).
Proof.
  intros w.
  assert (Forall (λ p, is_Some (deref (remotes w) p))
            (elems (req_Remotes (SpecModel.request0 [Some 1; Some 2]%positive))))
    as Hb.
  { repeat constructor; vm_compute; by eexists. }
  split; [exact Hb|].
  exact (StartClientSession_returns () "sid-1" "198.51.100.9:40022"
           (SpecModel.request0 [Some 1; Some 2]%positive) "op" () w Hb).
Defined.

Lemma Itoa_nonempty (i : Z) : Itoa i ≠ EmptyString.
Proof.
  intros Heq. pose proof (Itoa_decimal i) as Hd. rewrite Heq in Hd.
  vm_compute in Hd.
  first [discriminate Hd | injection Hd as <-; vm_compute in Heq; discriminate].
Qed.

Lemma SpecModel_allocated_is_specified port r :
  Remote_IsLocalSpecified (with_allocated port r) = true.
Proof.
  cbn. unfold SpecModel.IsLocalSpecified. cbn.
  destruct (String.eqb_spec (Itoa port) EmptyString) as [Heq|]; [|done].
  by apply Itoa_nonempty in Heq.
Qed.

Lemma StartSessionTunnels_again_witness :
  (∀ port r, Remote_IsLocalSpecified (with_allocated port r) = true) ∧
  ∃ ts w1,
    StartSessionTunnels (Some 1%positive) SpecModel.batch_mixed
      TunnelACL_zero (SpecModel.world0 None) = Done (ts, None) w1 ∧
    let run := StartSessionTunnels None SpecModel.batch_mixed
                 TunnelACL_zero in
    Forall (specified_in (remotes w1)) (elems SpecModel.batch_mixed) ∧
    Forall (λ ev, is_draw ev = false) (calls run w1) ∧
    remotes (world_of (run w1)) = remotes w1.
Proof.
  split; [exact SpecModel_allocated_is_specified|].
  eexists _, _. split; [vm_compute; reflexivity|].
  eapply (StartSessionTunnels_again (Some 1%positive) SpecModel.batch_mixed
            TunnelACL_zero (SpecModel.world0 None)).
  - exact SpecModel_allocated_is_specified.
  - vm_compute. reflexivity.
Defined.

(** * Properties of the login handlers *)

Module LoginFacts.
Import Login.

(** ** Reading a number *)

Lemma uint_val_acc d acc :
  uint_val d (Z.pos acc) = Z.pos (Pos.of_uint_acc d acc).
Proof.
  revert acc. induction d; intros acc; cbn [uint_val Pos.of_uint_acc];
    [done|..];
    match goal with
    | |- uint_val _ ?z = _ =>
        match goal with
        | |- _ = Z.pos (Pos.of_uint_acc _ ?p) =>
            replace z with (Z.pos p) by lia
        end
    end; apply IHd.
Qed.

Lemma uint_val_of_uint d : uint_val d 0 = Z.of_N (Pos.of_uint d).
Proof.
  induction d; cbn [uint_val Pos.of_uint]; [done|done|..];
    match goal with
    | |- uint_val _ ?z = _ =>
        match goal with
        | |- _ = Z.of_N (N.pos (Pos.of_uint_acc _ ?p)) =>
            replace z with (Z.pos p) by lia
        end
    end; apply uint_val_acc.
Qed.

Lemma uint_val_ge d acc : 0 ≤ acc → acc ≤ uint_val d acc.
Proof.
  revert acc. induction d; intros acc Hacc; cbn [uint_val]; [lia|..];
    (etrans; [|apply IHd]; lia).
Qed.

Lemma parse_digits_numeral d acc :
  0 ≤ acc → uint_val d acc < 2 ^ 64 →
  parse_digits (NilEmpty.string_of_uint d) acc = inl (uint_val d acc).
Proof.
  revert acc.
  induction d; intros acc Hacc Hlt;
    cbn [uint_val NilEmpty.string_of_uint parse_digits] in *; [done|..];
    match goal with
    | |- context [digit_of ?c] =>
        let v := eval vm_compute in (digit_of c) in
        change (digit_of c) with v; cbv iota
    end;
    match type of Hlt with
    | uint_val _ ?z < _ =>
        pose proof (uint_val_ge d z ltac:(lia)) as Hge;
        rewrite ?Z.add_0_r;
        rewrite (proj2 (Z.leb_gt _ _)) by lia;
        rewrite (proj2 (Z.ltb_ge _ _)) by lia;
        apply IHd; [lia|done]
    end.
Qed.

(** A numeral starts with a digit, which is no sign. *)
Lemma string_of_uint_head d :
  d ≠ Decimal.Nil →
  NilZero.string_of_uint d = NilEmpty.string_of_uint d ∧
  ∃ c s, NilEmpty.string_of_uint d = String c s ∧
    Nat.eqb (Ascii.nat_of_ascii c) 43 = false ∧
    Nat.eqb (Ascii.nat_of_ascii c) 45 = false.
Proof. destruct d; [done|..]; intros _; (split; [done|]); by eexists _, _. Qed.

(** [ParseInt] reads back what [Itoa] writes, for every [int64]. *)
Lemma ParseInt_Itoa (n : Z) :
  - 2 ^ 63 ≤ n < 2 ^ 63 → ParseInt (Itoa n) = inl n.
Proof.
  intros Hn. unfold Itoa.
  destruct n as [|p|p]; [done|..]; cbn [Z.to_int NilZero.string_of_int].
  - pose proof (DecimalPos.Unsigned.to_uint_nonnil p) as Hnil.
    destruct (string_of_uint_head _ Hnil)
      as (-> & c & s & Hs & Hplus & Hneg).
    pose proof (parse_digits_numeral (Pos.to_uint p) 0) as Hparse.
    rewrite uint_val_of_uint, DecimalPos.Unsigned.of_to in Hparse.
    cbn [Z.of_N] in Hparse. rewrite Hs in *.
    unfold ParseInt, ParseUint. rewrite Hplus, Hneg. cbn [orb negb andb].
    rewrite Hparse by lia.
    by rewrite (proj2 (Z.leb_gt _ _)) by lia.
  - pose proof (DecimalPos.Unsigned.to_uint_nonnil p) as Hnil.
    destruct (string_of_uint_head _ Hnil) as (-> & c & s & Hs & _).
    pose proof (parse_digits_numeral (Pos.to_uint p) 0) as Hparse.
    rewrite uint_val_of_uint, DecimalPos.Unsigned.of_to in Hparse.
    cbn [Z.of_N] in Hparse.
    unfold ParseInt, ParseUint.
    repeat match goal with
    | |- context [Nat.eqb ?a ?k] =>
        let v := eval vm_compute in (Nat.eqb a k) in
        change (Nat.eqb a k) with v
    end.
    cbn [orb negb andb]. rewrite Hs in *. rewrite Hparse by lia.
    by rewrite (proj2 (Z.ltb_ge _ _)) by lia.
Qed.

(** [ParseInt] at its edges. *)
Example ParseInt_edges :
  ParseInt EmptyString = inr ErrSyntax ∧
  ParseInt "+" = inr ErrSyntax ∧
  ParseInt "-" = inr ErrSyntax ∧
  ParseInt "+15" = inl 15 ∧
  ParseInt "-0" = inl 0 ∧
  ParseInt "007" = inl 7 ∧
  ParseInt "1_000" = inr ErrSyntax ∧
  ParseInt " 5" = inr ErrSyntax ∧
  ParseInt "5s" = inr ErrSyntax ∧
  ParseInt "9223372036854775807" = inl (2 ^ 63 - 1) ∧
  ParseInt "9223372036854775808" = inr ErrRange ∧
  ParseInt "-9223372036854775808" = inl (- 2 ^ 63) ∧
  ParseInt "-9223372036854775809" = inr ErrRange ∧
  ParseInt "99999999999999999999x" = inr ErrRange.
Proof. vm_compute. by split_and!. Qed.

Lemma wrap64_small z : - 2 ^ 63 ≤ z < 2 ^ 63 → wrap64 z = z.
Proof. intros Hz. unfold wrap64. rewrite Z.mod_small; lia. Qed.

Lemma wrap64_range z : - 2 ^ 63 ≤ wrap64 z < 2 ^ 63.
Proof.
  unfold wrap64.
  pose proof (Z.mod_pos_bound (z + 2 ^ 63) (2 ^ 64) ltac:(lia)). lia.
Qed.

Section TokenLifetime.
Context `{Listener}.

(** X7.  With a positive default that does not exceed the maximum, a
    lifetime that [parseTokenLifetime] returns without error is positive
    and at most [maxTokenLifetime], whatever the request asks for. *)
Theorem parseTokenLifetime_bounds req d :
  0 < defaultTokenLifetime ≤ maxTokenLifetime →
  parseTokenLifetime req = (d, None) →
  0 < d ≤ maxTokenLifetime.
Proof.
  intros Hdef. unfold parseTokenLifetime.
  destruct (ParseInt _) as [n|e]; [|done].
  destruct (maxTokenLifetime <? wrap64 (n * time_Second)) eqn:Hmax; [done|].
  apply Z.ltb_ge in Hmax.
  destruct (wrap64 (n * time_Second) <=? 0) eqn:Hpos; intros [= <-].
  - done.
  - apply Z.leb_gt in Hpos. lia.
Qed.

(** X8.  A request that asks for [n] seconds, written in decimal, with [n]
    positive and [n] seconds within [maxTokenLifetime], gets exactly [n]
    seconds. *)
Theorem parseTokenLifetime_seconds req n :
  Query_Get req "token-lifetime" = Itoa n →
  0 < n → n * time_Second ≤ maxTokenLifetime → maxTokenLifetime < 2 ^ 63 →
  parseTokenLifetime req = (n * time_Second, None).
Proof.
  intros Hq Hn Hmax Hlt. unfold parseTokenLifetime. rewrite Hq.
  destruct (String.eqb_spec (Itoa n) EmptyString) as [Heq|_];
    [by apply Itoa_nonempty in Heq|].
  unfold time_Second in *. rewrite ParseInt_Itoa by lia.
  rewrite wrap64_small by lia.
  rewrite (proj2 (Z.ltb_ge _ _)) by lia.
  by rewrite (proj2 (Z.leb_gt _ _)) by lia.
Qed.

(** X9.  A request without the parameter, with an empty one, or with a
    number of seconds that is zero or negative (down to the least whose
    nanoseconds fit [int64]) gets [defaultTokenLifetime], which is not
    compared with the maximum. *)
Theorem parseTokenLifetime_default req :
  Query_Get req "token-lifetime" = EmptyString ∨
  (∃ n, Query_Get req "token-lifetime" = Itoa n ∧ - 9223372036 ≤ n ≤ 0) →
  0 ≤ maxTokenLifetime →
  parseTokenLifetime req = (defaultTokenLifetime, None).
Proof.
  intros Hq Hmax. unfold parseTokenLifetime.
  assert (∃ n, ParseInt
                 (if String.eqb (Query_Get req "token-lifetime") EmptyString
                  then "0"%string else Query_Get req "token-lifetime") = inl n
               ∧ - 9223372036 ≤ n ≤ 0) as (n & -> & Hn).
  { destruct Hq as [->|(n & -> & Hn)].
    - exists 0. by split.
    - exists n. split; [|done].
      destruct (String.eqb_spec (Itoa n) EmptyString) as [Heq|_];
        [by apply Itoa_nonempty in Heq|].
      apply ParseInt_Itoa. lia. }
  unfold time_Second. rewrite wrap64_small by lia.
  rewrite (proj2 (Z.ltb_ge _ _)) by lia.
  by rewrite (proj2 (Z.leb_le _ _)) by lia.
Qed.

(** X10.  The product of the seconds and [time.Second] wraps around: a
    request for so many seconds that the nanoseconds leave [int64] is not
    refused as exceeding the maximum when the wrapped product is positive
    and within it; it is granted the wrapped product, less than what it
    asked for. *)
Theorem parseTokenLifetime_wraps req n :
  Query_Get req "token-lifetime" = Itoa n →
  n < 2 ^ 63 → 2 ^ 63 ≤ n * time_Second →
  0 < wrap64 (n * time_Second) ≤ maxTokenLifetime →
  parseTokenLifetime req = (wrap64 (n * time_Second), None) ∧
  wrap64 (n * time_Second) < n * time_Second.
Proof.
  intros Hq Hn Hover Hw. unfold parseTokenLifetime. rewrite Hq.
  destruct (String.eqb_spec (Itoa n) EmptyString) as [Heq|_];
    [by apply Itoa_nonempty in Heq|].
  rewrite ParseInt_Itoa by (unfold time_Second in *; lia).
  rewrite (proj2 (Z.ltb_ge _ _)) by lia.
  rewrite (proj2 (Z.leb_gt _ _)) by lia.
  split; [done|]. pose proof (wrap64_range (n * time_Second)). lia.
Qed.

(** X11.  A request for a number of seconds beyond the maximum, whose
    nanoseconds still fit [int64], is refused with the error that names
    the maximum in seconds; a parameter that is not a decimal [int64] is
    refused with the error of [ParseInt]. *)
Theorem parseTokenLifetime_refuses req :
  0 ≤ maxTokenLifetime →
  (∀ n, Query_Get req "token-lifetime" = Itoa n →
        maxTokenLifetime < n * time_Second < 2 ^ 63 →
        parseTokenLifetime req =
          (0, Some (fmt_Errorf_int
                      "requested token lifetime exceeds max allowed %d"
                      (maxTokenLifetime `quot` time_Second)))) ∧
  (∀ e, Query_Get req "token-lifetime" ≠ EmptyString →
        ParseInt (Query_Get req "token-lifetime") = inr e →
        parseTokenLifetime req =
          (0, Some (fmt_Errorf_error "invalid token-lifetime : %s"
                      (strconv_NumError "ParseInt"
                         (Query_Get req "token-lifetime") e)))).
Proof.
  intros Hmax. split.
  - intros n Hq Hn. unfold parseTokenLifetime. rewrite Hq.
    destruct (String.eqb_spec (Itoa n) EmptyString) as [Heq|_];
      [by apply Itoa_nonempty in Heq|].
    rewrite ParseInt_Itoa by (unfold time_Second in *; lia).
    rewrite wrap64_small by lia.
    by rewrite (proj2 (Z.ltb_lt _ _)) by lia.
  - intros e Hne Hp. unfold parseTokenLifetime.
    destruct (String.eqb_spec (Query_Get req "token-lifetime") EmptyString);
      [done|].
    by rewrite Hp.
Qed.

End TokenLifetime.

(** ** The handlers *)

Section Handlers.
Context `{Listener}.

#[local] Arguments parseTokenLifetime : simpl never.
#[local] Arguments parseLoginPostRequestBody : simpl never.

(** Opening a handler into its cases. *)
Ltac open_handlers :=
  unfold calls, after, run, serve, handleGetLogin, handlePostLogin,
    handleLogin, sendJWTToken, handleGetAuthProvider, handleGetAuthSettings,
    handleGetAuthDeviceSettings, respond_token, call_IsBanned,
    call_bannedUsers_Add, call_validateCredentials, call_handleBannedIPs,
    call_SendToken, call_createAuthToken, call_DeliveryMethod,
    call_SetTotPLoginSession, call_GetOAuthCapabilityEx, call_GetLoginInfo,
    call_GetLoginInfoForDevice, jsonErrorResponseWithTitle, jsonError,
    jsonErrorResponse, writeJSONResponse, record, ask, tell,
    mbind, Handler_bind, mret, Handler_ret in *.

Ltac explore :=
  open_handlers; cbn in *; repeat (case_match; simplify_eq/=);
  repeat match goal with
  | Hb : negb ?b = _ |- _ => destruct b; simplify_eq/=
  end.

Ltac split_elem :=
  repeat match goal with
  | H : _ ∈ [] |- _ => by apply elem_of_nil in H
  | H : _ ∈ _ :: _ |- _ => apply elem_of_cons in H; destruct H as [H|H]
  end; simplify_eq/=.

Lemma eqb_false_ne (a b : string) : String.eqb a b = false → a ≠ b.
Proof. by intros ? ?%String.eqb_eq; congruence. Qed.

(** X12.  [handleLogin] asks for a token only after the user was found not
    banned, the credentials were validated for this very user, password
    and flag with a positive answer and no error, and [handleBannedIPs]
    let the authorized request pass, in this order; the user name is not
    empty; and it asks for one token only, for that user and request. *)
Theorem handleLogin_token_gate username pwd skip req s r lifetime u scopes
    token err :
  let cs := calls (handleLogin username pwd skip req) s in
  CallCreateAuthToken r lifetime u scopes token err ∈ cs →
  username ≠ EmptyString ∧ u = username ∧ r = req ∧
  (∃ user,
     take 3 cs =
       [CallIsBanned username false;
        CallValidateCredentials username pwd skip true user None;
        CallHandleBannedIPs req true true]) ∧
  filter (λ c, is_token_call c = true) cs =
    [CallCreateAuthToken r lifetime u scopes token err].
Proof.
  intros cs Hin. subst cs. explore; split_elem.
  all: split_and!; eauto using eqb_false_ne.
Qed.

(** X13.  The token [handleLogin] asks for has the lifetime that
    [parseTokenLifetime] grants the request, and the scopes the
    configuration gives: with 2FA on, the 2FA-check scopes, and only after
    [SendToken] went through for this user, user agent and address; with
    TotP on, the 2FA-check scopes, extended by the TotP-create scopes
    exactly when the validated user has no TotP secret; otherwise all
    scopes but the 2FA check. *)
Theorem handleLogin_token_terms username pwd skip req s r lifetime u scopes
    token err :
  let cs := calls (handleLogin username pwd skip req) s in
  CallCreateAuthToken r lifetime u scopes token err ∈ cs →
  parseTokenLifetime req = (lifetime, None) ∧
  ∃ user totP,
    CallValidateCredentials username pwd skip true user None ∈ cs ∧
    scopes = login_scopes totP ∧
    (API_IsTwoFAOn = true →
     ∃ sendTo,
       cs !! 3%nat = Some (CallSendToken req username (UserAgent req)
                             (RemoteIP req) sendTo None) ∧
       cs !! 4%nat = Some (CallCreateAuthToken r lifetime u scopes token err)) ∧
    (API_IsTwoFAOn = false → API_TotPEnabled = true →
     GetUsersTotPCode user = (totP, None) ∧
     cs !! 3%nat = Some (CallSetTotPLoginSession username
                           API_TotPLoginSessionTimeout)).
Proof.
  intros cs Hin. subst cs. explore; split_elem.
  all: (split; [done|]).
  all: unfold login_scopes.
  all: repeat match goal with Hc : _ = _ |- _ => rewrite Hc end.
  all: first
    [ eexists _, None; split_and!;
      [rewrite !elem_of_cons; by auto 10|done|by eauto|by intros]
    | eexists _, (Some _); split_and!;
      [rewrite !elem_of_cons; by auto 10|done|by eauto|by intros] ].
Qed.

(** X14.  An answer of [handleLogin] with a payload has status 200, is the
    last thing the handler does, and carries exactly the token that
    [createAuthToken] issued without error for this user and request; its
    second-factor part is absent exactly when neither 2FA nor TotP is on. *)
Theorem handleLogin_success_response username pwd skip req s status payload :
  let cs := calls (handleLogin username pwd skip req) s in
  RespJSON status payload ∈ cs →
  status = StatusOK ∧
  last cs = Some (RespJSON status payload) ∧
  ∃ lifetime scopes token twoFA,
    payload = PayloadLogin (mkLoginResponse (Some token) twoFA) ∧
    CallCreateAuthToken req lifetime username scopes token None ∈ cs ∧
    (twoFA = None ↔ API_IsTwoFAOn = false ∧ API_TotPEnabled = false).
Proof.
  intros cs Hin. subst cs. explore; split_elem.
  all: split_and!; [done..|].
  all: eexists _, _, _, _; split_and!;
    [done|rewrite !elem_of_cons; by auto 10|].
  all: split; try done; by intros [??].
Qed.

(** X15.  [handleLogin] counts a failed login against a user name, with
    [bannedUsers.Add], exactly when the credentials were found wrong
    without an error and [handleBannedIPs] let the request pass; it counts
    the name it was given, and the run is then the ban check, the
    validation, the address check, the count and the answer 401: no token
    is asked for. *)
Theorem handleLogin_failed_login username pwd skip req s u :
  let cs := calls (handleLogin username pwd skip req) s in
  (CallBannedUsersAdd u ∈ cs ↔
   u = username ∧
   ∃ user,
     CallValidateCredentials username pwd skip false user None ∈ cs ∧
     CallHandleBannedIPs req false true ∈ cs) ∧
  (CallBannedUsersAdd u ∈ cs →
   ∃ user,
     cs = [CallIsBanned username false;
           CallValidateCredentials username pwd skip false user None;
           CallHandleBannedIPs req false true;
           CallBannedUsersAdd username;
           RespErrorWithTitle StatusUnauthorized "unauthorized"]).
Proof.
  intros cs. subst cs. split_and!.
  - split.
    + intros Hin. explore; split_elem.
      split; [done|]. eexists. rewrite !elem_of_cons. by auto 10.
    + intros (-> & user & Hv & Hb). explore; split_elem.
      all: rewrite !elem_of_cons; by auto 10.
  - intros Hin. explore; split_elem. by eexists.
Qed.

(** X16.  [handleLogin] validates credentials at most once, with the user
    name, password and flag it was given, and never for a banned user or
    an empty user name. *)
Theorem handleLogin_validation username pwd skip req s :
  let cs := calls (handleLogin username pwd skip req) s in
  (filter is_validation cs = [] ∧
   (cs !! 0%nat = Some (CallIsBanned username true) ∨ username = EmptyString)) ∨
  (∃ authorized user err,
     filter is_validation cs =
       [CallValidateCredentials username pwd skip authorized user err] ∧
     cs !! 0%nat = Some (CallIsBanned username false) ∧
     username ≠ EmptyString).
Proof.
  intros cs. subst cs. explore.
  all: try (left; split; [done|]; first [by left | right; by apply String.eqb_eq]).
  all: right; eexists _, _, _; split_and!; [done..|by apply eqb_false_ne].
Qed.

(** X17.  Every function of the file that answers a request writes at
    most one answer, and the answer is the last thing it does; it writes
    none exactly when [handleBannedIPs] refused the request, which then is
    the last call. *)
Theorem serve_answers_once e req s :
  let cs := calls (serve e req) s in
  (∃ c, responses cs = [c] ∧ last cs = Some c ∧
        Forall (λ c, is_refusal c = false) cs) ∨
  (responses cs = [] ∧
   ∃ authorized, last cs = Some (CallHandleBannedIPs req authorized false)).
Proof.
  intros cs. subst cs. unfold responses. destruct e; explore.
  all: first
    [ left; eexists; split_and!; [done|done|by repeat constructor]
    | right; split; [done|]; by eexists ].
Qed.

(** X18.  The password check is skipped only by [handleGetLogin], and only
    when the authentication header is configured and the request carries
    it: the user is then the one of the user header and the password is
    empty.  [handlePostLogin] and the other handlers never skip it. *)
Theorem skipPasswordValidation_origin e req s u p authorized user err :
  CallValidateCredentials u p true authorized user err ∈ calls (serve e req) s →
  e = EntryLogin u p true ∨
  (e = EntryGetLogin ∧ PlusOAuthEnabled = false ∧
   API_AuthHeader ≠ EmptyString ∧
   Header_Get req API_AuthHeader ≠ EmptyString ∧
   u = Header_Get req API_UserHeader ∧ p = EmptyString).
Proof.
  intros Hin. destruct e; explore; split_elem.
  all: first
    [ by left
    | right; split_and!; try done;
      repeat match goal with
      | Hb : _ && _ = true |- _ => apply andb_true_iff in Hb; destruct Hb
      | Hb : negb _ = true |- _ => apply negb_true_iff in Hb
      end; by apply eqb_false_ne ].
Qed.

(** X19.  [handleGetLogin] has the basic credentials of the request
    checked, with their password, only when the authentication header is
    not configured or the request does not carry it: the header takes
    precedence over basic authentication. *)
Theorem handleGetLogin_basic_auth req s u p authorized user err :
  CallValidateCredentials u p false authorized user err
    ∈ calls (handleGetLogin req) s →
  PlusOAuthEnabled = false ∧
  BasicAuth req = (u, p, true) ∧
  (API_AuthHeader = EmptyString ∨
   Header_Get req API_AuthHeader = EmptyString).
Proof.
  intros Hin. explore; split_elem.
  all: split_and!; try done.
  all: repeat match goal with
       | Hb : _ && _ = false |- _ => apply andb_false_iff in Hb; destruct Hb
       | Hb : negb _ = false |- _ => apply negb_false_iff in Hb
       | Hb : String.eqb _ _ = true |- _ => apply String.eqb_eq in Hb
       end; by auto.
Qed.

(** X20.  The credentials [handlePostLogin] has checked are those of the
    body of the request: the fields of the form when the content type is
    that of a form and the form parses, the fields of the JSON document
    when the content type is JSON and the body parses; a request with
    another content type never reaches the credential check. *)
Theorem handlePostLogin_credentials req s u p skip authorized user err :
  CallValidateCredentials u p skip authorized user err
    ∈ calls (handlePostLogin req) s →
  PlusOAuthEnabled = false ∧ skip = false ∧
  ((Header_Get req "Content-Type" = "application/x-www-form-urlencoded"%string ∧
    ParseForm req = None ∧
    u = PostForm_Get req "username" ∧ p = PostForm_Get req "password") ∨
   (Header_Get req "Content-Type" = "application/json"%string ∧
    parseRequestBody req = ((u, p), None))).
Proof.
  intros Hin.
  assert (∀ u' p', parseLoginPostRequestBody req = (u', p', None) →
            (Header_Get req "Content-Type"
               = "application/x-www-form-urlencoded"%string ∧
             ParseForm req = None ∧
             u' = PostForm_Get req "username" ∧
             p' = PostForm_Get req "password") ∨
            (Header_Get req "Content-Type" = "application/json"%string ∧
             parseRequestBody req = ((u', p'), None))) as Hbody.
  { intros u' p'. unfold parseLoginPostRequestBody.
    destruct (String.eqb_spec (Header_Get req "Content-Type")
                "application/x-www-form-urlencoded") as [Hct|_].
    - destruct (ParseForm req); [done|]. intros [= <- <-]. by left.
    - destruct (String.eqb_spec (Header_Get req "Content-Type")
                  "application/json") as [Hct|_]; [|done].
      destruct (parseRequestBody req) as [[u1 p1] [e1|]]; [done|].
      intros [= <- <-]. by right. }
  explore; split_elem.
  all: split_and!; [done|done|]; by apply Hbody.
Qed.

(** X21.  To a request whose content type is neither that of a form nor
    JSON, [handlePostLogin] (with the built-in login in charge) does one
    thing before it answers: it reports a bad request to
    [handleBannedIPs].  No credential is checked and no login is counted
    against a user; the answer, if the address check lets it pass, is the
    error 400 that names the content type. *)
Theorem handlePostLogin_unsupported req s :
  PlusOAuthEnabled = false →
  Header_Get req "Content-Type" ≠ "application/x-www-form-urlencoded"%string →
  Header_Get req "Content-Type" ≠ "application/json"%string →
  ∃ ok,
    handleBannedIPs req false s = (ok, after (handlePostLogin req) s) ∧
    calls (handlePostLogin req) s =
      CallHandleBannedIPs req false ok ::
      (if ok then
         [RespError (errors2_APIError None
                       ("unsupported content type: "
                          ++ Header_Get req "Content-Type")
                       StatusBadRequest)]
       else []).
Proof.
  intros Hoff Hform Hjson.
  assert (parseLoginPostRequestBody req =
            (EmptyString, EmptyString,
             Some (errors2_APIError None
                     ("unsupported content type: "
                        ++ Header_Get req "Content-Type")
                     StatusBadRequest))) as Hbody.
  { unfold parseLoginPostRequestBody.
    by rewrite (proj2 (String.eqb_neq _ _) Hform),
      (proj2 (String.eqb_neq _ _) Hjson). }
  unfold calls, after, run, handlePostLogin. rewrite Hoff, Hbody.
  open_handlers. cbn.
  destruct (handleBannedIPs req false s) as [[] s'] eqn:Hb; cbn;
    by eexists.
Qed.

(** X22.  With neither 2FA nor TotP on, what [handleLogin] does after the
    credentials were accepted and the address check passed is what
    [sendJWTToken] does for the same user and request, on the state the
    checks left: the same calls, the same answer, the same state. *)
Theorem handleLogin_plain_is_sendJWTToken username pwd skip req s user :
  let cs := calls (handleLogin username pwd skip req) s in
  let s1 := (bannedUsers_IsBanned username s).2 in
  let s2 := (validateCredentials username pwd skip s1).2 in
  let s3 := (handleBannedIPs req true s2).2 in
  API_IsTwoFAOn = false → API_TotPEnabled = false →
  take 3 cs = [CallIsBanned username false;
               CallValidateCredentials username pwd skip true user None;
               CallHandleBannedIPs req true true] →
  drop 3 cs = calls (sendJWTToken username req) s3 ∧
  after (handleLogin username pwd skip req) s =
    after (sendJWTToken username req) s3.
Proof.
  intros cs s1 s2 s3 H2fa Htotp. subst cs s1 s2 s3.
  open_handlers. rewrite H2fa, Htotp. cbn.
  repeat (case_match; simplify_eq/=); try done.
  all: repeat match goal with
       | Hb : negb ?b = _ |- _ => destruct b; simplify_eq/=
       end; try done.
  all: intros _;
    repeat match goal with
    | Hc : _ = (_, _) |- _ => rewrite Hc in *; clear Hc
    end; cbn in *; split; congruence.
Qed.

(** X23.  An answer with a payload from one of the two settings handlers
    has status 200 and is given only with OAuth enabled, after the plus
    manager handed out its OAuth capability; it carries the configured
    provider and the login information that the capability returned
    without error, for the device flow the one it returned for this
    request. *)
Theorem auth_settings_answer e req s status payload :
  e = EntryGetAuthSettings ∨ e = EntryGetAuthDeviceSettings →
  let cs := calls (serve e req) s in
  RespJSON status payload ∈ cs →
  status = StatusOK ∧ PlusOAuthEnabled = true ∧
  (∃ capEx, cs !! 0%nat = Some (CallGetOAuthCapabilityEx (Some capEx))) ∧
  ((e = EntryGetAuthSettings ∧
    ∃ info,
      payload = PayloadSettings (mkAuthSettings OAuthConfig_Provider info) ∧
      cs !! 1%nat = Some (CallGetLoginInfo info None)) ∨
   (e = EntryGetAuthDeviceSettings ∧
    ∃ info,
      payload = PayloadDeviceSettings
                  (mkDeviceAuthSettings OAuthConfig_Provider info) ∧
      cs !! 1%nat = Some (CallGetLoginInfoForDevice req info None))).
Proof.
  intros [->| ->] cs Hin; subst cs; explore; split_elem.
  all: split_and!; [done|done|by eexists|].
  - left. split; [done|]. by eexists.
  - right. split; [done|]. by eexists.
Qed.

(** X24.  What [handleGetAuthProvider] announces agrees with what the
    other handlers do.  It always answers 200 and changes nothing.  When
    it names the built-in provider, with empty settings addresses, both
    settings handlers refuse with 403 and [ErrPlusNotAvailable]; when it
    names the configured OAuth provider, with the two settings routes
    under the prefixes, both login handlers refuse with 403.  A refusing
    handler calls nothing and changes nothing. *)
Theorem handleGetAuthProvider_agrees req s req' s' :
  ∃ i,
    calls (handleGetAuthProvider req) s = [RespJSON StatusOK (PayloadProvider i)] ∧
    after (handleGetAuthProvider req) s = s ∧
    ((PlusOAuthEnabled = false ∧
      i = mkAuthProviderInfo BuiltInAuthProviderName EmptyString EmptyString ∧
      ∀ e, e = EntryGetAuthSettings ∨ e = EntryGetAuthDeviceSettings →
        calls (serve e req') s' =
          [RespErrorResponse StatusForbidden ErrPlusNotAvailable] ∧
        after (serve e req') s' = s') ∨
     (PlusOAuthEnabled = true ∧
      i = mkAuthProviderInfo OAuthConfig_Provider
            (allRoutesPrefix ++ authRoutesPrefix ++ authSettingsRoute)
            (allRoutesPrefix ++ authRoutesPrefix ++ authDeviceSettingsRoute) ∧
      ∀ e, e = EntryGetLogin ∨ e = EntryPostLogin →
        calls (serve e req') s' =
          [RespErrorResponse StatusForbidden builtin_disabled] ∧
        after (serve e req') s' = s')).
Proof.
  open_handlers. destruct PlusOAuthEnabled eqn:Hoauth; cbn.
  - eexists. split_and!; [done|done|]. right. split_and!; [done|done|].
    by intros e [->| ->].
  - eexists. split_and!; [done|done|]. left. split_and!; [done|done|].
    by intros e [->| ->].
Qed.

End Handlers.

(** ** Runs on the sample listener *)

Lemma parseTokenLifetime_bounds_witness :
  let req := Sample.request "alice" "correct horse" "3600" in
  0 < @defaultTokenLifetime _ Sample.plain ≤ @maxTokenLifetime _ Sample.plain ∧
  @parseTokenLifetime _ Sample.plain req = (3600 * time_Second, None) ∧
  0 < 3600 * time_Second ≤ @maxTokenLifetime _ Sample.plain.
Proof.
  intros req.
  assert (0 < @defaultTokenLifetime _ Sample.plain
            ≤ @maxTokenLifetime _ Sample.plain) as Hdef
    by (vm_compute; done).
  assert (@parseTokenLifetime _ Sample.plain req
          = (3600 * time_Second, None)) as Hp
    by (vm_compute; reflexivity).
  split; [exact Hdef|]. split; [exact Hp|].
  exact (@parseTokenLifetime_bounds _ Sample.plain req _ Hdef Hp).
Defined.

Lemma parseTokenLifetime_seconds_witness :
  let req := Sample.request "alice" "correct horse" "3600" in
  @Query_Get _ Sample.plain req "token-lifetime" = Itoa 3600 ∧
  @parseTokenLifetime _ Sample.plain req = (3600 * time_Second, None).
Proof.
  intros req.
  assert (@Query_Get _ Sample.plain req "token-lifetime" = Itoa 3600) as Hq
    by (vm_compute; reflexivity).
  split; [exact Hq|].
  apply (@parseTokenLifetime_seconds _ Sample.plain req 3600 Hq);
    vm_compute; done.
Defined.

Lemma parseTokenLifetime_default_witness :
  let req := Sample.request "alice" "correct horse" EmptyString in
  @Query_Get _ Sample.plain req "token-lifetime" = EmptyString ∧
  @parseTokenLifetime _ Sample.plain req =
    (@defaultTokenLifetime _ Sample.plain, None).
Proof.
  intros req.
  assert (@Query_Get _ Sample.plain req "token-lifetime" = EmptyString) as Hq
    by (vm_compute; reflexivity).
  split; [exact Hq|].
  apply (@parseTokenLifetime_default _ Sample.plain req (or_introl Hq)).
  vm_compute; done.
Defined.

Lemma parseTokenLifetime_wraps_witness :
  let req := Sample.request "alice" "correct horse" "18446744074" in
  @Query_Get _ Sample.plain req "token-lifetime" = Itoa 18446744074 ∧
  wrap64 (18446744074 * time_Second) = 290448384 ∧
  @parseTokenLifetime _ Sample.plain req =
    (wrap64 (18446744074 * time_Second), None) ∧
  wrap64 (18446744074 * time_Second) < 18446744074 * time_Second.
Proof.
  intros req.
  assert (@Query_Get _ Sample.plain req "token-lifetime" = Itoa 18446744074)
    as Hq by (vm_compute; reflexivity).
  split; [exact Hq|]. split; [vm_compute; reflexivity|].
  apply (@parseTokenLifetime_wraps _ Sample.plain req 18446744074 Hq);
    vm_compute; done.
Defined.

Lemma parseTokenLifetime_refuses_witness :
  let long := Sample.request "alice" "correct horse" "7776001" in
  let words := Sample.request "alice" "correct horse" "1h" in
  0 ≤ @maxTokenLifetime _ Sample.plain ∧
  @parseTokenLifetime _ Sample.plain long =
    (0, Some (fmt_Errorf_int
                "requested token lifetime exceeds max allowed %d" 7776000)) ∧
  @parseTokenLifetime _ Sample.plain words =
    (0, Some (fmt_Errorf_error "invalid token-lifetime : %s"
                (strconv_NumError "ParseInt" "1h" ErrSyntax))).
Proof.
  intros long words.
  assert (0 ≤ @maxTokenLifetime _ Sample.plain) as Hmax by (vm_compute; done).
  split; [exact Hmax|]. split.
  - apply (proj1 (@parseTokenLifetime_refuses _ Sample.plain long Hmax)
             7776001); vm_compute; done.
  - apply (proj2 (@parseTokenLifetime_refuses _ Sample.plain words Hmax)
             ErrSyntax); vm_compute; done.
Defined.

Lemma handleLogin_token_gate_witness :
  let req := Sample.request "alice" "correct horse" "3600" in
  let h := @handleLogin _ Sample.plain "alice" "correct horse" false req in
  let c := CallCreateAuthToken req (3600 * time_Second) "alice" ["all"%string]
             "token for alice" None in
  c ∈ calls h [] ∧
  take 3 (calls h []) =
    [CallIsBanned "alice" false;
     CallValidateCredentials "alice" "correct horse" false true "alice" None;
     CallHandleBannedIPs req true true] ∧
  filter (λ c, is_token_call c = true) (calls h []) = [c].
Proof.
  intros req h c.
  assert (c ∈ calls h []) as Hin by (vm_compute; repeat constructor).
  split; [exact Hin|].
  pose proof (@handleLogin_token_gate _ Sample.plain "alice" "correct horse" false req
                [] req (3600 * time_Second) "alice" ["all"%string]
                "token for alice" None Hin)
    as (_ & _ & _ & _ & Hone).
  split; [vm_compute; reflexivity|exact Hone].
Defined.

Lemma handleLogin_token_terms_witness :
  let req := Sample.request "alice" "correct horse" "3600" in
  let h := @handleLogin _ Sample.with_totp "alice" "correct horse" false req in
  let c := CallCreateAuthToken req (3600 * time_Second) "alice"
             ["2fa-check"; "totp-create"]%string "token for alice" None in
  c ∈ calls h [] ∧
  @parseTokenLifetime _ Sample.with_totp req = (3600 * time_Second, None).
Proof.
  intros req h c.
  assert (c ∈ calls h []) as Hin by (vm_compute; repeat constructor).
  split; [exact Hin|].
  exact (proj1 (@handleLogin_token_terms _ Sample.with_totp "alice"
                  "correct horse" false req [] req (3600 * time_Second)
                  "alice" ["2fa-check"; "totp-create"]%string
                  "token for alice" None Hin)).
Defined.

Lemma handleLogin_success_response_witness :
  let req := Sample.request "alice" "correct horse" "3600" in
  let h := @handleLogin _ Sample.with_2fa "alice" "correct horse" false req in
  let c := RespJSON StatusOK
             (PayloadLogin
                (mkLoginResponse (Some "token for alice"%string)
                   (Some (mkTwoFAResponse "mail of alice" "smtp"
                            EmptyString)))) in
  c ∈ calls h [] ∧ last (calls h []) = Some c.
Proof.
  intros req h c.
  assert (c ∈ calls h []) as Hin by (vm_compute; repeat constructor).
  split; [exact Hin|].
  exact (proj1 (proj2 (@handleLogin_success_response _ Sample.with_2fa "alice"
                         "correct horse" false req [] _ _ Hin))).
Defined.

Lemma handleLogin_failed_login_witness :
  let req := Sample.request "alice" "guess" "3600" in
  let h := @handleLogin _ Sample.plain "alice" "guess" false req in
  CallBannedUsersAdd "alice" ∈ calls h [] ∧
  ∃ user,
    calls h [] =
      [CallIsBanned "alice" false;
       CallValidateCredentials "alice" "guess" false false user None;
       CallHandleBannedIPs req false true;
       CallBannedUsersAdd "alice";
       RespErrorWithTitle StatusUnauthorized "unauthorized"].
Proof.
  intros req h.
  assert (CallBannedUsersAdd "alice" ∈ calls h []) as Hin
    by (vm_compute; repeat constructor).
  split; [exact Hin|].
  exact (proj2 (@handleLogin_failed_login _ Sample.plain "alice" "guess" false req
                  [] "alice") Hin).
Defined.

Lemma skipPasswordValidation_origin_witness :
  let req := Sample.header_request "alice" in
  let h := @serve _ Sample.plain EntryGetLogin req in
  CallValidateCredentials "alice" EmptyString true true "alice" None
    ∈ calls h [] ∧
  (EntryGetLogin = EntryLogin "alice" EmptyString true ∨
   (EntryGetLogin = EntryGetLogin ∧
    @PlusOAuthEnabled _ Sample.plain = false ∧
    @API_AuthHeader _ Sample.plain ≠ EmptyString ∧
    @Header_Get _ Sample.plain req (@API_AuthHeader _ Sample.plain)
      ≠ EmptyString ∧
    "alice"%string
      = @Header_Get _ Sample.plain req (@API_UserHeader _ Sample.plain) ∧
    EmptyString = EmptyString)).
Proof.
  intros req h.
  assert (CallValidateCredentials "alice" EmptyString true true "alice" None
            ∈ calls h []) as Hin by (vm_compute; repeat constructor).
  split; [exact Hin|].
  exact (@skipPasswordValidation_origin _ Sample.plain EntryGetLogin req []
           "alice" EmptyString true "alice" None Hin).
Defined.

Lemma handleGetLogin_basic_auth_witness :
  let req := Sample.request "alice" "correct horse" "3600" in
  let h := @handleGetLogin _ Sample.plain req in
  CallValidateCredentials "alice" "correct horse" false true "alice" None
    ∈ calls h [] ∧
  @BasicAuth _ Sample.plain req = ("alice", "correct horse", true)%string.
Proof.
  intros req h.
  assert (CallValidateCredentials "alice" "correct horse" false true "alice"
            None ∈ calls h []) as Hin by (vm_compute; repeat constructor).
  split; [exact Hin|].
  exact (proj1 (proj2 (@handleGetLogin_basic_auth _ Sample.plain req []
                         "alice" "correct horse" true "alice" None Hin))).
Defined.

Lemma handlePostLogin_credentials_witness :
  let req := Sample.post_request "application/json" "alice" "correct horse" in
  let h := @handlePostLogin _ Sample.plain req in
  CallValidateCredentials "alice" "correct horse" false true "alice" None
    ∈ calls h [] ∧
  ((@Header_Get _ Sample.plain req "Content-Type"
      = "application/x-www-form-urlencoded"%string ∧
    @ParseForm _ Sample.plain req = None ∧
    "alice"%string = @PostForm_Get _ Sample.plain req "username" ∧
    "correct horse"%string = @PostForm_Get _ Sample.plain req "password") ∨
   (@Header_Get _ Sample.plain req "Content-Type" = "application/json"%string ∧
    @parseRequestBody _ Sample.plain req
      = (("alice", "correct horse")%string, None))).
Proof.
  intros req h.
  assert (CallValidateCredentials "alice" "correct horse" false true "alice"
            None ∈ calls h []) as Hin by (vm_compute; repeat constructor).
  split; [exact Hin|].
  exact (proj2 (proj2 (@handlePostLogin_credentials _ Sample.plain req []
                         "alice" "correct horse" false true "alice" None
                         Hin))).
Defined.

Lemma handlePostLogin_unsupported_witness :
  let req := Sample.post_request "text/plain" "alice" "correct horse" in
  @PlusOAuthEnabled _ Sample.plain = false ∧
  @Header_Get _ Sample.plain req "Content-Type"
    ≠ "application/x-www-form-urlencoded"%string ∧
  @Header_Get _ Sample.plain req "Content-Type" ≠ "application/json"%string ∧
  ∃ ok,
    @handleBannedIPs _ Sample.plain req false []
      = (ok, after (@handlePostLogin _ Sample.plain req) []) ∧
    calls (@handlePostLogin _ Sample.plain req) [] =
      CallHandleBannedIPs req false ok ::
      (if ok then
         [RespError (errors2_APIError None
                       ("unsupported content type: "
                          ++ @Header_Get _ Sample.plain req "Content-Type")
                       StatusBadRequest)]
       else []).
Proof.
  intros req.
  assert (@PlusOAuthEnabled _ Sample.plain = false) as Hoff by reflexivity.
  assert (@Header_Get _ Sample.plain req "Content-Type"
            ≠ "application/x-www-form-urlencoded"%string) as Hform
    by (vm_compute; discriminate).
  assert (@Header_Get _ Sample.plain req "Content-Type"
            ≠ "application/json"%string) as Hjson
    by (vm_compute; discriminate).
  split; [exact Hoff|]. split; [exact Hform|]. split; [exact Hjson|].
  exact (@handlePostLogin_unsupported _ Sample.plain req [] Hoff Hform Hjson).
Defined.

Lemma handleLogin_plain_is_sendJWTToken_witness :
  let req := Sample.request "alice" "correct horse" "3600" in
  let h := @handleLogin _ Sample.plain "alice" "correct horse" false req in
  take 3 (calls h []) =
    [CallIsBanned "alice" false;
     CallValidateCredentials "alice" "correct horse" false true "alice" None;
     CallHandleBannedIPs req true true] ∧
  drop 3 (calls h []) = calls (@sendJWTToken _ Sample.plain "alice" req) [] ∧
  after h [] = after (@sendJWTToken _ Sample.plain "alice" req) [].
Proof.
  intros req h.
  assert (take 3 (calls h []) =
            [CallIsBanned "alice" false;
             CallValidateCredentials "alice" "correct horse" false true
               "alice" None;
             CallHandleBannedIPs req true true]) as Htake
    by (vm_compute; reflexivity).
  split; [exact Htake|].
  exact (@handleLogin_plain_is_sendJWTToken _ Sample.plain "alice"
           "correct horse" false req [] "alice" eq_refl eq_refl Htake).
Defined.

Lemma auth_settings_answer_witness :
  let req := Sample.request "alice" "correct horse" "3600" in
  let h := @serve _ Sample.with_oauth EntryGetAuthSettings req in
  let c := RespJSON StatusOK
             (PayloadSettings (mkAuthSettings "github" "login info")) in
  c ∈ calls h [] ∧
  @PlusOAuthEnabled _ Sample.with_oauth = true ∧
  ∃ capEx, calls h [] !! 0%nat = Some (CallGetOAuthCapabilityEx (Some capEx)).
Proof.
  intros req h c.
  assert (c ∈ calls h []) as Hin by (vm_compute; repeat constructor).
  split; [exact Hin|].
  pose proof (@auth_settings_answer _ Sample.with_oauth EntryGetAuthSettings
                req [] _ _ (or_introl eq_refl) Hin) as (_ & Hon & Hcap & _).
  split; [exact Hon|exact Hcap].
Defined.

End LoginFacts.
